(** * kedro.io.data_catalog: the resolution engine of [DataCatalog]

    A shallow embedding of [src/kedro/io/data_catalog.py] and the
    properties of its name resolution: pattern ordering, credential
    resolution, template substitution, the registry operations and the
    frozen attribute view.

    Conventions.
    - A Python [str] is a [string]; a character stands for the code point
      of the same number (U+0000 .. U+00FF).
    - A Python [dict] is an association list in insertion order; every
      function below keeps keys unique when its input has unique keys.
    - A raised exception is a value of [exn]; operations of the registry
      live in a state-and-exception monad over an object store. *)

From Stdlib Require Import ZArith Lia List Ascii String Permutation Sorted.
From Stdlib Require Import DecimalString.
From stdpp Require Import base list strings.

Local Open Scope Z_scope.

(** ** Characters *)

Definition ch_lbrace : ascii := "{"%char.
Definition ch_rbrace : ascii := "}"%char.
Definition ch_lbracket : ascii := "["%char.
Definition ch_dot : ascii := "."%char.
Definition ch_bang : ascii := "!"%char.
Definition ch_colon : ascii := ":"%char.
Definition ch_newline : ascii := ascii_of_nat 10.
Definition ch_tab : ascii := ascii_of_nat 9.
Definition ch_return : ascii := ascii_of_nat 13.
Definition ch_backslash : ascii := ascii_of_nat 92.
Definition ch_quote : ascii := ascii_of_nat 39.
Definition ch_dquote : ascii := ascii_of_nat 34.
Definition ch_underscore : ascii := "_"%char.

(** [c in s] for a one-character [c]. *)
Fixpoint str_contains (c : ascii) (s : string) : bool :=
  match s with
  | EmptyString => false
  | String d r => Ascii.eqb d c || str_contains c r
  end.

(** [s.count(c)] for a one-character [c]. *)
Fixpoint str_count (c : ascii) (s : string) : nat :=
  match s with
  | EmptyString => O
  | String d r => ((if Ascii.eqb d c then 1 else 0) + str_count c r)%nat
  end.

(** A "{" of [s] is followed, somewhere after it, by a "}": [s] holds a
    pair of placeholder delimiters. *)
Fixpoint has_placeholder_pair (s : string) : bool :=
  match s with
  | EmptyString => false
  | String c r =>
      (Ascii.eqb c ch_lbrace && str_contains ch_rbrace r) || has_placeholder_pair r
  end.

(** ** Exceptions and results *)

Inductive exn :=
| DatasetError (msg : string)
| DatasetNotFoundError (msg : string)
| DatasetAlreadyExistsError (msg : string)
| KeyError (msg : string)
| AttributeError (msg : string)
| ValueError (msg : string)
| TypeError (msg : string)
(* Not an exception of the program: the model does not say what the
   program does at this point (a format field outside the modelled
   fragment, a reference to no object of the expected class). *)
| Unmodelled (what : string).

Inductive res (A : Type) :=
| Ret (a : A)
| Raise (e : exn).
Arguments Ret {A} a.
Arguments Raise {A} e.

(** ** Python dictionaries with string keys *)

Section Dict.
Context {V : Type}.

Fixpoint dict_get (k : string) (d : list (string * V)) : option V :=
  match d with
  | [] => None
  | (k', v) :: r => if String.eqb k' k then Some v else dict_get k r
  end.

Definition dict_mem (k : string) (d : list (string * V)) : bool :=
  match dict_get k d with Some _ => true | None => false end.

(** [d[k] = v]: an existing key keeps its position, a new key goes last. *)
Fixpoint dict_set (k : string) (v : V) (d : list (string * V)) : list (string * V) :=
  match d with
  | [] => [(k, v)]
  | (k', v') :: r =>
      if String.eqb k' k then (k', v) :: r else (k', v') :: dict_set k v r
  end.

(** [del d[k]] for a key that is present; no change otherwise. *)
Fixpoint dict_del (k : string) (d : list (string * V)) : list (string * V) :=
  match d with
  | [] => []
  | (k', v') :: r => if String.eqb k' k then r else (k', v') :: dict_del k r
  end.

(** [d.update(other)]. *)
Definition dict_update (d other : list (string * V)) : list (string * V) :=
  fold_left (fun acc kv => dict_set (fst kv) (snd kv) acc) other d.

(** A dict display or comprehension evaluated from its items in order. *)
Definition dict_of_items (items : list (string * V)) : list (string * V) :=
  dict_update [] items.

Definition dict_keys (d : list (string * V)) : list string := map fst d.
End Dict.

(** ** Configuration values

    What a parsed configuration file holds: scalars, sequences and
    mappings with string keys.  Floats are left out. *)

#[warnings="-register-all"]
Inductive value :=
| VNone
| VBool (b : bool)
| VInt (z : Z)
| VStr (s : string)
| VList (xs : list value)
| VDict (items : list (string * value)).

Definition config := list (string * value).

(** ** [_specificity]

    [re.sub(r"\{.*?\}", "", pattern)]: scanning from the left, a "{" that
    is followed, before any newline, by a "}" is removed together with
    everything up to and including the nearest such "}"; every other
    character is kept. *)

(** The nearest "}" of [s] comes before any newline. *)
Fixpoint closes_before_newline (s : string) : bool :=
  match s with
  | EmptyString => false
  | String c r =>
      if Ascii.eqb c ch_rbrace then true
      else if Ascii.eqb c ch_newline then false
      else closes_before_newline r
  end.

Fixpoint strip_placeholders (inside : bool) (s : string) : string :=
  match s with
  | EmptyString => EmptyString
  | String c r =>
      if inside then
        (if Ascii.eqb c ch_rbrace then strip_placeholders false r
         else strip_placeholders true r)
      else if Ascii.eqb c ch_lbrace && closes_before_newline r then
        strip_placeholders true r
      else String c (strip_placeholders false r)
  end.

Definition _specificity (pattern : string) : Z :=
  Z.of_nat (String.length (strip_placeholders false pattern)).

(** ** The ordering of patterns ([DataCatalog.__init__])

    [sorted(keys, key=lambda pattern: (-(_specificity(pattern)),
    -pattern.count("{"), pattern))]. *)

Definition sort_key (pattern : string) : Z * Z * string :=
  (- _specificity pattern, - Z.of_nat (str_count ch_lbrace pattern), pattern).

(** [a < b] on the key tuples. *)
Definition key_lt (a b : Z * Z * string) : bool :=
  match a, b with
  | (a1, a2, a3), (b1, b2, b3) =>
      if a1 =? b1 then
        if a2 =? b2 then String.ltb a3 b3 else a2 <? b2
      else a1 <? b1
  end.

(** [sorted] is stable: an element goes after the elements already placed
    whose key is smaller, and before the others. *)
Fixpoint sorted_insert (p : string) (l : list string) : list string :=
  match l with
  | [] => [p]
  | q :: r =>
      if key_lt (sort_key q) (sort_key p) then q :: sorted_insert p r
      else p :: q :: r
  end.

Fixpoint sorted_by_key (l : list string) : list string :=
  match l with
  | [] => []
  | p :: r => sorted_insert p (sorted_by_key r)
  end.

Definition sort_patterns (keys : list string) : list string := sorted_by_key keys.

(** *** The precedence that the sort key gives *)

(** [p] may stand before [q] in the sorted list. *)
Definition precedes (p q : string) : Prop :=
  _specificity q < _specificity p
  \/ (_specificity p = _specificity q
      /\ ((str_count ch_lbrace q < str_count ch_lbrace p)%nat
          \/ (str_count ch_lbrace p = str_count ch_lbrace q
              /\ String.leb p q = true))).

(** The order that would put the patterns with fewer placeholders first. *)
Definition precedes_fewer_first (p q : string) : Prop :=
  _specificity q < _specificity p
  \/ (_specificity p = _specificity q
      /\ ((str_count ch_lbrace p < str_count ch_lbrace q)%nat
          \/ (str_count ch_lbrace p = str_count ch_lbrace q
              /\ String.leb p q = true))).

(** ** [_sub_nonword_chars]

    [re.sub(r"\W+", "__", name)]: every maximal run of non-word
    characters becomes two underscores.  A word character is an
    alphanumeric character or the underscore. *)

Definition in_range (lo hi : nat) (c : ascii) : bool :=
  let n := nat_of_ascii c in (lo <=? n)%nat && (n <=? hi)%nat.

Definition is_word_char (c : ascii) : bool :=
  in_range 48 57 c || in_range 65 90 c || in_range 97 122 c
  || Ascii.eqb c ch_underscore
  (* the alphanumeric characters of U+0080 .. U+00FF *)
  || in_range 170 170 c || in_range 178 179 c || in_range 181 181 c
  || in_range 185 186 c || in_range 188 190 c || in_range 192 214 c
  || in_range 216 246 c || in_range 248 255 c.

Fixpoint sub_nonword_run (in_run : bool) (s : string) : string :=
  match s with
  | EmptyString => EmptyString
  | String c r =>
      if is_word_char c then String c (sub_nonword_run false r)
      else if in_run then sub_nonword_run true r
      else String ch_underscore (String ch_underscore (sub_nonword_run true r))
  end.

Definition _sub_nonword_chars (data_set_name : string) : string :=
  sub_nonword_run false data_set_name.

(** ** [repr] and [str] of configuration values *)

Definition is_printable (c : ascii) : bool :=
  let n := nat_of_ascii c in
  (32 <=? n)%nat && negb (n =? 127)%nat
  && negb ((128 <=? n)%nat && (n <=? 160)%nat) && negb (n =? 173)%nat.

Definition hex_digit (n : nat) : ascii :=
  if (n <? 10)%nat then ascii_of_nat (48 + n) else ascii_of_nat (87 + n).

Definition repr_char (quote c : ascii) : string :=
  if Ascii.eqb c quote || Ascii.eqb c ch_backslash then String ch_backslash (String c EmptyString)
  else if Ascii.eqb c ch_tab then String ch_backslash "t"
  else if Ascii.eqb c ch_newline then String ch_backslash "n"
  else if Ascii.eqb c ch_return then String ch_backslash "r"
  else if is_printable c then String c EmptyString
  else let n := nat_of_ascii c in
       String ch_backslash
         (String "x" (String (hex_digit (n / 16)) (String (hex_digit (n mod 16)) EmptyString))).

Fixpoint repr_chars (quote : ascii) (s : string) : string :=
  match s with
  | EmptyString => EmptyString
  | String c r => repr_char quote c +:+ repr_chars quote r
  end.

Definition repr_str (s : string) : string :=
  let quote :=
    if str_contains ch_quote s && negb (str_contains ch_dquote s)
    then ch_dquote else ch_quote in
  String quote (repr_chars quote s +:+ String quote EmptyString).

Definition repr_int (z : Z) : string := NilZero.string_of_int (Z.to_int z).

Fixpoint py_repr (v : value) : string :=
  match v with
  | VNone => "None"
  | VBool true => "True"
  | VBool false => "False"
  | VInt z => repr_int z
  | VStr s => repr_str s
  | VList xs => "[" +:+ String.concat ", " (map py_repr xs) +:+ "]"
  | VDict items =>
      "{" +:+ String.concat ", "
                (map (fun kv => repr_str (fst kv) +:+ ": " +:+ py_repr (snd kv)) items)
          +:+ "}"
  end.

Definition py_str (v : value) : string :=
  match v with
  | VStr s => s
  | _ => py_repr v
  end.

(** ** [str.format_map]

    The fragment that templates use: literal text, the escapes "{{" and
    "}}", and replacement fields "{name}" whose name is looked up in the
    mapping.  A field that uses a conversion ("!"), a format
    specification (":"), an attribute (".") or an index ("[") is
    reported as [FmtOutside]: what Python does with it is not modelled. *)

Inductive fmt_result :=
| FmtOk (s : string)
| FmtKeyError (key : string)
| FmtValueError (msg : string)
| FmtOutside.

Definition fmt_cons (c : ascii) (r : fmt_result) : fmt_result :=
  match r with FmtOk s => FmtOk (String c s) | _ => r end.

Definition fmt_app (p : string) (r : fmt_result) : fmt_result :=
  match r with FmtOk s => FmtOk (p +:+ s) | _ => r end.

Fixpoint all_digits (s : string) : bool :=
  match s with
  | EmptyString => true
  | String c r => in_range 48 57 c && all_digits r
  end.

(** The number that a string of decimal digits writes. *)
Fixpoint digits_value (acc : Z) (s : string) : Z :=
  match s with
  | EmptyString => acc
  | String c r => digits_value (10 * acc + Z.of_nat (nat_of_ascii c - 48)) r
  end.

(** A field whose name is empty or a number is positional, which
    [format_map] refuses; a number above [PY_SSIZE_T_MAX] (2^63 - 1) is
    refused before that, when the name is read. *)
Definition positional_field_error (digits : string) : string :=
  if digits_value 0 digits >? 9223372036854775807
  then "Too many decimal digits in format string"
  else "Format string contains positional fields".

(** [field = Some acc]: inside a replacement field whose name so far is
    [acc]; [field = None]: in literal text. *)
Fixpoint format_scan (named : list (string * string)) (field : option string)
    (s : string) : fmt_result :=
  match field, s with
  | None, EmptyString => FmtOk EmptyString
  | None, String c r =>
      if Ascii.eqb c ch_lbrace then
        match r with
        | EmptyString => FmtValueError "Single '{' encountered in format string"
        | String c' r' =>
            if Ascii.eqb c' ch_lbrace then fmt_cons ch_lbrace (format_scan named None r')
            else format_scan named (Some EmptyString) r
        end
      else if Ascii.eqb c ch_rbrace then
        match r with
        | EmptyString => FmtValueError "Single '}' encountered in format string"
        | String c' r' =>
            if Ascii.eqb c' ch_rbrace then fmt_cons ch_rbrace (format_scan named None r')
            else FmtValueError "Single '}' encountered in format string"
        end
      else fmt_cons c (format_scan named None r)
  | Some acc, EmptyString => FmtValueError "expected '}' before end of string"
  | Some acc, String c r =>
      if Ascii.eqb c ch_rbrace then
        if all_digits acc then FmtValueError (positional_field_error acc)
        else match dict_get acc named with
             | None => FmtKeyError acc
             | Some x => fmt_app x (format_scan named None r)
             end
      else if Ascii.eqb c ch_lbrace then FmtValueError "unexpected '{' in field name"
      else if Ascii.eqb c ch_lbracket || Ascii.eqb c ch_dot
              || Ascii.eqb c ch_bang || Ascii.eqb c ch_colon then FmtOutside
      else format_scan named (Some (acc +:+ String c EmptyString)) r
  end.

Definition format_map (s : string) (named : list (string * string)) : fmt_result :=
  format_scan named None s.

(** *** Templates

    A template string read as literal text and fields [{key}]. *)




(** Text with no brace in it. *)
Fixpoint plain_text (s : string) : bool :=
  match s with
  | EmptyString => true
  | String c r =>
      negb (Ascii.eqb c ch_lbrace) && negb (Ascii.eqb c ch_rbrace) && plain_text r
  end.




(** ** Credentials *)

Definition CREDENTIALS_KEY : string := "credentials".

Definition credentials_message (credentials_name : string) : string :=
  "Unable to find credentials '" +:+ credentials_name
  +:+ "': check your data catalog and credentials configuration. See "
  +:+ "https://kedro.readthedocs.io/en/stable/kedro.io.DataCatalog.html "
  +:+ "for an example.".

Definition _get_credentials (credentials_name : string) (credentials : config)
    : res value :=
  match dict_get credentials_name credentials with
  | Some c => Ret c
  | None => Raise (KeyError (credentials_message credentials_name))
  end.

(** The dict comprehension [{k: f(k, v) for k, v in d.items()}] with an
    [f] that may raise: the first exception ends the evaluation. *)
Section MapItems.
Context (f : string -> value -> res value).
Fixpoint map_items (d : config) : res config :=
  match d with
  | [] => Ret []
  | kv :: r =>
      match f (fst kv) (snd kv) with
      | Raise e => Raise e
      | Ret v' =>
          match map_items r with
          | Raise e => Raise e
          | Ret r' => Ret ((fst kv, v') :: r')
          end
      end
  end.
End MapItems.

Fixpoint _map_value (credentials : config) (key : string) (v : value) : res value :=
  match v with
  | VStr s =>
      if String.eqb key CREDENTIALS_KEY then _get_credentials s credentials
      else Ret v
  | VDict items =>
      match (fix items_go (d : config) : res config :=
               match d with
               | [] => Ret []
               | kv :: r =>
                   match _map_value credentials (fst kv) (snd kv) with
                   | Raise e => Raise e
                   | Ret v' =>
                       match items_go r with
                       | Raise e => Raise e
                       | Ret r' => Ret ((fst kv, v') :: r')
                       end
                   end
               end) items with
      | Raise e => Raise e
      | Ret items' => Ret (VDict items')
      end
  | _ => Ret v
  end.

(** [copy.deepcopy] of a configuration value is the value itself. *)
Definition deepcopy {A : Type} (x : A) : A := x.

Definition _resolve_credentials (cfg : config) (credentials : config) : res config :=
  let cfg := deepcopy cfg in
  map_items (_map_value credentials) cfg.

(** *** Reading a configuration by paths of keys *)

(** The value reached from [v] through the mappings, by the keys of
    [path] in turn. *)
Fixpoint get_path (path : list string) (v : value) : option value :=
  match path with
  | [] => Some v
  | k :: r =>
      match v with
      | VDict items =>
          match dict_get k items with
          | Some x => get_path r x
          | None => None
          end
      | _ => None
      end
  end.

(** The credential references below [v], a value held under [key]: the
    strings held under the credentials key in [v] and in the mappings
    nested in it, in the order of the walk. *)
Fixpoint credential_refs (key : string) (v : value) : list string :=
  match v with
  | VStr s => if String.eqb key CREDENTIALS_KEY then [s] else []
  | VDict items =>
      flat_map (fun kv => credential_refs (fst kv) (snd kv)) items
  | _ => []
  end.

Definition config_refs (cfg : config) : list string :=
  flat_map (fun kv => credential_refs (fst kv) (snd kv)) cfg.

(** The first reference that the credentials table does not hold. *)
Definition first_unresolved (credentials : config) (refs : list string)
    : option string :=
  List.find (fun s => negb (dict_mem s credentials)) refs.

(** What the walk does to the value at the end of a path. *)
Definition resolved_at (credentials : config) (k : string) (x : value)
    (x' : option value) : Prop :=
  match x with
  | VStr s =>
      if String.eqb k CREDENTIALS_KEY
      then x' = dict_get s credentials /\ dict_mem s credentials = true
      else x' = Some x
  | VDict _ => exists items', x' = Some (VDict items')
  | _ => x' = Some x
  end.

(** ** Template substitution ([DataCatalog._resolve_dataset], the loop) *)

(** [isinstance(value, Iterable)]. *)
Definition is_iterable (v : value) : bool :=
  match v with
  | VStr _ | VList _ | VDict _ => true
  | _ => false
  end.

(** ["}" in value] for an iterable [value]: a substring test on a
    string, a membership test on a list, a key test on a dict. *)
Definition contains_rbrace (v : value) : bool :=
  match v with
  | VStr s => str_contains ch_rbrace s
  | VList xs =>
      existsb (fun x => match x with VStr s => String.eqb s "}" | _ => false end) xs
  | VDict items => dict_mem "}" items
  | _ => false
  end.

Definition unable_to_resolve (key matched_pattern : string) : string :=
  "Unable to resolve '" +:+ key +:+ "' for the pattern '" +:+ matched_pattern +:+ "'".

(** One turn of the loop: the new value of the field [key].  [named] is
    [result.named], or [None] when [parse] returned [None]. *)
Definition resolve_field (matched_pattern : string)
    (named : option (list (string * string))) (key : string) (v : value)
    : res value :=
  if is_iterable v && contains_rbrace v then
    let string_value := py_str v in
    match named with
    | None => Raise (AttributeError "'NoneType' object has no attribute 'named'")
    | Some captures =>
        match format_map string_value captures with
        | FmtOk s => Ret (VStr s)
        | FmtKeyError _ => Raise (DatasetError (unable_to_resolve key matched_pattern))
        | FmtValueError msg => Raise (ValueError msg)
        | FmtOutside => Raise (Unmodelled "format_map")
        end
    end
  else Ret v.

Definition resolve_template (matched_pattern : string)
    (named : option (list (string * string))) (template_copy : config)
    : res config :=
  map_items (resolve_field matched_pattern named) template_copy.

(** ** [sorted] on strings, and [", ".join] *)

Fixpoint str_insert (x : string) (l : list string) : list string :=
  match l with
  | [] => [x]
  | y :: r => if String.ltb y x then y :: str_insert x r else x :: y :: r
  end.

Definition sorted_strings (l : list string) : list string :=
  foldr str_insert [] l.

Definition join_comma (l : list string) : string := String.concat ", " l.

(** ** Layers ([from_config])

    [layers] is a [defaultdict(set)] keyed by the popped "layer" value. *)

(** Equality of two hashable scalars as dict keys. *)
Definition key_eqb (a b : value) : bool :=
  match a, b with
  | VStr x, VStr y => String.eqb x y
  | VInt x, VInt y => Z.eqb x y
  | VBool x, VBool y => Bool.eqb x y
  | VBool x, VInt y | VInt y, VBool x => Z.eqb (if x then 1 else 0) y
  | VNone, VNone => true
  | _, _ => false
  end.

Definition set_add (x : string) (s : list string) : list string :=
  if existsb (String.eqb x) s then s else s ++ [x].

(** [layers[ds_layer].add(ds_name)]. *)
Fixpoint layers_add (ds_layer : value) (ds_name : string)
    (layers : list (value * list string)) : list (value * list string) :=
  match layers with
  | [] => [(ds_layer, [ds_name])]
  | (k, names) :: r =>
      if key_eqb k ds_layer then (k, set_add ds_name names) :: r
      else (k, names) :: layers_add ds_layer ds_name r
  end.

Definition is_hashable (v : value) : bool :=
  match v with
  | VList _ | VDict _ => false
  | _ => true
  end.

(** ** The collaborators of the registry

    What [data_catalog.py] imports and calls but does not define: the
    Dataset Capability of [kedro.io.core] and [kedro.io.memory_dataset],
    [parse.parse] and [difflib.get_close_matches]. *)

(** A reference to an object of the store. *)
Abbreviation loc := nat (only parsing).

(** [Version(load, save)]. *)
Definition Version : Type := option string * option string.

Class Collaborators := {
  (** The state of a dataset instance, and the data it loads and saves. *)
  Dataset : Type;
  Data : Type;
  (** [AbstractDataSet.from_config(name, config, load_version,
      save_version)]: a new instance, or [DatasetError] with a message. *)
  AbstractDataSet_from_config :
    string -> config -> option string -> option string -> string + Dataset;
  (** [isinstance(data_set, AbstractVersionedDataSet)]. *)
  is_versioned : Dataset -> bool;
  (** [data_set._copy(_version=version)]. *)
  ds_copy : Dataset -> Version -> Dataset;
  (** The methods of an instance: a result and the instance afterwards. *)
  ds_load : Dataset -> res Data * Dataset;
  ds_save : Dataset -> Data -> res unit * Dataset;
  ds_exists : Dataset -> res bool * Dataset;
  ds_release : Dataset -> res unit * Dataset;
  (** [None] when the instance has no attribute [confirm]. *)
  ds_confirm : Dataset -> option (res unit * Dataset);
  (** [MemoryDataset(data=data)]. *)
  MemoryDataset : Data -> Dataset;
  (** [parse(pattern, name)]: [result.named], or [None]. *)
  parse : string -> string -> option (list (string * string));
  get_close_matches : string -> list string -> list string
}.

Section Registry.
Context {C : Collaborators}.

(** *** The object store *)

(** The fields of a [DataCatalog] object. *)
Record Catalog := {
  _data_sets : loc;
  datasets : loc;
  layers : option loc;
  dataset_patterns : loc;
  _sorted_dataset_patterns : list string;
  _pattern_matches_cache : loc
}.

Inductive obj :=
| ODatasets (d : list (string * loc))          (* a dict of name: instance *)
| OPatterns (d : list (string * config))       (* a dict of pattern: template *)
| OLayers (d : list (value * list string))     (* a dict of layer: names *)
| OCache (d : list (string * string))          (* a dict of name: pattern *)
| OFrozen (d : list (string * loc))            (* a _FrozenDatasets, by its __dict__ *)
| OCatalog (c : Catalog)
| OInstance (d : Dataset).

(** [parse_calls] is a ghost counter of the calls of [parse]. *)
Record Store := {
  heap : list obj;
  parse_calls : nat
}.

Definition M (A : Type) : Type := Store -> res A * Store.

Definition ret {A} (a : A) : M A := fun st => (Ret a, st).
Definition raise {A} (e : exn) : M A := fun st => (Raise e, st).
Definition bind {A B} (m : M A) (f : A -> M B) : M B :=
  fun st =>
    match m st with
    | (Ret a, st') => f a st'
    | (Raise e, st') => (Raise e, st')
    end.

(** [try: m except E: h] where [handler e] is [Some h] when [e] is an [E]. *)
Definition try_except {A} (m : M A) (handler : exn -> option (M A)) : M A :=
  fun st =>
    match m st with
    | (Ret a, st') => (Ret a, st')
    | (Raise e, st') =>
        match handler e with
        | Some h => h st'
        | None => (Raise e, st')
        end
    end.

Definition lift {A} (r : res A) : M A := fun st => (r, st).

Definition alloc (o : obj) : M loc :=
  fun st => (Ret (length (heap st)),
             {| heap := heap st ++ [o]; parse_calls := parse_calls st |}).

Definition store (l : loc) (o : obj) : M unit :=
  fun st => (Ret tt, {| heap := <[l := o]> (heap st); parse_calls := parse_calls st |}).

Definition tick_parse (n : nat) : M unit :=
  fun st => (Ret tt, {| heap := heap st; parse_calls := (parse_calls st + n)%nat |}).

Definition bad_reference {A} : M A := raise (Unmodelled "reference").

Definition get_catalog (l : loc) : M Catalog :=
  fun st => match heap st !! l with
            | Some (OCatalog c) => (Ret c, st)
            | _ => bad_reference st
            end.
Definition get_datasets (l : loc) : M (list (string * loc)) :=
  fun st => match heap st !! l with
            | Some (ODatasets d) => (Ret d, st)
            | _ => bad_reference st
            end.
Definition get_patterns (l : loc) : M (list (string * config)) :=
  fun st => match heap st !! l with
            | Some (OPatterns d) => (Ret d, st)
            | _ => bad_reference st
            end.
Definition get_cache (l : loc) : M (list (string * string)) :=
  fun st => match heap st !! l with
            | Some (OCache d) => (Ret d, st)
            | _ => bad_reference st
            end.
Definition get_frozen (l : loc) : M (list (string * loc)) :=
  fun st => match heap st !! l with
            | Some (OFrozen d) => (Ret d, st)
            | _ => bad_reference st
            end.
Definition get_instance (l : loc) : M Dataset :=
  fun st => match heap st !! l with
            | Some (OInstance d) => (Ret d, st)
            | _ => bad_reference st
            end.
End Registry.

Notation "x <- m ;; k" := (bind m (fun x => k))
  (at level 100, m at next level, right associativity).
Notation "m ;;; k" := (bind m (fun _ => k))
  (at level 100, right associativity).

Section Methods.
Context {C : Collaborators}.

(** [d[k] = v] on the dict object at [l]. *)
Definition datasets_setitem (l : loc) (k : string) (v : loc) : M unit :=
  d <- get_datasets l ;; store l (ODatasets (dict_set k v d)).

Definition cache_setitem (l : loc) (k : string) (v : string) : M unit :=
  d <- get_cache l ;; store l (OCache (dict_set k v d)).

(** The catalog [c] with its attribute [datasets] set to [view]. *)
Definition with_view (c : Catalog) (view : loc) : Catalog :=
  {| _data_sets := _data_sets c;
     datasets := view;
     layers := layers c;
     dataset_patterns := dataset_patterns c;
     _sorted_dataset_patterns := _sorted_dataset_patterns c;
     _pattern_matches_cache := _pattern_matches_cache c |}.

(** [self.datasets = view]. *)
Definition set_datasets_attr (self : loc) (view : loc) : M unit :=
  c <- get_catalog self ;;
  store self (OCatalog (with_view c view)).

(** A method of the instance at [l]. *)
Definition call_method {A} (l : loc) (f : Dataset -> res A * Dataset) : M A :=
  d <- get_instance l ;;
  store l (OInstance (snd (f d))) ;;;
  lift (fst (f d)).

(** *** [_FrozenDatasets] *)

(** An argument of [_FrozenDatasets(...)]: another view, or a dict,
    which is only read and is passed by its items. *)
Inductive collection :=
| ColFrozen (view : loc)
| ColDict (items : list (string * loc)).

Definition normalised (items : list (string * loc)) : list (string * loc) :=
  dict_of_items (map (fun kv => (_sub_nonword_chars (fst kv), snd kv)) items).

(** The loop of [__init__] over the collections, on [self.__dict__]. *)
Fixpoint frozen_collect (cols : list collection) (acc : list (string * loc))
    : M (list (string * loc)) :=
  match cols with
  | [] => ret acc
  | ColFrozen view :: r =>
      d <- get_frozen view ;; frozen_collect r (dict_update acc d)
  | ColDict items :: r =>
      frozen_collect r (dict_update acc (normalised items))
  end.

Definition FrozenDatasets_init (cols : list collection) : M loc :=
  d <- frozen_collect cols [] ;; alloc (OFrozen d).

(** [_FrozenDatasets.__setattr__(self, key, value)]. *)
Definition FrozenDatasets_setattr (self : loc) (key : string) (value : loc) : M unit :=
  d <- get_frozen self ;;
  let msg := "Operation not allowed! " in
  let msg := if dict_mem key d
             then msg +:+ "Please change datasets through configuration."
             else msg +:+ "Please use DataCatalog.add() instead." in
  raise (AttributeError msg).

(** [del view.key]: the class defines no [__delattr__], so this is
    [object.__delattr__].  The names [__dict__], [__class__] and
    [__weakref__] are data descriptors of the class. *)
Definition FrozenDatasets_delattr (self : loc) (key : string) : M unit :=
  d <- get_frozen self ;;
  if String.eqb key "__dict__" then store self (OFrozen [])
  else if String.eqb key "__class__" then
    raise (TypeError "can't delete __class__ attribute")
  else if String.eqb key "__weakref__" then
    raise (AttributeError "attribute '__weakref__' of '_FrozenDatasets' objects is not writable")
  else if dict_mem key d then store self (OFrozen (dict_del key d))
  else raise (AttributeError
                ("'_FrozenDatasets' object has no attribute '" +:+ key +:+ "'")).
End Methods.

(** ** [DataCatalog] *)

(** A value of a feed dict: a dataset instance, or any other data. *)
Inductive feed_value {C : Collaborators} :=
| FeedDataset (ds : loc)
| FeedData (data : Data).

Section DataCatalog.
Context {C : Collaborators}.

Definition already_registered (data_set_name : string) : string :=
  "Dataset '" +:+ data_set_name +:+ "' has already been registered".

(** [DataCatalog.add].  Logging is left out. *)
Definition add (self : loc) (data_set_name : string) (data_set : loc)
    (replace : bool) : M unit :=
  c <- get_catalog self ;;
  d <- get_datasets (_data_sets c) ;;
  (if dict_mem data_set_name d then
     if replace then ret tt
     else raise (DatasetAlreadyExistsError (already_registered data_set_name))
   else ret tt) ;;;
  datasets_setitem (_data_sets c) data_set_name data_set ;;;
  view <- FrozenDatasets_init [ColFrozen (datasets c); ColDict [(data_set_name, data_set)]] ;;
  set_datasets_attr self view.

(** [DataCatalog.add_all]; [data_sets] is read only and passed by its items. *)
Fixpoint add_all (self : loc) (data_sets : list (string * loc)) (replace : bool)
    : M unit :=
  match data_sets with
  | [] => ret tt
  | (name, data_set) :: r =>
      add self name data_set replace ;;; add_all self r replace
  end.

(** [DataCatalog.add_feed_dict]. *)
Fixpoint add_feed_dict (self : loc) (feed_dict : list (string * feed_value))
    (replace : bool) : M unit :=
  match feed_dict with
  | [] => ret tt
  | (data_set_name, v) :: r =>
      data_set <- match v with
                  | FeedDataset ds => ret ds
                  | FeedData data => alloc (OInstance (MemoryDataset data))
                  end ;;
      add self data_set_name data_set replace ;;;
      add_feed_dict self r replace
  end.

(** [DataCatalog.__init__]; the result is the new object. *)
Definition DataCatalog_init (data_sets : option loc)
    (feed_dict : option (list (string * feed_value)))
    (layers_arg : option loc) (dataset_patterns_arg : option loc) : M loc :=
  (* self._data_sets = dict(data_sets or {}) *)
  items <- match data_sets with
           | Some l => get_datasets l
           | None => ret []
           end ;;
  ds <- alloc (ODatasets items) ;;
  (* self.datasets = _FrozenDatasets(self._data_sets) *)
  view <- FrozenDatasets_init [ColDict items] ;;
  (* self.dataset_patterns = dict(dataset_patterns or {}) *)
  pats <- match dataset_patterns_arg with
          | Some l => get_patterns l
          | None => ret []
          end ;;
  patterns <- alloc (OPatterns pats) ;;
  let sorted_patterns := sort_patterns (dict_keys pats) in
  cache <- alloc (OCache []) ;;
  self <- alloc (OCatalog {| _data_sets := ds;
                             datasets := view;
                             layers := layers_arg;
                             dataset_patterns := patterns;
                             _sorted_dataset_patterns := sorted_patterns;
                             _pattern_matches_cache := cache |}) ;;
  match feed_dict with
  | Some (kv :: r) => add_feed_dict self (kv :: r) false
  | _ => ret tt
  end ;;;
  ret self.

(** The loop of [match_name_against_patterns]: the first pattern that
    parses the name, and the number of calls of [parse]. *)
Fixpoint first_match (dataset_name : string) (patterns : list string)
    : option string * nat :=
  match patterns with
  | [] => (None, O)
  | pattern :: r =>
      match parse pattern dataset_name with
      | Some _ => (Some pattern, 1%nat)
      | None => let (m, n) := first_match dataset_name r in (m, S n)
      end
  end.

(** [DataCatalog.match_name_against_patterns]. *)
Definition match_name_against_patterns (self : loc) (dataset_name : string)
    : M (option string) :=
  c <- get_catalog self ;;
  let (m, n) := first_match dataset_name (_sorted_dataset_patterns c) in
  tick_parse n ;;; ret m.

(** [DataCatalog.exists_in_catalog_config]. *)
Definition exists_in_catalog_config (self : loc) (dataset_name : string) : M bool :=
  c <- get_catalog self ;;
  d <- get_datasets (_data_sets c) ;;
  cache <- get_cache (_pattern_matches_cache c) ;;
  if dict_mem dataset_name d || dict_mem dataset_name cache then ret true
  else
    matched_pattern <- match_name_against_patterns self dataset_name ;;
    match matched_pattern with
    | Some (String a p) =>
        cache_setitem (_pattern_matches_cache c) dataset_name (String a p) ;;;
        ret true
    | _ => ret false
    end.

(** [DataCatalog._resolve_dataset]. *)
Definition _resolve_dataset (self : loc) (dataset_name matched_pattern : string)
    : M loc :=
  tick_parse 1 ;;;
  let result := parse matched_pattern dataset_name in
  c <- get_catalog self ;;
  pats <- get_patterns (dataset_patterns c) ;;
  template <- match dict_get matched_pattern pats with
              | Some t => ret t
              | None => raise (KeyError matched_pattern)
              end ;;
  let template_copy := deepcopy template in
  template_copy <- lift (resolve_template matched_pattern result template_copy) ;;
  match AbstractDataSet_from_config dataset_name template_copy None None with
  | inl msg => raise (DatasetError msg)
  | inr ds => alloc (OInstance ds)
  end.

Definition not_found_message (data_set_name : string) (suggest : bool)
    (names : list string) : string :=
  let error_msg := "DataSet '" +:+ data_set_name +:+ "' not found in the catalog" in
  if suggest then
    match get_close_matches data_set_name names with
    | [] => error_msg
    | matches =>
        error_msg +:+ " - did you mean one of these instead: " +:+ join_comma matches
    end
  else error_msg.

(** [DataCatalog._get_dataset]. *)
Definition _get_dataset (self : loc) (data_set_name : string)
    (version : option Version) (suggest : bool) : M loc :=
  c <- get_catalog self ;;
  d <- get_datasets (_data_sets c) ;;
  (if dict_mem data_set_name d then ret tt
   else
     found <- exists_in_catalog_config self data_set_name ;;
     if found : bool then
       cache <- get_cache (_pattern_matches_cache c) ;;
       pattern <- match dict_get data_set_name cache with
                  | Some p => ret p
                  | None => raise (KeyError data_set_name)
                  end ;;
       matched_dataset <- _resolve_dataset self data_set_name pattern ;;
       add self data_set_name matched_dataset false
     else
       raise (DatasetNotFoundError
                (not_found_message data_set_name suggest (dict_keys d)))) ;;;
  d <- get_datasets (_data_sets c) ;;
  data_set <- match dict_get data_set_name d with
              | Some ds => ret ds
              | None => raise (KeyError data_set_name)
              end ;;
  match version with
  | Some v =>
      inst <- get_instance data_set ;;
      if is_versioned inst then alloc (OInstance (ds_copy inst v))
      else ret data_set
  | None => ret data_set
  end.

(** [Version(version, None) if version else None]. *)
Definition load_version_of (version : option string) : option Version :=
  match version with
  | Some (String a v) => Some (Some (String a v), None)
  | _ => None
  end.

(** [DataCatalog.load]. *)
Definition load (self : loc) (name : string) (version : option string) : M Data :=
  dataset <- _get_dataset self name (load_version_of version) true ;;
  call_method dataset ds_load.

(** [DataCatalog.save]. *)
Definition save (self : loc) (name : string) (data : Data) : M unit :=
  dataset <- _get_dataset self name None true ;;
  call_method dataset (fun d => ds_save d data).

(** [DataCatalog.exists]. *)
Definition DataCatalog_exists (self : loc) (name : string) : M bool :=
  r <- try_except
         (dataset <- _get_dataset self name None true ;; ret (Some dataset))
         (fun e => match e with
                   | DatasetNotFoundError _ => Some (ret None)
                   | _ => None
                   end) ;;
  match r with
  | None => ret false
  | Some dataset => call_method dataset ds_exists
  end.

(** [DataCatalog.release]. *)
Definition release (self : loc) (name : string) : M unit :=
  dataset <- _get_dataset self name None true ;;
  call_method dataset ds_release.

Definition no_confirm_message (name : string) : string :=
  "Dataset '" +:+ name +:+ "' does not have 'confirm' method".

(** [DataCatalog.confirm]. *)
Definition confirm (self : loc) (name : string) : M unit :=
  data_set <- _get_dataset self name None true ;;
  inst <- get_instance data_set ;;
  match ds_confirm inst with
  | Some (r, inst') => store data_set (OInstance inst') ;;; lift r
  | None => raise (DatasetError (no_confirm_message name))
  end.

(** [DataCatalog.shallow_copy]. *)
Definition shallow_copy (self : loc) : M loc :=
  c <- get_catalog self ;;
  DataCatalog_init (Some (_data_sets c)) None (layers c) (Some (dataset_patterns c)).

(** *** [DataCatalog.from_config] *)

Definition missing_keys_message (missing_keys : list string) : string :=
  "'load_versions' keys [" +:+ join_comma (sorted_strings missing_keys)
  +:+ "] are not found in the catalog.".

(** The three dicts that the loop fills: [data_sets],
    [dataset_patterns] and [layers]. *)
Record built := {
  b_data_sets : list (string * loc);
  b_patterns : list (string * config);
  b_layers : list (value * list string)
}.

Definition unhashable (v : value) : string :=
  match v with
  | VList _ => "unhashable type: 'list'"
  | _ => "unhashable type: 'dict'"
  end.

Fixpoint from_config_loop (catalog : list (string * config))
    (credentials : config) (load_versions : list (string * string))
    (save_version : string) (acc : built) : M built :=
  match catalog with
  | [] => ret acc
  | (ds_name, ds_config) :: r =>
      if str_contains ch_rbrace ds_name then
        from_config_loop r credentials load_versions save_version
          {| b_data_sets := b_data_sets acc;
             b_patterns := dict_set ds_name ds_config (b_patterns acc);
             b_layers := b_layers acc |}
      else
        (* ds_layer = ds_config.pop("layer", None) *)
        let ds_layer := dict_get "layer" ds_config in
        let ds_config := dict_del "layer" ds_config in
        layers' <- match ds_layer with
                   | None | Some VNone => ret (b_layers acc)
                   | Some v =>
                       if is_hashable v
                       then ret (layers_add v ds_name (b_layers acc))
                       else raise (TypeError (unhashable v))
                   end ;;
        ds_config <- lift (_resolve_credentials ds_config credentials) ;;
        match AbstractDataSet_from_config ds_name ds_config
                (dict_get ds_name load_versions) (Some save_version) with
        | inl msg => raise (DatasetError msg)
        | inr ds =>
            data_set <- alloc (OInstance ds) ;;
            from_config_loop r credentials load_versions save_version
              {| b_data_sets := dict_set ds_name data_set (b_data_sets acc);
                 b_patterns := b_patterns acc;
                 b_layers := layers' |}
        end
  end.

(** [save_version or generate_timestamp()]; [timestamp] is what
    [generate_timestamp()] returns at this call. *)
Definition shared_save_version (timestamp : string) (save_version : option string)
    : string :=
  match save_version with
  | Some (String a v) => String a v
  | _ => timestamp
  end.

Definition or_empty {A} (d : option (list A)) : list A :=
  match d with Some l => l | None => [] end.

(** The dicts [data_sets], [dataset_patterns] and [layers] become
    objects of the store when they are passed to the constructor. *)
Definition from_config (timestamp : string)
    (catalog : option (list (string * config)))
    (credentials : option config)
    (load_versions : option (list (string * string)))
    (save_version : option string) : M loc :=
  let catalog := or_empty (deepcopy catalog) in
  let credentials := or_empty (deepcopy credentials) in
  let save_version := shared_save_version timestamp save_version in
  let load_versions := or_empty (deepcopy load_versions) in
  let missing_keys :=
    List.filter (fun k => negb (dict_mem k catalog)) (dict_keys load_versions) in
  match missing_keys with
  | _ :: _ => raise (DatasetNotFoundError (missing_keys_message missing_keys))
  | [] =>
      b <- from_config_loop catalog credentials load_versions save_version
             {| b_data_sets := []; b_patterns := []; b_layers := [] |} ;;
      data_sets <- alloc (ODatasets (b_data_sets b)) ;;
      dataset_layers <- match b_layers b with
                        | [] => ret None
                        | l => x <- alloc (OLayers l) ;; ret (Some x)
                        end ;;
      dataset_patterns <- alloc (OPatterns (b_patterns b)) ;;
      DataCatalog_init (Some data_sets) None dataset_layers (Some dataset_patterns)
  end.

(** *** The calls a client can make *)

Inductive call :=
| CallFromConfig (timestamp : string) (catalog : option (list (string * config)))
    (credentials : option config) (load_versions : option (list (string * string)))
    (save_version : option string)
| CallInit (data_sets : option loc) (feed_dict : option (list (string * feed_value)))
    (layers_arg dataset_patterns_arg : option loc)
| CallLoad (self : loc) (name : string) (version : option string)
| CallSave (self : loc) (name : string) (data : Data)
| CallExists (self : loc) (name : string)
| CallRelease (self : loc) (name : string)
| CallConfirm (self : loc) (name : string)
| CallAdd (self : loc) (name : string) (data_set : loc) (replace : bool)
| CallAddAll (self : loc) (data_sets : list (string * loc)) (replace : bool)
| CallAddFeedDict (self : loc) (feed_dict : list (string * feed_value)) (replace : bool)
| CallExistsInCatalogConfig (self : loc) (name : string)
| CallMatchName (self : loc) (name : string)
| CallShallowCopy (self : loc)
| CallSetattr (view : loc) (key : string) (value : loc)
| CallDelattr (view : loc) (key : string)
(* an object made outside the registry: an instance, a dict to pass *)
| CallNew (o : obj).

Definition after {A} (m : M A) (st : Store) : Store := snd (m st).

Definition exec (c : call) (st : Store) : Store :=
  match c with
  | CallFromConfig t c cr lv sv => after (from_config t c cr lv sv) st
  | CallInit d f l p => after (DataCatalog_init d f l p) st
  | CallLoad self n v => after (load self n v) st
  | CallSave self n d => after (save self n d) st
  | CallExists self n => after (DataCatalog_exists self n) st
  | CallRelease self n => after (release self n) st
  | CallConfirm self n => after (confirm self n) st
  | CallAdd self n d r => after (add self n d r) st
  | CallAddAll self d r => after (add_all self d r) st
  | CallAddFeedDict self f r => after (add_feed_dict self f r) st
  | CallExistsInCatalogConfig self n => after (exists_in_catalog_config self n) st
  | CallMatchName self n => after (match_name_against_patterns self n) st
  | CallShallowCopy self => after (shallow_copy self) st
  | CallSetattr v k x => after (FrozenDatasets_setattr v k x) st
  | CallDelattr v k => after (FrozenDatasets_delattr v k) st
  | CallNew o => after (alloc o) st
  end.

Definition exec_all (cs : list call) (st : Store) : Store :=
  fold_left (fun st c => exec c st) cs st.

(** *** Reading a registry out of the store *)

(** The exact-name map of the catalog at [self]. *)
Definition exact_map (st : Store) (self : loc) : list (string * loc) :=
  match heap st !! self with
  | Some (OCatalog c) =>
      match heap st !! _data_sets c with
      | Some (ODatasets d) => d
      | _ => []
      end
  | _ => []
  end.

Definition match_cache (st : Store) (self : loc) : list (string * string) :=
  match heap st !! self with
  | Some (OCatalog c) =>
      match heap st !! _pattern_matches_cache c with
      | Some (OCache d) => d
      | _ => []
      end
  | _ => []
  end.

(** The contents of the view [self.datasets]. *)
Definition frozen_view (st : Store) (self : loc) : list (string * loc) :=
  match heap st !! self with
  | Some (OCatalog c) =>
      match heap st !! datasets c with
      | Some (OFrozen d) => d
      | _ => []
      end
  | _ => []
  end.

Definition pattern_table (st : Store) (self : loc) : list (string * config) :=
  match heap st !! self with
  | Some (OCatalog c) =>
      match heap st !! dataset_patterns c with
      | Some (OPatterns d) => d
      | _ => []
      end
  | _ => []
  end.

(** The registry at [self]: the catalog object [c], its exact-name map
    [d], its view [fv], its pattern table [pats] and its match cache
    [cache].  The view is a dict: its keys are distinct. *)
Definition registry_at (st : Store) (self : loc) (c : Catalog)
    (d fv : list (string * loc)) (pats : list (string * config))
    (cache : list (string * string)) : Prop :=
  heap st !! self = Some (OCatalog c)
  /\ heap st !! _data_sets c = Some (ODatasets d)
  /\ heap st !! datasets c = Some (OFrozen fv)
  /\ heap st !! dataset_patterns c = Some (OPatterns pats)
  /\ heap st !! _pattern_matches_cache c = Some (OCache cache)
  /\ NoDup (dict_keys fv).

(** The pattern that [exists_in_catalog_config] leaves in the cache for
    a name that is not registered, with the number of calls of [parse]
    and the cache afterwards; [None] when no pattern is found. *)
Definition pattern_for (cache : list (string * string)) (sorted : list string)
    (name : string) : option (string * nat * list (string * string)) :=
  match dict_get name cache with
  | Some p => Some (p, O, cache)
  | None =>
      match first_match name sorted with
      | (Some (String a p), n) =>
          Some (String a p, n, dict_set name (String a p) cache)
      | _ => None
      end
  end.

(** The store after the instance [ds] has been built for [name] and
    registered in the registry at [self]. *)
Definition materialized (st : Store) (self : loc) (c : Catalog)
    (d fv : list (string * loc)) (cache' : list (string * string))
    (name : string) (ds : Dataset) (ticks : nat) : Store :=
  let inst := length (heap st) in
  {| heap :=
       <[self := OCatalog (with_view c (S inst))]>
         ((<[_data_sets c := ODatasets (d ++ [(name, inst)])]>
             ((<[_pattern_matches_cache c := OCache cache']> (heap st))
              ++ [OInstance ds]))
          ++ [OFrozen (dict_set (_sub_nonword_chars name) inst fv)]);
     parse_calls := (parse_calls st + ticks + 1)%nat |}.

(** The outcome of [_get_dataset] for a name that is not registered. *)
Definition unregistered_outcome (st : Store) (self : loc) (c : Catalog)
    (d fv : list (string * loc)) (pats : list (string * config))
    (cache : list (string * string)) (name : string)
    (version : option Version) (suggest : bool) : res loc * Store :=
  match pattern_for cache (_sorted_dataset_patterns c) name with
  | None =>
      (Raise (DatasetNotFoundError (not_found_message name suggest (dict_keys d))),
       {| heap := heap st;
          parse_calls :=
            (parse_calls st
             + snd (first_match name (_sorted_dataset_patterns c)))%nat |})
  | Some (pattern, n, cache') =>
      let st1 :=
        {| heap := <[_pattern_matches_cache c := OCache cache']> (heap st);
           parse_calls := (parse_calls st + n + 1)%nat |} in
      match dict_get pattern pats with
      | None => (Raise (KeyError pattern), st1)
      | Some template =>
          match resolve_template pattern (parse pattern name) template with
          | Raise e => (Raise e, st1)
          | Ret cfg =>
              match AbstractDataSet_from_config name cfg None None with
              | inl msg => (Raise (DatasetError msg), st1)
              | inr ds =>
                  let st3 := materialized st self c d fv cache' name ds n in
                  match version with
                  | None => (Ret (length (heap st)), st3)
                  | Some v =>
                      if is_versioned ds
                      then alloc (OInstance (ds_copy ds v)) st3
                      else (Ret (length (heap st)), st3)
                  end
              end
          end
      end
  end.

(** The catalog object that [__init__] makes in a store whose heap has
    [n] objects, from the items [items] and the patterns [pats]. *)
Definition new_catalog (n : nat) (layers_arg : option loc)
    (pats : list (string * config)) : Catalog :=
  {| _data_sets := n;
     datasets := S n;
     layers := layers_arg;
     dataset_patterns := S (S n);
     _sorted_dataset_patterns := sort_patterns (dict_keys pats);
     _pattern_matches_cache := S (S (S n)) |}.

(** The objects that [__init__] allocates. *)
Definition new_registry (n : nat) (items : list (string * loc))
    (layers_arg : option loc) (pats : list (string * config)) : list obj :=
  [ODatasets items; OFrozen (normalised items); OPatterns pats; OCache [];
   OCatalog (new_catalog n layers_arg pats)].

(** *** How the store may change

    An object keeps its class; a dict of instances and a match cache
    keep their keys; a dict of patterns and a dict of layers keep
    their contents; a catalog keeps every field but [datasets]. *)
Definition obj_le (o o' : obj) : Prop :=
  match o, o' with
  | ODatasets d, ODatasets d' =>
      forall k, dict_mem k d = true -> dict_mem k d' = true
  | OPatterns d, OPatterns d' => d = d'
  | OLayers d, OLayers d' => d = d'
  | OCache d, OCache d' =>
      forall k, dict_mem k d = true -> dict_mem k d' = true
  | OFrozen _, OFrozen _ => True
  | OCatalog c, OCatalog c' =>
      _data_sets c = _data_sets c'
      /\ layers c = layers c'
      /\ dataset_patterns c = dataset_patterns c'
      /\ _sorted_dataset_patterns c = _sorted_dataset_patterns c'
      /\ _pattern_matches_cache c = _pattern_matches_cache c'
  | OInstance _, OInstance _ => True
  | _, _ => False
  end.

Definition store_le (st st' : Store) : Prop :=
  forall l o, heap st !! l = Some o ->
              exists o', heap st' !! l = Some o' /\ obj_le o o'.

(** Whatever the store, running [m] changes it only in these ways. *)
Definition monotone {A} (m : M A) : Prop :=
  forall st, store_le st (after m st).
End DataCatalog.

(** ** Credential resolution on an object graph

    The same [_resolve_credentials], with the dicts and lists of the
    configuration as mutable objects of a heap, so that what the call
    reads, allocates and writes is explicit.  [copy.deepcopy] copies
    every container it reaches (its memo of shared containers is left
    out); recursion is bounded by [fuel]; [None] is a run that ran out of
    fuel or met a reference to no object. *)

Module ObjectGraph.

Inductive ref_value :=
| RNone
| RBool (b : bool)
| RInt (z : Z)
| RStr (s : string)
| RRef (l : loc).

Inductive cell :=
| CList (xs : list ref_value)
| CDict (items : list (string * ref_value)).

(** The elements of a list, copied from left to right. *)
Fixpoint copy_elements (cp : ref_value -> list cell -> option (ref_value * list cell))
    (xs : list ref_value) (h : list cell) : option (list ref_value * list cell) :=
  match xs with
  | [] => Some ([], h)
  | x :: r =>
      match cp x h with
      | None => None
      | Some (x', h1) =>
          match copy_elements cp r h1 with
          | None => None
          | Some (r', h2) => Some (x' :: r', h2)
          end
      end
  end.

(** The items of a dict, copied from left to right. *)
Fixpoint copy_items (cp : ref_value -> list cell -> option (ref_value * list cell))
    (items : list (string * ref_value)) (h : list cell)
    : option (list (string * ref_value) * list cell) :=
  match items with
  | [] => Some ([], h)
  | kv :: r =>
      match cp (snd kv) h with
      | None => None
      | Some (x', h1) =>
          match copy_items cp r h1 with
          | None => None
          | Some (r', h2) => Some ((fst kv, x') :: r', h2)
          end
      end
  end.

(** [copy.deepcopy(v)]. *)
Fixpoint deepcopy_ref (fuel : nat) (v : ref_value) (h : list cell)
    : option (ref_value * list cell) :=
  match v with
  | RRef l =>
      match fuel with
      | O => None
      | S n =>
          match h !! l with
          | None => None
          | Some (CList xs) =>
              match copy_elements (deepcopy_ref n) xs h with
              | None => None
              | Some (xs', h') => Some (RRef (length h'), h' ++ [CList xs'])
              end
          | Some (CDict items) =>
              match copy_items (deepcopy_ref n) items h with
              | None => None
              | Some (items', h') => Some (RRef (length h'), h' ++ [CDict items'])
              end
          end
      end
  | _ => Some (v, h)
  end.

(** [{k: f(k, v) for k, v in d.items()}] with an [f] that may raise. *)
Fixpoint map_items_ref
    (f : string -> ref_value -> list cell -> option (res ref_value * list cell))
    (items : list (string * ref_value)) (h : list cell)
    : option (res (list (string * ref_value)) * list cell) :=
  match items with
  | [] => Some (Ret [], h)
  | kv :: r =>
      match f (fst kv) (snd kv) h with
      | None => None
      | Some (Raise e, h1) => Some (Raise e, h1)
      | Some (Ret x', h1) =>
          match map_items_ref f r h1 with
          | None => None
          | Some (Raise e, h2) => Some (Raise e, h2)
          | Some (Ret r', h2) => Some (Ret ((fst kv, x') :: r'), h2)
          end
      end
  end.

(** [_get_credentials], on the credentials dict at [credentials]. *)
Definition get_credentials_ref (credentials_name : string) (credentials : loc)
    (h : list cell) : option (res ref_value * list cell) :=
  match h !! credentials with
  | Some (CDict table) =>
      match dict_get credentials_name table with
      | Some c => Some (Ret c, h)
      | None => Some (Raise (KeyError (credentials_message credentials_name)), h)
      end
  | _ => None
  end.

(** [_map_value]. *)
Fixpoint map_value_ref (fuel : nat) (credentials : loc) (key : string)
    (v : ref_value) (h : list cell) : option (res ref_value * list cell) :=
  match v with
  | RStr s =>
      if String.eqb key CREDENTIALS_KEY then get_credentials_ref s credentials h
      else Some (Ret v, h)
  | RRef l =>
      match h !! l with
      | None => None
      | Some (CList _) => Some (Ret v, h)
      | Some (CDict items) =>
          match fuel with
          | O => None
          | S n =>
              match map_items_ref (map_value_ref n credentials) items h with
              | None => None
              | Some (Raise e, h') => Some (Raise e, h')
              | Some (Ret items', h') =>
                  Some (Ret (RRef (length h')), h' ++ [CDict items'])
              end
          end
      end
  | _ => Some (Ret v, h)
  end.

(** [_resolve_credentials(config, credentials)] for the dicts at
    [cfg] and [credentials]. *)
Definition resolve_credentials_ref (fuel : nat) (cfg credentials : loc)
    (h : list cell) : option (res loc * list cell) :=
  match deepcopy_ref fuel (RRef cfg) h with
  | Some (RRef cfg', h1) =>
      match h1 !! cfg' with
      | Some (CDict items) =>
          match map_items_ref (map_value_ref fuel credentials) items h1 with
          | None => None
          | Some (Raise e, h2) => Some (Raise e, h2)
          | Some (Ret items', h2) => Some (Ret (length h2), h2 ++ [CDict items'])
          end
      | _ => None
      end
  | _ => None
  end.

(** The value [v] of the heap [h] is the tree [t]. *)
Fixpoint represents (h : list cell) (t : value) (v : ref_value) : Prop :=
  match t with
  | VNone => v = RNone
  | VBool b => v = RBool b
  | VInt z => v = RInt z
  | VStr s => v = RStr s
  | VList ts =>
      exists l xs, v = RRef l /\ h !! l = Some (CList xs)
        /\ (fix all2 (ts : list value) (xs : list ref_value) : Prop :=
              match ts, xs with
              | [], [] => True
              | t' :: ts', x :: xs' => represents h t' x /\ all2 ts' xs'
              | _, _ => False
              end) ts xs
  | VDict titems =>
      exists l items, v = RRef l /\ h !! l = Some (CDict items)
        /\ (fix all2 (ts : list (string * value)) (xs : list (string * ref_value)) : Prop :=
              match ts, xs with
              | [], [] => True
              | t' :: ts', x :: xs' =>
                  fst t' = fst x /\ represents h (snd t') (snd x) /\ all2 ts' xs'
              | _, _ => False
              end) titems items
  end.

(** The nesting depth of containers. *)
Fixpoint depth (t : value) : nat :=
  match t with
  | VList ts => S (fold_right (fun t' n => Nat.max (depth t') n) O ts)
  | VDict items => S (fold_right (fun kv n => Nat.max (depth (snd kv)) n) O items)
  | _ => O
  end.

(** An item of a dict cell stands for an item of the tree. *)
Definition item_represents (h : list cell) (t : string * value)
    (x : string * ref_value) : Prop :=
  fst t = fst x /\ represents h (snd t) (snd x).

(** What [_map_value] on the heap does for one value, as a property
    of the tree [t] of that value. *)
Definition map_value_refines (table_tree : config) (credentials : loc) (t : value)
    : Prop :=
  forall fuel key v h,
    represents h t v ->
    represents h (VDict table_tree) (RRef credentials) ->
    (depth t <= fuel)%nat ->
    exists r more,
      map_value_ref fuel credentials key v h = Some (r, h ++ more)
      /\ match _map_value table_tree key t with
         | Ret t' => exists v', r = Ret v' /\ represents (h ++ more) t' v'
         | Raise e => r = Raise e
         end.

End ObjectGraph.

(** ** Word characters and whitespace *)

(** Every character of [s] is a word character. *)
Fixpoint all_word_chars (s : string) : bool :=
  match s with
  | EmptyString => true
  | String c r => is_word_char c && all_word_chars r
  end.

(** The whitespace that [str.strip()] removes. *)
Definition is_space (c : ascii) : bool :=
  in_range 9 13 c || in_range 28 32 c || in_range 133 133 c || in_range 160 160 c.

Fixpoint lstrip (s : string) : string :=
  match s with
  | EmptyString => EmptyString
  | String c r => if is_space c then lstrip r else s
  end.

Fixpoint rstrip (s : string) : string :=
  match s with
  | EmptyString => EmptyString
  | String c r =>
      match rstrip r with
      | EmptyString => if is_space c then EmptyString else String c EmptyString
      | r' => String c r'
      end
  end.

(** [s.strip()]. *)
Definition strip (s : string) : string := rstrip (lstrip s).

Fixpoint all_space (s : string) : bool :=
  match s with
  | EmptyString => true
  | String c r => is_space c && all_space r
  end.

(** ** [DataCatalog.list]

    [re_compile regex] is [re.compile(regex, flags=re.IGNORECASE)]:
    [None] when it raises [re.error], and otherwise the test
    [pattern.search(name)] of the compiled pattern.  [SyntaxError] is
    not one of the exceptions of [exn]: the call that raises it has the
    outcome [ListingSyntaxError]. *)

Inductive listing :=
| Listing (names : list string)
| ListingSyntaxError (msg : string).

Definition invalid_regex (regex_search : string) : string :=
  "Invalid regular expression provided: '" +:+ regex_search +:+ "'".

Section Listing.
Context {C : Collaborators}.
Context (re_compile : string -> option (string -> bool)).

Definition DataCatalog_list (self : loc) (regex_search : option string) : M listing :=
  match regex_search with
  | None =>
      c <- get_catalog self ;;
      d <- get_datasets (_data_sets c) ;;
      ret (Listing (dict_keys d))
  | Some regex =>
      match strip regex with
      | EmptyString => ret (Listing [])
      | _ =>
          match re_compile regex with
          | None => ret (ListingSyntaxError (invalid_regex regex))
          | Some search =>
              c <- get_catalog self ;;
              d <- get_datasets (_data_sets c) ;;
              ret (Listing (List.filter search (dict_keys d)))
          end
      end
  end.
End Listing.

(** ** Layers: reading [catalog.layers] *)

(** [layers[k]] for a layer name [k]. *)
Fixpoint layer_get (k : value) (layers : list (value * list string))
    : option (list string) :=
  match layers with
  | [] => None
  | (k', names) :: r => if key_eqb k' k then Some names else layer_get k r
  end.

(** The dataset [name] is in the layer [l]. *)
Definition in_layer (l name : string) (layers : list (value * list string)) : Prop :=
  exists names, layer_get (VStr l) layers = Some names /\ In name names.

(** ** A pattern matcher and a dataset class for the examples *)

Module Demo.
Local Open Scope nat_scope.

(** A pattern read as literal characters and fields [{name}]. *)
Inductive token :=
| TLit (c : ascii)
| TField (name : string).

Fixpoint tokens (field : option string) (s : string) : list token :=
  match s with
  | EmptyString => []
  | String c r =>
      match field with
      | None =>
          if Ascii.eqb c ch_lbrace then tokens (Some EmptyString) r
          else TLit c :: tokens None r
      | Some acc =>
          if Ascii.eqb c ch_rbrace then TField acc :: tokens None r
          else tokens (Some (acc +:+ String c EmptyString)) r
      end
  end.

(** A field takes the shortest non-empty text that lets the rest match. *)
Fixpoint match_tokens (toks : list token) (s : string)
    : option (list (string * string)) :=
  match toks with
  | [] => match s with EmptyString => Some [] | _ => None end
  | TLit c :: r =>
      match s with
      | String d s' => if Ascii.eqb c d then match_tokens r s' else None
      | EmptyString => None
      end
  | TField name :: r =>
      (fix take (acc s : string) : option (list (string * string)) :=
         match s with
         | EmptyString => None
         | String d s' =>
             let acc' := acc +:+ String d EmptyString in
             match match_tokens r s' with
             | Some named => Some ((name, acc') :: named)
             | None => take acc' s'
             end
         end) EmptyString s
  end.

Definition demo_parse (pattern name : string) : option (list (string * string)) :=
  match_tokens (tokens None pattern) name.

(** An instance: what it was made from, and the data it holds. *)
Record instance := {
  i_name : string;
  i_config : config;
  i_version : Version;
  i_data : option value
}.

Definition demo_from_config (name : string) (cfg : config)
    (load_version save_version : option string) : string + instance :=
  match dict_get "type" cfg with
  | Some (VStr _) =>
      inr {| i_name := name; i_config := cfg;
             i_version := (load_version, save_version); i_data := None |}
  | _ => inl ("An exception occurred when parsing config for dataset '" +:+ name +:+ "'")
  end.

Definition demo_versioned (d : instance) : bool :=
  match dict_get "versioned" (i_config d) with
  | Some (VBool true) => true
  | _ => false
  end.

Definition with_data (d : instance) (data : option value) : instance :=
  {| i_name := i_name d; i_config := i_config d;
     i_version := i_version d; i_data := data |}.

#[export] Instance demo : Collaborators := {|
  Dataset := instance;
  Data := value;
  AbstractDataSet_from_config := demo_from_config;
  is_versioned := demo_versioned;
  ds_copy := fun d v =>
    {| i_name := i_name d; i_config := i_config d; i_version := v; i_data := i_data d |};
  ds_load := fun d =>
    match i_data d with
    | Some x => (Ret x, d)
    | None => (Raise (DatasetError "Data for MemoryDataset has not been saved yet."), d)
    end;
  ds_save := fun d x => (Ret tt, with_data d (Some x));
  ds_exists := fun d => (Ret (match i_data d with Some _ => true | None => false end), d);
  ds_release := fun d => (Ret tt, with_data d None);
  ds_confirm := fun d => None;
  MemoryDataset := fun x =>
    {| i_name := ""; i_config := [("type", VStr "MemoryDataset")];
       i_version := (None, None); i_data := Some x |};
  parse := demo_parse;
  get_close_matches := fun _ _ => []
|}.

(** *** A configuration and the registry built from it *)

Definition example_catalog : list (string * config) :=
  [("cars",
    [("type", VStr "pandas.CSVDataSet"); ("filepath", VStr "cars.csv");
     ("credentials", VStr "dev_s3"); ("layer", VStr "raw")]);
   ("{namespace}.companies",
    [("type", VStr "pandas.CSVDataSet");
     ("filepath", VStr "data/{namespace}/companies.csv")]);
   ("{namespace}.{dataset}",
    [("type", VStr "pandas.ParquetDataSet");
     ("filepath", VStr "data/{namespace}/{dataset}.pq");
     ("load_args", VDict [("columns", VList [VStr "{dataset}"])])])].

Definition example_credentials : config :=
  [("dev_s3", VDict [("key", VStr "token"); ("secret", VStr "pw")])].

Definition empty_store : Store := {| heap := []; parse_calls := 0 |}.

(** The store after [DataCatalog.from_config(example_catalog,
    example_credentials)], and the catalog it returned. *)
Definition example_store : Store :=
  Eval vm_compute in
    after (from_config "2023-07-01T00.00.00.000Z" (Some example_catalog)
             (Some example_credentials) None None) empty_store.

Definition example_self : nat := 8.

Definition example_fields : Catalog :=
  {| _data_sets := 4; datasets := 5; layers := Some 2%nat; dataset_patterns := 6;
     _sorted_dataset_patterns := ["{namespace}.companies"; "{namespace}.{dataset}"];
     _pattern_matches_cache := 7 |}.

Definition example_patterns : list (string * config) :=
  [("{namespace}.companies",
    [("type", VStr "pandas.CSVDataSet");
     ("filepath", VStr "data/{namespace}/companies.csv")]);
   ("{namespace}.{dataset}",
    [("type", VStr "pandas.ParquetDataSet");
     ("filepath", VStr "data/{namespace}/{dataset}.pq");
     ("load_args", VDict [("columns", VList [VStr "{dataset}"])])])].

(** A configuration object, a credentials table and a list on a heap
    of containers. *)
Definition example_heap : list ObjectGraph.cell :=
  [ObjectGraph.CDict [("credentials", ObjectGraph.RStr "dev_s3");
                      ("load_args", ObjectGraph.RRef 1)];
   ObjectGraph.CDict [("credentials", ObjectGraph.RStr "dev_s3");
                      ("columns", ObjectGraph.RRef 2)];
   ObjectGraph.CList [ObjectGraph.RStr "a"; ObjectGraph.RInt 1%Z];
   ObjectGraph.CDict [("dev_s3", ObjectGraph.RRef 4)];
   ObjectGraph.CDict [("key", ObjectGraph.RStr "token")]].

Definition example_config_tree : config :=
  [("credentials", VStr "dev_s3");
   ("load_args", VDict [("credentials", VStr "dev_s3");
                        ("columns", VList [VStr "a"; VInt 1%Z])])].

Definition example_table_tree : config :=
  [("dev_s3", VDict [("key", VStr "token")])].

(** The store after [_get_dataset("uk.companies")] on the example. *)
Definition example_store_after : Store :=
  Eval vm_compute in
    after (_get_dataset example_self "uk.companies" None true) example_store.

(** A registry with a name that has a "}" and no "{". *)
Definition odd_catalog : list (string * config) :=
  [("x}", [("type", VStr "MemoryDataset")])].

End Demo.

(** ** A pattern whose template has a nested field *)

Module Regional.
Import Demo.
Local Open Scope nat_scope.



End Regional.

(** ** A second example: a versioned dataset and a template with a
    brace of its own *)

Module Trips.
Import Demo.
Local Open Scope nat_scope.

Definition trips_catalog : list (string * config) :=
  [("trips",
    [("type", VStr "pandas.CSVDataSet"); ("filepath", VStr "trips.csv");
     ("versioned", VBool true)]);
   ("{name}_raw",
    [("type", VStr "pandas.CSVDataSet"); ("filepath", VStr "raw/}{name}.csv")])].

(** The store after [DataCatalog.from_config(trips_catalog)]. *)
Definition trips_store : Store :=
  Eval vm_compute in
    after (from_config "2023-07-01T00.00.00.000Z" (Some trips_catalog)
             None None None) empty_store.

Definition trips_self : nat := 7.

Definition trips_fields : Catalog :=
  {| _data_sets := 3; datasets := 4; layers := None; dataset_patterns := 5;
     _sorted_dataset_patterns := ["{name}_raw"];
     _pattern_matches_cache := 6 |}.

Definition trips_patterns : list (string * config) :=
  [("{name}_raw",
    [("type", VStr "pandas.CSVDataSet"); ("filepath", VStr "raw/}{name}.csv")])].

(** The registered instances of the two examples. *)
Definition trips_instance : instance :=
  {| i_name := "trips";
     i_config := [("type", VStr "pandas.CSVDataSet"); ("filepath", VStr "trips.csv");
                  ("versioned", VBool true)];
     i_version := (None, Some "2023-07-01T00.00.00.000Z");
     i_data := None |}.

Definition cars_instance : instance :=
  {| i_name := "cars";
     i_config := [("type", VStr "pandas.CSVDataSet"); ("filepath", VStr "cars.csv");
                  ("credentials",
                   VDict [("key", VStr "token"); ("secret", VStr "pw")])];
     i_version := (None, Some "2023-07-01T00.00.00.000Z");
     i_data := None |}.

End Trips.

(** * Properties *)

(** ** The order of strings *)

Lemma ascii_compare_refl (a : ascii) : Ascii.compare a a = Eq.
Proof. unfold Ascii.compare. apply N.compare_refl. Qed.

Lemma ascii_compare_lt_trans (a b c : ascii) :
  Ascii.compare a b = Lt -> Ascii.compare b c = Lt -> Ascii.compare a c = Lt.
Proof.
  unfold Ascii.compare. rewrite !N.compare_lt_iff. lia.
Qed.

Lemma string_compare_refl (s : string) : String.compare s s = Eq.
Proof.
  induction s as [|a s IH]; simpl; [reflexivity|].
  rewrite ascii_compare_refl. exact IH.
Qed.

Lemma string_compare_lt_trans (s1 s2 s3 : string) :
  String.compare s1 s2 = Lt -> String.compare s2 s3 = Lt ->
  String.compare s1 s3 = Lt.
Proof.
  revert s2 s3.
  induction s1 as [|a s1 IH]; intros [|b s2] [|c s3]; simpl; try congruence.
  destruct (Ascii.compare a b) eqn:Hab; try discriminate.
  - apply Ascii.compare_eq_iff in Hab. subst b.
    destruct (Ascii.compare a c) eqn:Hac; try congruence. apply IH.
  - intros _. destruct (Ascii.compare b c) eqn:Hbc; try discriminate.
    + apply Ascii.compare_eq_iff in Hbc. subst c. rewrite Hab. reflexivity.
    + rewrite (ascii_compare_lt_trans a b c Hab Hbc). reflexivity.
Qed.

Lemma string_leb_cases (s1 s2 : string) :
  String.leb s1 s2 = true <-> s1 = s2 \/ String.compare s1 s2 = Lt.
Proof.
  unfold String.leb.
  destruct (String.compare s1 s2) eqn:H; split; intros H'; try discriminate; auto.
  - left. apply String.compare_eq_iff. exact H.
  - destruct H' as [->|H']; [|discriminate].
    rewrite string_compare_refl in H. discriminate.
Qed.

Lemma string_leb_trans (s1 s2 s3 : string) :
  String.leb s1 s2 = true -> String.leb s2 s3 = true -> String.leb s1 s3 = true.
Proof.
  rewrite !string_leb_cases.
  intros [->|H12] [->|H23]; auto.
  right. eapply string_compare_lt_trans; eauto.
Qed.

Lemma string_ltb_false_leb (s1 s2 : string) :
  String.ltb s1 s2 = false <-> String.leb s2 s1 = true.
Proof.
  unfold String.ltb, String.leb. rewrite (String.compare_antisym s2 s1).
  destruct (String.compare s1 s2); simpl; split; congruence.
Qed.

(** ** The precedence of patterns *)

Lemma key_lt_false_precedes (p q : string) :
  key_lt (sort_key q) (sort_key p) = false <-> precedes p q.
Proof.
  unfold key_lt, sort_key, precedes.
  destruct (Z.eqb_spec (- _specificity q) (- _specificity p)) as [E1|E1].
  - destruct (Z.eqb_spec (- Z.of_nat (str_count ch_lbrace q))
                         (- Z.of_nat (str_count ch_lbrace p))) as [E2|E2].
    + rewrite string_ltb_false_leb. split.
      * intros H. right. split; [lia|]. right. split; [lia|exact H].
      * intros [H|[_ [H|[_ H]]]]; [lia|lia|exact H].
    + rewrite Z.ltb_ge. split.
      * intros H. right. split; [lia|]. left. lia.
      * intros [H|[_ [H|[H _]]]]; lia.
  - rewrite Z.ltb_ge. split.
    + intros H. left. lia.
    + intros [H|[H _]]; lia.
Qed.

Lemma precedes_refl (p : string) : precedes p p.
Proof.
  right. split; [reflexivity|]. right. split; [reflexivity|].
  apply string_leb_cases. left. reflexivity.
Qed.

Lemma precedes_trans (p q r : string) :
  precedes p q -> precedes q r -> precedes p r.
Proof.
  unfold precedes.
  intros [H1|[E1 [H1|[F1 L1]]]] [H2|[E2 [H2|[F2 L2]]]];
    try (left; lia); right; (split; [lia|]); try (left; lia).
  right. split; [lia|]. eapply string_leb_trans; eauto.
Qed.

Lemma precedes_total (p q : string) : precedes p q \/ precedes q p.
Proof.
  unfold precedes.
  destruct (Z.lt_trichotomy (_specificity p) (_specificity q)) as [H|[H|H]];
    [right; left; lia| |left; left; lia].
  destruct (lt_eq_lt_dec (str_count ch_lbrace p) (str_count ch_lbrace q))
    as [[F|F]|F].
  - right. right. split; [lia|]. left. lia.
  - destruct (String.leb_total p q) as [L|L].
    + left. right. split; [lia|]. right. split; [lia|exact L].
    + right. right. split; [lia|]. right. split; [lia|exact L].
  - left. right. split; [lia|]. left. lia.
Qed.

Lemma precedes_antisym (p q : string) : precedes p q -> precedes q p -> p = q.
Proof.
  unfold precedes.
  intros [H1|[E1 [H1|[F1 L1]]]] [H2|[E2 [H2|[F2 L2]]]]; try lia.
  apply String.leb_antisym; assumption.
Qed.

Lemma sorted_insert_perm (p : string) (l : list string) :
  Permutation (p :: l) (sorted_insert p l).
Proof.
  induction l as [|q l IH]; cbn [sorted_insert]; [reflexivity|].
  destruct (key_lt (sort_key q) (sort_key p)); [|reflexivity].
  rewrite perm_swap. apply perm_skip. exact IH.
Qed.

Lemma sort_patterns_perm (l : list string) : Permutation l (sort_patterns l).
Proof.
  unfold sort_patterns.
  induction l as [|p l IH]; cbn [sorted_by_key]; [reflexivity|].
  rewrite <- sorted_insert_perm. apply perm_skip. exact IH.
Qed.

Lemma sorted_insert_sorted (p : string) (l : list string) :
  StronglySorted precedes l -> StronglySorted precedes (sorted_insert p l).
Proof.
  induction 1 as [|q l Hl IH Hq]; cbn [sorted_insert].
  - constructor; constructor.
  - destruct (key_lt (sort_key q) (sort_key p)) eqn:E.
    + constructor; [exact IH|].
      assert (Hqp : precedes q p).
      { destruct (precedes_total q p) as [H|H]; [exact H|].
        apply key_lt_false_precedes in H. congruence. }
      rewrite List.Forall_forall in *. intros x Hx.
      apply (Permutation_in _ (Permutation_sym (sorted_insert_perm p l))) in Hx.
      destruct Hx as [<-|Hx]; [exact Hqp|]. apply Hq. exact Hx.
    + apply key_lt_false_precedes in E.
      constructor; [constructor; assumption|].
      constructor; [exact E|].
      rewrite List.Forall_forall in *. intros x Hx.
      eapply precedes_trans; [exact E|]. apply Hq. exact Hx.
Qed.

Lemma sort_patterns_sorted (l : list string) :
  StronglySorted precedes (sort_patterns l).
Proof.
  unfold sort_patterns.
  induction l as [|p l IH]; cbn [sorted_by_key]; [constructor|].
  apply sorted_insert_sorted. exact IH.
Qed.

Lemma strongly_sorted_unique (l1 l2 : list string) :
  StronglySorted precedes l1 -> StronglySorted precedes l2 ->
  Permutation l1 l2 -> l1 = l2.
Proof.
  intros H1. revert l2.
  induction H1 as [|a l1 Hl1 IH Ha]; intros l2 H2 HP.
  - apply Permutation_nil in HP. congruence.
  - destruct H2 as [|b l2 Hl2 Hb].
    + apply Permutation_sym, Permutation_nil in HP. discriminate.
    + assert (a = b) as <-.
      { rewrite List.Forall_forall in Ha, Hb.
        assert (Hin1 : In a (b :: l2)).
        { eapply Permutation_in; [exact HP|]. left. reflexivity. }
        assert (Hin2 : In b (a :: l1)).
        { eapply Permutation_in; [apply Permutation_sym; exact HP|]. left. reflexivity. }
        destruct Hin1 as [E|Hin1]; [congruence|].
        destruct Hin2 as [E|Hin2]; [congruence|].
        apply precedes_antisym; auto. }
      f_equal. apply IH; [exact Hl2|].
      eapply Permutation_cons_inv. exact HP.
Qed.

(** ** Induction on configuration values *)

Lemma value_induction (P : value -> Prop) :
  P VNone -> (forall b, P (VBool b)) -> (forall z, P (VInt z)) ->
  (forall s, P (VStr s)) ->
  (forall xs, List.Forall P xs -> P (VList xs)) ->
  (forall items, List.Forall (fun kv => P (snd kv)) items -> P (VDict items)) ->
  forall v, P v.
Proof.
  intros HN HB HI HS HL HD.
  fix IH 1. intros [| b | z | s | xs | items].
  - exact HN.
  - apply HB.
  - apply HI.
  - apply HS.
  - apply HL. induction xs as [|x xs IHxs]; constructor; [apply IH|exact IHxs].
  - apply HD. induction items as [|[k x] items IHitems]; constructor;
      [apply IH|exact IHitems].
Qed.

(** ** Dictionaries *)

Lemma dict_mem_true {V} (k : string) (d : list (string * V)) :
  dict_mem k d = true <-> exists v, dict_get k d = Some v.
Proof.
  unfold dict_mem. destruct (dict_get k d); split; eauto.
  - discriminate.
  - intros [v H]. discriminate.
Qed.

Lemma dict_mem_false {V} (k : string) (d : list (string * V)) :
  dict_mem k d = false <-> dict_get k d = None.
Proof.
  unfold dict_mem. destruct (dict_get k d); split; congruence.
Qed.

Lemma dict_get_set_eq {V} (k : string) (v : V) (d : list (string * V)) :
  dict_get k (dict_set k v d) = Some v.
Proof.
  induction d as [|[k' v'] d IH]; simpl.
  - rewrite String.eqb_refl. reflexivity.
  - destruct (String.eqb k' k) eqn:E; simpl; rewrite E; [reflexivity|exact IH].
Qed.

Lemma dict_get_set_ne {V} (k k' : string) (v : V) (d : list (string * V)) :
  k <> k' -> dict_get k' (dict_set k v d) = dict_get k' d.
Proof.
  intros Hne. induction d as [|[k0 v0] d IH]; simpl.
  - destruct (String.eqb_spec k k'); [contradiction|reflexivity].
  - destruct (String.eqb_spec k0 k) as [->|Hk]; simpl.
    + destruct (String.eqb_spec k k'); [contradiction|reflexivity].
    + destruct (String.eqb k0 k'); [reflexivity|exact IH].
Qed.

Lemma dict_mem_set {V} (k k' : string) (v : V) (d : list (string * V)) :
  dict_mem k' d = true -> dict_mem k' (dict_set k v d) = true.
Proof.
  unfold dict_mem. destruct (String.eqb_spec k k') as [->|Hne].
  - rewrite dict_get_set_eq. reflexivity.
  - rewrite dict_get_set_ne by exact Hne. auto.
Qed.

Lemma dict_set_fresh {V} (k : string) (v : V) (d : list (string * V)) :
  dict_mem k d = false -> dict_set k v d = d ++ [(k, v)].
Proof.
  unfold dict_mem. induction d as [|[k' v'] d IH]; simpl; [reflexivity|].
  destruct (String.eqb k' k); [discriminate|].
  intros H. rewrite IH by exact H. reflexivity.
Qed.

(** ** The comprehension over items *)

Lemma map_items_get (f : string -> value -> res value) (d d' : config)
    (k : string) (x : value) :
  map_items f d = Ret d' -> dict_get k d = Some x ->
  exists x', f k x = Ret x' /\ dict_get k d' = Some x'.
Proof.
  revert d'. induction d as [|[k0 x0] d IH]; intros d' Hm Hg; simpl in *.
  - discriminate.
  - destruct (f k0 x0) as [x0'|e] eqn:Hf; [|discriminate].
    destruct (map_items f d) as [r'|e] eqn:Hr; [|discriminate].
    injection Hm as <-. simpl.
    destruct (String.eqb_spec k0 k) as [->|Hne].
    + injection Hg as ->. eauto.
    + apply IH; auto.
Qed.

Lemma map_items_keys (f : string -> value -> res value) (d d' : config) :
  map_items f d = Ret d' -> dict_keys d' = dict_keys d.
Proof.
  revert d'. induction d as [|[k0 x0] d IH]; intros d' Hm; simpl in *.
  - injection Hm as <-. reflexivity.
  - destruct (f k0 x0) as [x0'|e]; [|discriminate].
    destruct (map_items f d) as [r'|e]; [|discriminate].
    injection Hm as <-. simpl. f_equal. apply IH. reflexivity.
Qed.

(** The first item that raises decides the result. *)
Lemma map_items_raise (f : string -> value -> res value) (pre post : config)
    (pre' : config) (k : string) (x : value) (e : exn) :
  map_items f pre = Ret pre' -> f k x = Raise e ->
  map_items f (pre ++ (k, x) :: post) = Raise e.
Proof.
  revert pre'. induction pre as [|[k0 x0] pre IH]; intros pre' Hpre Hf; simpl in *.
  - rewrite Hf. reflexivity.
  - destruct (f k0 x0) as [x0'|e0]; [|discriminate].
    destruct (map_items f pre) as [r'|e0] eqn:Hr; [|discriminate].
    erewrite IH; eauto.
Qed.

(** ** Credential resolution *)

Lemma map_value_dict (credentials : config) (key : string) (items : config) :
  _map_value credentials key (VDict items) =
  match map_items (_map_value credentials) items with
  | Raise e => Raise e
  | Ret items' => Ret (VDict items')
  end.
Proof. reflexivity. Qed.

Lemma first_unresolved_app (credentials : config) (l1 l2 : list string) :
  first_unresolved credentials (l1 ++ l2) =
  match first_unresolved credentials l1 with
  | Some s => Some s
  | None => first_unresolved credentials l2
  end.
Proof.
  unfold first_unresolved. induction l1 as [|s l1 IH]; simpl; [reflexivity|].
  destruct (negb (dict_mem s credentials)); [reflexivity|exact IH].
Qed.

(** The walk fails exactly at the first unresolved reference. *)
Lemma map_value_outcome (credentials : config) (v : value) (key : string) :
  match first_unresolved credentials (credential_refs key v) with
  | Some s =>
      _map_value credentials key v = Raise (KeyError (credentials_message s))
  | None => exists v', _map_value credentials key v = Ret v'
  end.
Proof.
  revert key. induction v as [| b | z | s | xs _ | items IH] using value_induction;
    intros key; try (simpl; eauto; fail).
  - simpl. destruct (String.eqb key CREDENTIALS_KEY); simpl; [|eauto].
    unfold _get_credentials, dict_mem.
    destruct (dict_get s credentials); simpl; eauto.
  - rewrite map_value_dict. cbn [credential_refs].
    induction items as [|[k x] items IHitems]; [simpl; eauto|].
    apply List.Forall_cons_iff in IH. destruct IH as [Hx Hitems].
    specialize (IHitems Hitems). specialize (Hx k).
    cbn [flat_map fst snd map_items]. rewrite first_unresolved_app.
    simpl in Hx.
    destruct (first_unresolved credentials (credential_refs k x)) as [s|].
    + rewrite Hx. reflexivity.
    + destruct Hx as [x' ->].
      destruct (first_unresolved credentials
                  (flat_map (fun kv => credential_refs (fst kv) (snd kv)) items))
        as [s|].
      * destruct (map_items (_map_value credentials) items); [discriminate|].
        injection IHitems as ->. reflexivity.
      * destruct IHitems as [v' Hv'].
        destruct (map_items (_map_value credentials) items); [|discriminate].
        eauto.
Qed.

Lemma resolve_credentials_outcome (cfg credentials : config) :
  match first_unresolved credentials (config_refs cfg) with
  | Some s =>
      _resolve_credentials cfg credentials = Raise (KeyError (credentials_message s))
  | None => exists cfg', _resolve_credentials cfg credentials = Ret cfg'
  end.
Proof.
  pose proof (map_value_outcome credentials (VDict cfg) EmptyString) as H.
  rewrite map_value_dict in H. cbn [credential_refs] in H.
  unfold config_refs, _resolve_credentials, deepcopy.
  destruct (first_unresolved credentials
              (flat_map (fun kv => credential_refs (fst kv) (snd kv)) cfg)) as [s|].
  - destruct (map_items (_map_value credentials) cfg); [discriminate|].
    injection H as ->. reflexivity.
  - destruct H as [v' H].
    destruct (map_items (_map_value credentials) cfg); [|discriminate]. eauto.
Qed.

Lemma map_value_path (credentials : config) (path : list string) :
  forall (key : string) (v v' : value) (k : string) (x : value),
  _map_value credentials key v = Ret v' ->
  get_path (path ++ [k]) v = Some x ->
  resolved_at credentials k x (get_path (path ++ [k]) v').
Proof.
  induction path as [|k0 path IH]; intros key v v' k x Hm Hg.
  - cbn [app get_path] in *.
    destruct v as [| | | |xs|items]; try discriminate.
    rewrite map_value_dict in Hm.
    destruct (map_items (_map_value credentials) items) as [items'|] eqn:Hi;
      [|discriminate].
    injection Hm as <-.
    destruct (dict_get k items) as [y|] eqn:Hk; [|discriminate].
    injection Hg as ->.
    destruct (map_items_get _ _ _ _ _ Hi Hk) as (x' & Hx & Hk').
    rewrite Hk'. unfold resolved_at.
    destruct x as [| b | z | s | xs | its]; try (simpl in Hx; congruence).
    + simpl in Hx. destruct (String.eqb k CREDENTIALS_KEY); [|congruence].
      unfold _get_credentials in Hx. unfold dict_mem.
      destruct (dict_get s credentials); [|discriminate].
      injection Hx as ->. auto.
    + rewrite map_value_dict in Hx.
      destruct (map_items (_map_value credentials) its); [|discriminate].
      injection Hx as <-. eauto.
  - cbn [app get_path] in *.
    destruct v as [| | | |xs|items]; try discriminate.
    rewrite map_value_dict in Hm.
    destruct (map_items (_map_value credentials) items) as [items'|] eqn:Hi;
      [|discriminate].
    injection Hm as <-.
    destruct (dict_get k0 items) as [y|] eqn:Hk; [|discriminate].
    destruct (map_items_get _ _ _ _ _ Hi Hk) as (y' & Hy & Hk').
    rewrite Hk'. eapply IH; eauto.
Qed.

Lemma path_reference_counted (path : list string) :
  forall (key : string) (v : value) (s : string),
  get_path (path ++ [CREDENTIALS_KEY]) v = Some (VStr s) ->
  In s (credential_refs key v).
Proof.
  induction path as [|k0 path IH]; intros key v s Hg; cbn [app get_path] in Hg;
    destruct v as [| | | |xs|items]; try discriminate; cbn [credential_refs].
  - induction items as [|[k x] items IHi]; [discriminate|].
    cbn [dict_get] in Hg. cbn [flat_map fst snd]. apply in_or_app.
    destruct (String.eqb_spec k CREDENTIALS_KEY) as [->|Hne].
    + left. injection Hg as ->. simpl. left. reflexivity.
    + right. apply IHi. exact Hg.
  - induction items as [|[k x] items IHi]; [discriminate|].
    cbn [dict_get] in Hg. cbn [flat_map fst snd]. apply in_or_app.
    destruct (String.eqb_spec k k0) as [->|Hne].
    + left. destruct (get_path (path ++ [CREDENTIALS_KEY]) x) eqn:E; [|discriminate].
      injection Hg as ->. eapply IH. exact E.
    + right. apply IHi. exact Hg.
Qed.

Lemma first_unresolved_some (credentials : config) (refs : list string) (s : string) :
  first_unresolved credentials refs = Some s ->
  In s refs /\ dict_mem s credentials = false.
Proof.
  unfold first_unresolved. intros H. apply find_some in H.
  destruct H as [H1 H2]. split; [exact H1|].
  destruct (dict_mem s credentials); [discriminate|reflexivity].
Qed.

Lemma first_unresolved_none (credentials : config) (refs : list string) :
  first_unresolved credentials refs = None <->
  forall s, In s refs -> dict_mem s credentials = true.
Proof.
  unfold first_unresolved. split.
  - intros H s Hs. pose proof (find_none _ _ H s Hs) as Hn. simpl in Hn.
    destruct (dict_mem s credentials); [reflexivity|discriminate].
  - intros H. destruct (List.find _ refs) as [s|] eqn:E; [|reflexivity].
    apply find_some in E. destruct E as [E1 E2].
    rewrite (H s E1) in E2. discriminate.
Qed.

(** C6. Credential resolution walks the mappings of the configuration
    at every depth.  When every reference (a string held under the
    credentials key) is in the credentials table, the call returns a
    configuration with the same keys in which, at the end of every path
    of keys, a reference is replaced by the entry of the table and every
    value that is neither a mapping nor a reference is the value of the
    input.  When some reference is absent from the table, the call fails
    with the [KeyError] whose message names the first such reference,
    in the order of the walk: "Unable to find credentials '<reference>':
    check your data catalog and credentials configuration. ..." *)
Theorem credentials_resolved_at_every_depth (cfg credentials : config) :
  (* a reference reached by a path is one of the references of the walk *)
  (forall path s,
      get_path (path ++ [CREDENTIALS_KEY]) (VDict cfg) = Some (VStr s) ->
      In s (config_refs cfg))
  /\ (* every reference resolves: the result, path by path *)
  ((forall s, In s (config_refs cfg) -> dict_mem s credentials = true) ->
   exists cfg',
     _resolve_credentials cfg credentials = Ret cfg'
     /\ dict_keys cfg' = dict_keys cfg
     /\ forall path k x,
          get_path (path ++ [k]) (VDict cfg) = Some x ->
          resolved_at credentials k x (get_path (path ++ [k]) (VDict cfg')))
  /\ (* some reference is absent: the error names the first one *)
  (forall s, In s (config_refs cfg) -> dict_mem s credentials = false ->
   exists s',
     In s' (config_refs cfg) /\ dict_mem s' credentials = false
     /\ first_unresolved credentials (config_refs cfg) = Some s'
     /\ _resolve_credentials cfg credentials
        = Raise (KeyError
                   ("Unable to find credentials '" +:+ s'
                    +:+ "': check your data catalog and credentials configuration. See https://kedro.readthedocs.io/en/stable/kedro.io.DataCatalog.html for an example."))).
Proof.
  pose proof (resolve_credentials_outcome cfg credentials) as Hout.
  split; [|split].
  - intros path s Hg.
    apply (path_reference_counted path EmptyString (VDict cfg) s Hg).
  - intros Hall. apply first_unresolved_none in Hall. rewrite Hall in Hout.
    destruct Hout as [cfg' Hr]. exists cfg'. split; [exact Hr|].
    unfold _resolve_credentials, deepcopy in Hr. split.
    + eapply map_items_keys. exact Hr.
    + intros path k x Hg.
      apply (map_value_path credentials path EmptyString (VDict cfg)); [|exact Hg].
      rewrite map_value_dict, Hr. reflexivity.
  - intros s Hs Hab.
    destruct (first_unresolved credentials (config_refs cfg)) as [s'|] eqn:E.
    + destruct (first_unresolved_some _ _ _ E) as [H1 H2].
      exists s'. split; [exact H1|]. split; [exact H2|]. split; [reflexivity|].
      exact Hout.
    + rewrite first_unresolved_none in E. rewrite (E s Hs) in Hab. discriminate.
Qed.

(** The configuration and the table of the specification's example. *)
Example credentials_example :
  _resolve_credentials
    [("credentials", VStr "secretA");
     ("nested", VDict [("credentials", VStr "secretB"); ("sep", VStr ",")])]
    [("secretA", VDict [("key", VStr "a")]); ("secretB", VStr "b")]
  = Ret [("credentials", VDict [("key", VStr "a")]);
         ("nested", VDict [("credentials", VStr "b"); ("sep", VStr ",")])]
  /\ _resolve_credentials
       [("nested", VDict [("credentials", VStr "secretC")])]
       [("secretA", VDict [("key", VStr "a")]); ("secretB", VStr "b")]
     = Raise (KeyError (credentials_message "secretC")).
Proof. split; reflexivity. Qed.

(** A sequence is passed through as it is, also when it holds mappings. *)
Example credentials_in_sequence :
  _resolve_credentials
    [("items", VList [VDict [("credentials", VStr "secretC")]])] []
  = Ret [("items", VList [VDict [("credentials", VStr "secretC")]])].
Proof. reflexivity. Qed.

(** ** [format_map] on templates *)

Lemma append_cons (x : ascii) (a b : string) :
  String x a +:+ b = String x (a +:+ b).
Proof. reflexivity. Qed.

Lemma append_nil (b : string) : EmptyString +:+ b = b.
Proof. reflexivity. Qed.

Lemma append_assoc (a b c : string) : (a +:+ b) +:+ c = a +:+ (b +:+ c).
Proof.
  induction a as [|x a IH]; rewrite ?append_nil, ?append_cons; [reflexivity|].
  f_equal. exact IH.
Qed.


Lemma fmt_app_cons (c : ascii) (s : string) (r : fmt_result) :
  fmt_cons c (fmt_app s r) = fmt_app (String c s) r.
Proof. destruct r; reflexivity. Qed.

Lemma fmt_app_app (a b : string) (r : fmt_result) :
  fmt_app a (fmt_app b r) = fmt_app (a +:+ b) r.
Proof. destruct r; cbn [fmt_app]; try reflexivity. rewrite append_assoc. reflexivity. Qed.

Lemma fmt_app_empty (r : fmt_result) : fmt_app EmptyString r = r.
Proof. destruct r; reflexivity. Qed.

Lemma format_scan_text (named : list (string * string)) (text rest : string) :
  plain_text text = true ->
  format_scan named None (text +:+ rest)
  = fmt_app text (format_scan named None rest).
Proof.
  induction text as [|c text IH]; intros Hp.
  - rewrite append_nil, fmt_app_empty. reflexivity.
  - cbn [plain_text] in Hp. apply andb_prop in Hp. destruct Hp as [Hp Ht].
    apply andb_prop in Hp. destruct Hp as [Hl Hr].
    apply negb_true_iff in Hl, Hr.
    rewrite append_cons. cbn [format_scan]. rewrite Hl, Hr, (IH Ht).
    apply fmt_app_cons.
Qed.




(** ** The store *)

Section StoreFacts.
Context {C : Collaborators}.

Lemma obj_le_refl (o : obj) : obj_le o o.
Proof. destruct o; simpl; auto. Qed.

Lemma obj_le_trans (o1 o2 o3 : obj) :
  obj_le o1 o2 -> obj_le o2 o3 -> obj_le o1 o3.
Proof.
  destruct o1, o2; simpl; try contradiction; destruct o3; simpl;
    try contradiction; auto; try congruence.
  intros (A1 & A2 & A3 & A4 & A5) (B1 & B2 & B3 & B4 & B5).
  repeat split; congruence.
Qed.

Lemma store_le_refl (st : Store) : store_le st st.
Proof. intros l o H. exists o. split; [exact H|apply obj_le_refl]. Qed.

Lemma store_le_trans (st1 st2 st3 : Store) :
  store_le st1 st2 -> store_le st2 st3 -> store_le st1 st3.
Proof.
  intros H12 H23 l o H.
  destruct (H12 l o H) as (o2 & H2 & L2).
  destruct (H23 l o2 H2) as (o3 & H3 & L3).
  exists o3. split; [exact H3|]. eapply obj_le_trans; eauto.
Qed.

Lemma store_le_alloc (st : Store) (o : obj) : store_le st (after (alloc o) st).
Proof.
  intros l o1 H. exists o1. split; [|apply obj_le_refl].
  unfold after, alloc. simpl. apply lookup_app_l_Some. exact H.
Qed.

Lemma store_le_store (st : Store) (l : loc) (o o' : obj) :
  heap st !! l = Some o -> obj_le o o' -> store_le st (after (store l o') st).
Proof.
  intros Hl Hle l1 o1 H1. unfold after, store. simpl.
  destruct (decide (l = l1)) as [E|Hne].
  - subst l1. assert (o1 = o) by congruence. subst o1.
    exists o'. split; [|exact Hle].
    apply list_lookup_insert_eq. eapply lookup_lt_Some. exact Hl.
  - exists o1. split; [|apply obj_le_refl].
    rewrite list_lookup_insert_ne by exact Hne. exact H1.
Qed.

Lemma monotone_ret {A} (a : A) : monotone (ret a).
Proof. intros st. apply store_le_refl. Qed.

Lemma monotone_raise {A} (e : exn) : monotone (@raise _ A e).
Proof. intros st. apply store_le_refl. Qed.

Lemma monotone_lift {A} (r : res A) : monotone (lift r).
Proof. intros st. apply store_le_refl. Qed.

Lemma monotone_bind {A B} (m : M A) (f : A -> M B) :
  monotone m -> (forall a, monotone (f a)) -> monotone (bind m f).
Proof.
  intros Hm Hf st. unfold after, bind. specialize (Hm st). unfold after in Hm.
  destruct (m st) as [[a|e] st1]; simpl in *; [|exact Hm].
  eapply store_le_trans; [exact Hm|]. apply Hf.
Qed.

Lemma monotone_try_except {A} (m : M A) (handler : exn -> option (M A)) :
  monotone m -> (forall e h, handler e = Some h -> monotone h) ->
  monotone (try_except m handler).
Proof.
  intros Hm Hh st. unfold after, try_except. specialize (Hm st). unfold after in Hm.
  destruct (m st) as [[a|e] st1]; simpl in *; [exact Hm|].
  destruct (handler e) as [h|] eqn:E; [|exact Hm].
  eapply store_le_trans; [exact Hm|]. eapply Hh. exact E.
Qed.

Lemma monotone_alloc (o : obj) : monotone (alloc o).
Proof. intros st. apply store_le_alloc. Qed.

Lemma monotone_tick (n : nat) : monotone (tick_parse n).
Proof. intros st l o H. exists o. split; [exact H|apply obj_le_refl]. Qed.

Lemma monotone_get_catalog (l : loc) : monotone (get_catalog l).
Proof.
  intros st. unfold after, get_catalog.
  destruct (heap st !! l) as [[]|]; apply store_le_refl.
Qed.

Lemma monotone_get_datasets (l : loc) : monotone (get_datasets l).
Proof.
  intros st. unfold after, get_datasets.
  destruct (heap st !! l) as [[]|]; apply store_le_refl.
Qed.

Lemma monotone_get_patterns (l : loc) : monotone (get_patterns l).
Proof.
  intros st. unfold after, get_patterns.
  destruct (heap st !! l) as [[]|]; apply store_le_refl.
Qed.

Lemma monotone_get_cache (l : loc) : monotone (get_cache l).
Proof.
  intros st. unfold after, get_cache.
  destruct (heap st !! l) as [[]|]; apply store_le_refl.
Qed.

Lemma monotone_get_frozen (l : loc) : monotone (get_frozen l).
Proof.
  intros st. unfold after, get_frozen.
  destruct (heap st !! l) as [[]|]; apply store_le_refl.
Qed.

Lemma monotone_get_instance (l : loc) : monotone (get_instance l).
Proof.
  intros st. unfold after, get_instance.
  destruct (heap st !! l) as [[]|]; apply store_le_refl.
Qed.

Lemma monotone_datasets_setitem (l : loc) (k : string) (v : loc) :
  monotone (datasets_setitem l k v).
Proof.
  intros st. unfold after, datasets_setitem, bind, get_datasets.
  destruct (heap st !! l) as [[d| | | | | |]|] eqn:E; try apply store_le_refl.
  apply (store_le_store st l (ODatasets d)); [exact E|].
  simpl. intros k'. apply dict_mem_set.
Qed.

Lemma monotone_cache_setitem (l : loc) (k v : string) :
  monotone (cache_setitem l k v).
Proof.
  intros st. unfold after, cache_setitem, bind, get_cache.
  destruct (heap st !! l) as [[| | |d| | |]|] eqn:E; try apply store_le_refl.
  apply (store_le_store st l (OCache d)); [exact E|].
  simpl. intros k'. apply dict_mem_set.
Qed.

Lemma monotone_set_datasets_attr (self view : loc) :
  monotone (set_datasets_attr self view).
Proof.
  intros st. unfold after, set_datasets_attr, bind, get_catalog.
  destruct (heap st !! self) as [[| | | | |c|]|] eqn:E; try apply store_le_refl.
  apply (store_le_store st self (OCatalog c)); [exact E|].
  simpl. auto.
Qed.

Lemma monotone_call_method {A} (l : loc) (f : Dataset -> res A * Dataset) :
  monotone (call_method l f).
Proof.
  intros st. unfold after, call_method, bind, get_instance.
  destruct (heap st !! l) as [[| | | | | |d]|] eqn:E; try apply store_le_refl.
  simpl. apply (store_le_store st l (OInstance d)); [exact E|exact I].
Qed.

Lemma monotone_after_instance {A} (l : loc) (k : Dataset -> M A) :
  (forall d st, heap st !! l = Some (OInstance d) -> store_le st (after (k d) st)) ->
  monotone (bind (get_instance l) k).
Proof.
  intros Hk st. unfold after, bind, get_instance.
  destruct (heap st !! l) as [[| | | | | |d]|] eqn:E; try apply store_le_refl.
  apply Hk. exact E.
Qed.

Lemma monotone_after_frozen {A} (l : loc) (k : list (string * loc) -> M A) :
  (forall d st, heap st !! l = Some (OFrozen d) -> store_le st (after (k d) st)) ->
  monotone (bind (get_frozen l) k).
Proof.
  intros Hk st. unfold after, bind, get_frozen.
  destruct (heap st !! l) as [[| | | |d| |]|] eqn:E; try apply store_le_refl.
  apply Hk. exact E.
Qed.
End StoreFacts.

Ltac monotone_step :=
  first
    [ apply monotone_ret | apply monotone_raise | apply monotone_lift
    | apply monotone_alloc | apply monotone_tick
    | apply monotone_get_catalog | apply monotone_get_datasets
    | apply monotone_get_patterns | apply monotone_get_cache
    | apply monotone_get_frozen | apply monotone_get_instance
    | apply monotone_datasets_setitem | apply monotone_cache_setitem
    | apply monotone_set_datasets_attr | apply monotone_call_method
    | assumption
    | apply monotone_bind; [|intros ?]
    | match goal with
      | |- monotone (match ?x with _ => _ end) => destruct x
      | |- monotone (if ?b then _ else _) => destruct b
      end ].
Ltac monotone_auto := repeat monotone_step.

Section Monotone.
Context {C : Collaborators}.

Lemma monotone_frozen_collect (cols : list collection) :
  forall acc, monotone (frozen_collect cols acc).
Proof.
  induction cols as [|[view|items] cols IH]; intros acc; cbn [frozen_collect].
  - monotone_auto.
  - apply monotone_bind; [monotone_auto|]. intros d. apply IH.
  - apply IH.
Qed.

Lemma monotone_FrozenDatasets_init (cols : list collection) :
  monotone (FrozenDatasets_init cols).
Proof.
  unfold FrozenDatasets_init. apply monotone_bind.
  - apply monotone_frozen_collect.
  - intros d. monotone_auto.
Qed.

Lemma monotone_FrozenDatasets_setattr (self : loc) (key : string) (value : loc) :
  monotone (FrozenDatasets_setattr self key value).
Proof. unfold FrozenDatasets_setattr. monotone_auto. Qed.

Lemma monotone_FrozenDatasets_delattr (self : loc) (key : string) :
  monotone (FrozenDatasets_delattr self key).
Proof.
  unfold FrozenDatasets_delattr. apply monotone_after_frozen. intros d st Hd.
  repeat match goal with
         | |- context [if ?b then _ else _] => destruct b
         end;
    try apply store_le_refl;
    apply (store_le_store st self (OFrozen d)); auto; exact I.
Qed.

Lemma monotone_add (self : loc) (name : string) (ds : loc) (replace : bool) :
  monotone (add self name ds replace).
Proof.
  unfold add. monotone_auto.
Qed.

Lemma monotone_add_all (self : loc) (items : list (string * loc)) (replace : bool) :
  monotone (add_all self items replace).
Proof.
  induction items as [|[name ds] items IH]; cbn [add_all].
  - monotone_auto.
  - apply monotone_bind; [apply monotone_add|]. intros _. exact IH.
Qed.

Lemma monotone_add_feed_dict (self : loc) (feed : list (string * feed_value))
    (replace : bool) :
  monotone (add_feed_dict self feed replace).
Proof.
  induction feed as [|[name v] feed IH]; cbn [add_feed_dict].
  - monotone_auto.
  - apply monotone_bind; [monotone_auto|]. intros ds.
    apply monotone_bind; [apply monotone_add|]. intros _. exact IH.
Qed.

Lemma monotone_DataCatalog_init (data_sets : option loc)
    (feed_dict : option (list (string * feed_value)))
    (layers_arg dataset_patterns_arg : option loc) :
  monotone (DataCatalog_init data_sets feed_dict layers_arg dataset_patterns_arg).
Proof.
  unfold DataCatalog_init. monotone_auto;
    try apply monotone_FrozenDatasets_init; try apply monotone_add_feed_dict.
Qed.

Lemma monotone_match_name (self : loc) (name : string) :
  monotone (match_name_against_patterns self name).
Proof. unfold match_name_against_patterns. monotone_auto. Qed.

Lemma monotone_exists_in_catalog_config (self : loc) (name : string) :
  monotone (exists_in_catalog_config self name).
Proof.
  unfold exists_in_catalog_config. monotone_auto; try apply monotone_match_name.
Qed.

Lemma monotone_resolve_dataset (self : loc) (name pattern : string) :
  monotone (_resolve_dataset self name pattern).
Proof. unfold _resolve_dataset. monotone_auto. Qed.

Lemma monotone_get_dataset (self : loc) (name : string) (version : option Version)
    (suggest : bool) :
  monotone (_get_dataset self name version suggest).
Proof.
  unfold _get_dataset. monotone_auto;
    try first [ apply monotone_exists_in_catalog_config
              | apply monotone_resolve_dataset
              | apply monotone_add ].
Qed.

Lemma monotone_load (self : loc) (name : string) (version : option string) :
  monotone (load self name version).
Proof. unfold load. monotone_auto; try apply monotone_get_dataset. Qed.

Lemma monotone_save (self : loc) (name : string) (data : Data) :
  monotone (save self name data).
Proof. unfold save. monotone_auto; try apply monotone_get_dataset. Qed.

Lemma monotone_exists (self : loc) (name : string) :
  monotone (DataCatalog_exists self name).
Proof.
  unfold DataCatalog_exists. apply monotone_bind.
  - apply monotone_try_except.
    + monotone_auto; try apply monotone_get_dataset.
    + intros e h He. destruct e; try discriminate.
      injection He as <-. monotone_auto.
  - intros r. monotone_auto.
Qed.

Lemma monotone_release (self : loc) (name : string) :
  monotone (release self name).
Proof. unfold release. monotone_auto; try apply monotone_get_dataset. Qed.

Lemma monotone_confirm (self : loc) (name : string) :
  monotone (confirm self name).
Proof.
  unfold confirm. apply monotone_bind; [apply monotone_get_dataset|].
  intros data_set. apply monotone_after_instance. intros d st Hd.
  destruct (ds_confirm d) as [[r inst']|]; [|apply store_le_refl].
  unfold after, bind, lift. simpl.
  apply (store_le_store st data_set (OInstance d)); [exact Hd|exact I].
Qed.

Lemma monotone_shallow_copy (self : loc) : monotone (shallow_copy self).
Proof.
  unfold shallow_copy. monotone_auto; try apply monotone_DataCatalog_init.
Qed.

Lemma monotone_from_config_loop (catalog : list (string * config))
    (credentials : config) (load_versions : list (string * string))
    (save_version : string) :
  forall acc,
    monotone (from_config_loop catalog credentials load_versions save_version acc).
Proof.
  induction catalog as [|[ds_name ds_config] catalog IH]; intros acc;
    cbn [from_config_loop].
  - monotone_auto.
  - destruct (str_contains ch_rbrace ds_name); [apply IH|].
    apply monotone_bind; [monotone_auto|]. intros layers'.
    apply monotone_bind; [monotone_auto|]. intros cfg.
    destruct (AbstractDataSet_from_config _ _ _ _); [monotone_auto|].
    apply monotone_bind; [monotone_auto|]. intros ds. apply IH.
Qed.

Lemma monotone_from_config (timestamp : string)
    (catalog : option (list (string * config))) (credentials : option config)
    (load_versions : option (list (string * string)))
    (save_version : option string) :
  monotone (from_config timestamp catalog credentials load_versions save_version).
Proof.
  unfold from_config. cbv zeta.
  destruct (List.filter _ _); [|monotone_auto].
  apply monotone_bind; [apply monotone_from_config_loop|]. intros b.
  monotone_auto; try apply monotone_DataCatalog_init.
Qed.

(** Every call of a client changes the store only in these ways. *)
Lemma exec_monotone (c : call) (st : Store) : store_le st (exec c st).
Proof.
  destruct c; cbn [exec].
  - apply monotone_from_config.
  - apply monotone_DataCatalog_init.
  - apply monotone_load.
  - apply monotone_save.
  - apply monotone_exists.
  - apply monotone_release.
  - apply monotone_confirm.
  - apply monotone_add.
  - apply monotone_add_all.
  - apply monotone_add_feed_dict.
  - apply monotone_exists_in_catalog_config.
  - apply monotone_match_name.
  - apply monotone_shallow_copy.
  - apply monotone_FrozenDatasets_setattr.
  - apply monotone_FrozenDatasets_delattr.
  - apply monotone_alloc.
Qed.

Lemma exec_all_monotone (cs : list call) (st : Store) :
  store_le st (exec_all cs st).
Proof.
  revert st. induction cs as [|c cs IH]; intros st; cbn [exec_all fold_left].
  - apply store_le_refl.
  - eapply store_le_trans; [apply exec_monotone|]. apply IH.
Qed.

(** A name that is registered stays registered. *)
Lemma store_le_registered (st st' : Store) (self : loc) (name : string) :
  store_le st st' ->
  dict_mem name (exact_map st self) = true ->
  dict_mem name (exact_map st' self) = true.
Proof.
  intros Hle. unfold exact_map.
  destruct (heap st !! self) as [[| | | | |c|]|] eqn:Hc; try discriminate.
  destruct (heap st !! _data_sets c) as [[d| | | | | |]|] eqn:Hd; try discriminate.
  destruct (Hle _ _ Hc) as (o' & Ho' & Hle').
  destruct o'; simpl in Hle'; try contradiction.
  destruct Hle' as (E & _). rewrite Ho', <- E.
  destruct (Hle _ _ Hd) as (o'' & Ho'' & Hle'').
  destruct o''; simpl in Hle''; try contradiction.
  rewrite Ho''. apply Hle''.
Qed.
End Monotone.

(** ** Running the operations on a registry *)

Section Runs.
Context {C : Collaborators}.

Lemma dict_update_fresh {V} (d a : list (string * V)) :
  NoDup (dict_keys (a ++ d)) -> dict_update a d = a ++ d.
Proof.
  unfold dict_update. revert a.
  induction d as [|[k v] d IH]; intros a Hnd; cbn [fold_left fst snd].
  - rewrite app_nil_r. reflexivity.
  - assert (Hk : dict_mem k a = false).
    { apply dict_mem_false. unfold dict_keys in Hnd. rewrite map_app in Hnd.
      apply NoDup_app in Hnd. destruct Hnd as (_ & Hd & _).
      clear IH. induction a as [|[k0 v0] a IHa]; [reflexivity|].
      cbn [dict_get]. destruct (String.eqb_spec k0 k) as [->|Hne].
      - exfalso. apply (Hd k); cbn; left.
      - apply IHa. intros x Hx. apply Hd. cbn. right. exact Hx. }
    rewrite (dict_set_fresh _ _ _ Hk), IH.
    + rewrite <- app_assoc. reflexivity.
    + rewrite <- app_assoc. exact Hnd.
Qed.

Lemma dict_update_nil {V} (d : list (string * V)) :
  NoDup (dict_keys d) -> dict_update [] d = d.
Proof. intros H. apply (dict_update_fresh d []). exact H. Qed.

Lemma store_eta (st : Store) :
  {| heap := heap st; parse_calls := parse_calls st |} = st.
Proof. destruct st. reflexivity. Qed.

Lemma lookup_distinct (h : list obj) (l1 l2 : loc) (o1 o2 : obj) :
  h !! l1 = Some o1 -> h !! l2 = Some o2 ->
  (match o1, o2 with
   | ODatasets _, ODatasets _ | OPatterns _, OPatterns _ | OLayers _, OLayers _
   | OCache _, OCache _ | OFrozen _, OFrozen _ | OCatalog _, OCatalog _
   | OInstance _, OInstance _ => False
   | _, _ => True
   end) ->
  l1 <> l2.
Proof.
  intros H1 H2 Hk E. subst l2. rewrite H1 in H2. injection H2 as <-.
  destruct o1; exact Hk.
Qed.

(** [add] on a registry, for a new name or with [replace]. *)
Lemma add_run (st : Store) (self : loc) (c : Catalog)
    (d fv : list (string * loc)) (pats : list (string * config))
    (cache : list (string * string)) (name : string) (ds : loc) (replace : bool) :
  registry_at st self c d fv pats cache ->
  dict_mem name d = false \/ replace = true ->
  add self name ds replace st
  = (Ret tt,
     {| heap :=
          <[self := OCatalog (with_view c (length (heap st)))]>
            (<[_data_sets c := ODatasets (dict_set name ds d)]> (heap st)
             ++ [OFrozen (dict_set (_sub_nonword_chars name) ds fv)]);
        parse_calls := parse_calls st |}).
Proof.
  intros (Hc & Hd & Hv & Hp & Hk & Hnd) Hnew.
  assert (Hne : _data_sets c <> datasets c).
  { eapply lookup_distinct; [exact Hd|exact Hv|exact I]. }
  assert (Hne2 : _data_sets c <> self).
  { eapply lookup_distinct; [exact Hd|exact Hc|exact I]. }
  pose proof (lookup_lt_Some _ _ _ Hc) as Lc.
  unfold add, bind, get_catalog. rewrite Hc.
  unfold get_datasets at 1. rewrite Hd.
  assert (Hguard :
    (if dict_mem name d
     then if replace then ret tt
          else raise (DatasetAlreadyExistsError (already_registered name))
     else ret tt) st = (Ret tt, st)).
  { destruct Hnew as [->| ->]; [reflexivity|].
    destruct (dict_mem name d); reflexivity. }
  rewrite Hguard.
  unfold datasets_setitem, bind, get_datasets. rewrite Hd.
  unfold store at 1. cbn [heap parse_calls].
  unfold FrozenDatasets_init, bind. cbn [frozen_collect].
  unfold bind, get_frozen. cbn [heap parse_calls].
  rewrite list_lookup_insert_ne by exact Hne. rewrite Hv.
  unfold ret, alloc. cbn [heap parse_calls].
  unfold set_datasets_attr, bind, get_catalog. cbn [heap parse_calls].
  rewrite lookup_app_l by (rewrite length_insert; exact Lc).
  rewrite list_lookup_insert_ne by exact Hne2. rewrite Hc.
  unfold store. cbn [heap parse_calls].
  rewrite length_insert.
  rewrite (dict_update_nil fv Hnd).
  reflexivity.
Qed.

Lemma first_match_some (name : string) (sorted : list string) (p : string) (n : nat) :
  first_match name sorted = (Some p, n) ->
  In p sorted /\ parse p name <> None.
Proof.
  revert n. induction sorted as [|q sorted IH]; intros n H; cbn [first_match] in H.
  - discriminate.
  - destruct (parse q name) eqn:E.
    + injection H as <- <-. split; [left; reflexivity|congruence].
    + destruct (first_match name sorted) as [m k]. injection H as -> <-.
      destruct (IH k eq_refl) as [H1 H2]. split; [right; exact H1|exact H2].
Qed.

(** [exists_in_catalog_config] for a name that is not registered. *)
Lemma exists_in_catalog_config_run (st : Store) (self : loc) (c : Catalog)
    (d fv : list (string * loc)) (pats : list (string * config))
    (cache : list (string * string)) (name : string) :
  registry_at st self c d fv pats cache ->
  dict_mem name d = false ->
  exists_in_catalog_config self name st
  = match pattern_for cache (_sorted_dataset_patterns c) name with
    | Some (p, n, cache') =>
        (Ret true,
         {| heap := <[_pattern_matches_cache c := OCache cache']> (heap st);
            parse_calls := (parse_calls st + n)%nat |})
    | None =>
        (Ret false,
         {| heap := heap st;
            parse_calls :=
              (parse_calls st + snd (first_match name (_sorted_dataset_patterns c)))%nat |})
    end.
Proof.
  intros (Hc & Hd & Hv & Hp & Hk & Hnd) Hnew.
  unfold exists_in_catalog_config, bind, get_catalog. rewrite Hc.
  unfold get_datasets. rewrite Hd. unfold get_cache. rewrite Hk. rewrite Hnew.
  unfold pattern_for, dict_mem. cbn [orb].
  destruct (dict_get name cache) as [p|] eqn:Hcache.
  - unfold ret. rewrite list_insert_id by exact Hk.
    rewrite Nat.add_0_r, store_eta. reflexivity.
  - unfold match_name_against_patterns, bind, get_catalog. rewrite Hc.
    destruct (first_match name (_sorted_dataset_patterns c)) as [[[|a q]|] n];
      unfold bind, tick_parse, ret; cbn [heap parse_calls snd]; try reflexivity.
    unfold cache_setitem, bind, get_cache. cbn [heap parse_calls].
    rewrite Hk. unfold store. cbn [heap parse_calls]. reflexivity.
Qed.

(** [_resolve_dataset] on a registry. *)
Lemma resolve_dataset_run (st : Store) (self : loc) (c : Catalog)
    (d fv : list (string * loc)) (pats : list (string * config))
    (cache : list (string * string)) (name pattern : string) :
  registry_at st self c d fv pats cache ->
  _resolve_dataset self name pattern st
  = let st1 := {| heap := heap st; parse_calls := (parse_calls st + 1)%nat |} in
    match dict_get pattern pats with
    | None => (Raise (KeyError pattern), st1)
    | Some template =>
        match resolve_template pattern (parse pattern name) template with
        | Raise e => (Raise e, st1)
        | Ret cfg =>
            match AbstractDataSet_from_config name cfg None None with
            | inl msg => (Raise (DatasetError msg), st1)
            | inr ds =>
                (Ret (length (heap st)),
                 {| heap := heap st ++ [OInstance ds];
                    parse_calls := (parse_calls st + 1)%nat |})
            end
        end
    end.
Proof.
  intros (Hc & Hd & Hv & Hp & Hk & Hnd).
  unfold _resolve_dataset, bind, tick_parse, get_catalog. cbn [heap parse_calls].
  rewrite Hc. unfold get_patterns. cbn [heap parse_calls]. rewrite Hp.
  cbv zeta.
  destruct (dict_get pattern pats) as [template|]; [|reflexivity].
  unfold ret, lift, deepcopy.
  destruct (resolve_template pattern (parse pattern name) template) as [cfg|e];
    [|reflexivity].
  destruct (AbstractDataSet_from_config name cfg None None) as [msg|ds];
    reflexivity.
Qed.

(** [registry_at] after a change of the cache. *)
Lemma registry_at_cache (st : Store) (self : loc) (c : Catalog)
    (d fv : list (string * loc)) (pats : list (string * config))
    (cache cache' : list (string * string)) (n : nat) :
  registry_at st self c d fv pats cache ->
  registry_at
    {| heap := <[_pattern_matches_cache c := OCache cache']> (heap st);
       parse_calls := n |} self c d fv pats cache'.
Proof.
  intros (Hc & Hd & Hv & Hp & Hk & Hnd).
  unfold registry_at. cbn [heap].
  rewrite !list_lookup_insert_ne
    by (eapply lookup_distinct; [exact Hk|eassumption|exact I]).
  repeat split; try assumption.
  apply list_lookup_insert_eq. eapply lookup_lt_Some. exact Hk.
Qed.

Lemma registry_at_alloc (st : Store) (self : loc) (c : Catalog)
    (d fv : list (string * loc)) (pats : list (string * config))
    (cache : list (string * string)) (o : obj) (n : nat) :
  registry_at st self c d fv pats cache ->
  registry_at {| heap := heap st ++ [o]; parse_calls := n |}
    self c d fv pats cache.
Proof.
  intros (Hc & Hd & Hv & Hp & Hk & Hnd).
  unfold registry_at. cbn [heap].
  repeat split; try (apply lookup_app_l_Some; assumption). exact Hnd.
Qed.

(** [_get_dataset] for a name that is registered. *)
Lemma get_dataset_registered (st : Store) (self : loc) (c : Catalog)
    (d : list (string * loc)) (name : string) (inst : loc)
    (version : option Version) (suggest : bool) :
  heap st !! self = Some (OCatalog c) ->
  heap st !! _data_sets c = Some (ODatasets d) ->
  dict_get name d = Some inst ->
  _get_dataset self name version suggest st
  = match version with
    | None => (Ret inst, st)
    | Some v =>
        match heap st !! inst with
        | Some (OInstance i) =>
            if is_versioned i then alloc (OInstance (ds_copy i v)) st
            else (Ret inst, st)
        | _ => bad_reference st
        end
    end.
Proof.
  intros Hc Hd Hg.
  unfold _get_dataset, bind, get_catalog. rewrite Hc.
  unfold get_datasets. rewrite Hd.
  unfold dict_mem. rewrite Hg. unfold ret. rewrite Hd, Hg.
  destruct version as [v|]; [|reflexivity].
  unfold get_instance.
  destruct (heap st !! inst) as [[| | | | | |i]|]; try reflexivity.
  destruct (is_versioned i); reflexivity.
Qed.

Lemma pattern_for_cached (cache : list (string * string)) (sorted : list string)
    (name p : string) (n : nat) (cache' : list (string * string)) :
  pattern_for cache sorted name = Some (p, n, cache') ->
  dict_get name cache' = Some p.
Proof.
  unfold pattern_for. destruct (dict_get name cache) as [q|] eqn:E.
  - intros H. injection H as <- <- <-. exact E.
  - destruct (first_match name sorted) as [[[|a q]|] k]; try discriminate.
    intros H. injection H as <- <- <-. apply dict_get_set_eq.
Qed.

Lemma get_dataset_unregistered (st : Store) (self : loc) (c : Catalog)
    (d fv : list (string * loc)) (pats : list (string * config))
    (cache : list (string * string)) (name : string)
    (version : option Version) (suggest : bool) :
  registry_at st self c d fv pats cache ->
  dict_mem name d = false ->
  _get_dataset self name version suggest st
  = unregistered_outcome st self c d fv pats cache name version suggest.
Proof.
  intros Hreg Hnew. pose proof Hreg as (Hc & Hd & Hv & Hp & Hk & Hnd).
  unfold _get_dataset, unregistered_outcome.
  unfold bind at 1. unfold get_catalog at 1. rewrite Hc.
  unfold bind at 1. unfold get_datasets at 1. rewrite Hd.
  unfold bind at 1. rewrite Hnew.
  unfold bind at 1.
  rewrite (exists_in_catalog_config_run _ _ _ _ _ _ _ _ Hreg Hnew).
  destruct (pattern_for cache (_sorted_dataset_patterns c) name)
    as [[[pattern n] cache']|] eqn:Hpf; [|reflexivity].
  pose proof (pattern_for_cached _ _ _ _ _ _ Hpf) as Hcached.
  pose proof (registry_at_cache st self c d fv pats cache cache'
                (parse_calls st + n)%nat Hreg) as Hreg1.
  pose proof Hreg1 as (Hc1 & Hd1 & Hv1 & Hp1 & Hk1 & _).
  unfold bind at 1. unfold get_cache at 1. rewrite Hk1.
  unfold bind at 1. rewrite Hcached. unfold ret at 1.
  unfold bind at 1.
  rewrite (resolve_dataset_run _ _ _ _ _ _ _ _ _ Hreg1). cbv zeta.
  cbn [heap parse_calls].
  destruct (dict_get pattern pats) as [template|]; [|reflexivity].
  destruct (resolve_template pattern (parse pattern name) template) as [cfg|e];
    [|reflexivity].
  destruct (AbstractDataSet_from_config name cfg None None) as [msg|ds];
    [reflexivity|].
  rewrite length_insert.
  pose proof (registry_at_alloc _ self c d fv pats cache' (OInstance ds)
                (parse_calls st + n + 1)%nat Hreg1) as Hreg2.
  cbn [heap] in Hreg2.
  rewrite (add_run _ _ _ _ _ _ _ _ _ _ Hreg2 (or_introl Hnew)).
  cbn [heap parse_calls].
  rewrite (dict_set_fresh _ _ _ Hnew).
  rewrite length_app, length_insert. cbn [length].
  rewrite Nat.add_1_r.
  fold (materialized st self c d fv cache' name ds n).
  set (st3 := materialized st self c d fv cache' name ds n).
  assert (L : (_data_sets c < length (heap st))%nat)
    by (eapply lookup_lt_Some; exact Hd).
  assert (Hd3 : heap st3 !! _data_sets c = Some (ODatasets (d ++ [(name, length (heap st))]))).
  { unfold st3, materialized. cbn [heap].
    rewrite list_lookup_insert_ne
      by (eapply lookup_distinct; [exact Hc|exact Hd|exact I]).
    rewrite lookup_app_l
      by (rewrite length_insert, length_app, length_insert; lia).
    apply list_lookup_insert_eq.
    rewrite length_app, length_insert. lia. }
  assert (Hi3 : heap st3 !! length (heap st) = Some (OInstance ds)).
  { unfold st3, materialized. cbn [heap].
    rewrite list_lookup_insert_ne
      by (pose proof (lookup_lt_Some _ _ _ Hc); lia).
    rewrite lookup_app_l
      by (rewrite length_insert, length_app, length_insert; cbn; lia).
    rewrite list_lookup_insert_ne by lia.
    rewrite lookup_app_r by (rewrite length_insert; lia).
    rewrite length_insert, Nat.sub_diag. reflexivity. }
  unfold bind at 1. unfold get_datasets at 1. rewrite Hd3.
  assert (Hg : dict_get name (d ++ [(name, length (heap st))])
               = Some (length (heap st))).
  { rewrite <- (dict_set_fresh _ _ _ Hnew). apply dict_get_set_eq. }
  unfold bind at 1. rewrite Hg. unfold ret at 1.
  destruct version as [v|]; [|reflexivity].
  unfold bind, get_instance. rewrite Hi3.
  destruct (is_versioned ds); reflexivity.
Qed.
End Runs.

(** ** The registry after a name has been materialised *)

Section Materialised.
Context {C : Collaborators}.

Lemma dict_keys_set {V} (k : string) (v : V) (d : list (string * V)) :
  dict_keys (dict_set k v d)
  = if dict_mem k d then dict_keys d else dict_keys d ++ [k].
Proof.
  unfold dict_mem. induction d as [|[k0 v0] d IH]; cbn [dict_set dict_get dict_keys map fst].
  - reflexivity.
  - destruct (String.eqb_spec k0 k) as [->|Hne]; cbn [dict_keys map fst]; [reflexivity|].
    unfold dict_keys in IH. rewrite IH.
    destruct (dict_get k d); reflexivity.
Qed.

Lemma dict_get_none_keys {V} (k : string) (d : list (string * V)) :
  dict_get k d = None -> ~ In k (dict_keys d).
Proof.
  induction d as [|[k0 v0] d IH]; cbn [dict_get dict_keys map fst]; [tauto|].
  destruct (String.eqb_spec k0 k) as [->|Hne]; [discriminate|].
  intros H [E|Hin]; [contradiction|]. apply (IH H Hin).
Qed.

Lemma NoDup_dict_set {V} (k : string) (v : V) (d : list (string * V)) :
  NoDup (dict_keys d) -> NoDup (dict_keys (dict_set k v d)).
Proof.
  intros H. rewrite dict_keys_set. unfold dict_mem.
  destruct (dict_get k d) eqn:E; [exact H|].
  apply NoDup_app. split; [exact H|]. split.
  - intros x Hx Hin. apply list_elem_of_In in Hx, Hin.
    destruct Hin as [<-|[]]. exact (dict_get_none_keys _ _ E Hx).
  - apply NoDup_singleton.
Qed.

Lemma registry_at_readers (st : Store) (self : loc) (c : Catalog)
    (d fv : list (string * loc)) (pats : list (string * config))
    (cache : list (string * string)) :
  registry_at st self c d fv pats cache ->
  exact_map st self = d /\ frozen_view st self = fv
  /\ pattern_table st self = pats /\ match_cache st self = cache.
Proof.
  intros (Hc & Hd & Hv & Hp & Hk & _).
  unfold exact_map, frozen_view, pattern_table, match_cache.
  rewrite Hc, Hd, Hv, Hp, Hk. auto.
Qed.

Lemma registry_at_extend (st st' : Store) (self : loc) (c : Catalog)
    (d fv : list (string * loc)) (pats : list (string * config))
    (cache : list (string * string)) (more : list obj) :
  registry_at st self c d fv pats cache ->
  heap st' = heap st ++ more ->
  registry_at st' self c d fv pats cache.
Proof.
  intros (Hc & Hd & Hv & Hp & Hk & Hnd) E. unfold registry_at. rewrite E.
  repeat split; try (apply lookup_app_l_Some; assumption). exact Hnd.
Qed.

Lemma materialized_registry (st : Store) (self : loc) (c : Catalog)
    (d fv : list (string * loc)) (pats : list (string * config))
    (cache cache' : list (string * string)) (name : string) (ds : Dataset)
    (n : nat) :
  registry_at st self c d fv pats cache ->
  let inst := length (heap st) in
  let st3 := materialized st self c d fv cache' name ds n in
  registry_at st3 self (with_view c (S inst)) (d ++ [(name, inst)])
    (dict_set (_sub_nonword_chars name) inst fv) pats cache'
  /\ heap st3 !! inst = Some (OInstance ds)
  /\ heap st3 !! datasets c = Some (OFrozen fv)
  /\ length (heap st3) = S (S inst).
Proof.
  intros (Hc & Hd & Hv & Hp & Hk & Hnd) inst st3.
  pose proof (lookup_lt_Some _ _ _ Hc) as Lc.
  pose proof (lookup_lt_Some _ _ _ Hd) as Ld.
  pose proof (lookup_lt_Some _ _ _ Hv) as Lv.
  pose proof (lookup_lt_Some _ _ _ Hp) as Lp.
  pose proof (lookup_lt_Some _ _ _ Hk) as Lk.
  assert (Nsd : self <> _data_sets c)
    by (eapply lookup_distinct; [exact Hc|exact Hd|exact I]).
  assert (Nsv : self <> datasets c)
    by (eapply lookup_distinct; [exact Hc|exact Hv|exact I]).
  assert (Nsp : self <> dataset_patterns c)
    by (eapply lookup_distinct; [exact Hc|exact Hp|exact I]).
  assert (Nsk : self <> _pattern_matches_cache c)
    by (eapply lookup_distinct; [exact Hc|exact Hk|exact I]).
  assert (Ndv : _data_sets c <> datasets c)
    by (eapply lookup_distinct; [exact Hd|exact Hv|exact I]).
  assert (Ndp : _data_sets c <> dataset_patterns c)
    by (eapply lookup_distinct; [exact Hd|exact Hp|exact I]).
  assert (Ndk : _data_sets c <> _pattern_matches_cache c)
    by (eapply lookup_distinct; [exact Hd|exact Hk|exact I]).
  assert (Nkv : _pattern_matches_cache c <> datasets c)
    by (eapply lookup_distinct; [exact Hk|exact Hv|exact I]).
  assert (Nkp : _pattern_matches_cache c <> dataset_patterns c)
    by (eapply lookup_distinct; [exact Hk|exact Hp|exact I]).
  assert (Len : forall o1 o2 o3 o4 o5,
             length (<[self := o1]> ((<[_data_sets c := o2]>
               ((<[_pattern_matches_cache c := o3]> (heap st)) ++ [o4])) ++ [o5]))
             = S (S inst)).
  { intros. rewrite length_insert, length_app, length_insert, length_app,
      length_insert. cbn. unfold inst. lia. }
  assert (Old : forall l o, (l < inst)%nat -> l <> self -> l <> _data_sets c ->
             l <> _pattern_matches_cache c -> heap st !! l = Some o ->
             heap st3 !! l = Some o).
  { intros l o Hl N1 N2 N3 Ho. unfold st3, materialized. cbn [heap].
    rewrite list_lookup_insert_ne by congruence.
    rewrite lookup_app_l
      by (rewrite length_insert, length_app, length_insert; cbn; fold inst; lia).
    rewrite list_lookup_insert_ne by congruence.
    rewrite lookup_app_l by (rewrite length_insert; exact Hl).
    rewrite list_lookup_insert_ne by congruence. exact Ho. }
  unfold registry_at. repeat split.
  - unfold st3, materialized. cbn [heap].
    apply list_lookup_insert_eq.
    rewrite length_app, length_insert, length_app, length_insert. cbn. lia.
  - unfold st3, materialized. cbn [heap with_view _data_sets].
    rewrite list_lookup_insert_ne by exact Nsd.
    rewrite lookup_app_l
      by (rewrite length_insert, length_app, length_insert; cbn; lia).
    apply list_lookup_insert_eq.
    rewrite length_app, length_insert. cbn. lia.
  - unfold st3, materialized. cbn [heap with_view datasets].
    rewrite list_lookup_insert_ne by (fold inst; lia).
    rewrite lookup_app_r
      by (rewrite length_insert, length_app, length_insert; cbn; fold inst; lia).
    rewrite length_insert, length_app, length_insert. cbn. fold inst.
    replace (S inst - (inst + 1))%nat with O by lia. reflexivity.
  - cbn [with_view dataset_patterns]. apply Old; auto.
  - unfold st3, materialized. cbn [heap with_view _pattern_matches_cache].
    rewrite list_lookup_insert_ne by exact Nsk.
    rewrite lookup_app_l
      by (rewrite length_insert, length_app, length_insert; cbn; lia).
    rewrite list_lookup_insert_ne by exact Ndk.
    rewrite lookup_app_l by (rewrite length_insert; exact Lk).
    apply list_lookup_insert_eq. exact Lk.
  - apply NoDup_dict_set. exact Hnd.
  - unfold st3, materialized. cbn [heap].
    rewrite list_lookup_insert_ne by (fold inst; lia).
    rewrite lookup_app_l
      by (rewrite length_insert, length_app, length_insert; cbn; fold inst; lia).
    rewrite list_lookup_insert_ne by (fold inst; lia).
    rewrite lookup_app_r by (rewrite length_insert; fold inst; lia).
    rewrite length_insert. fold inst. rewrite Nat.sub_diag. reflexivity.
  - apply Old; auto.
  - unfold st3, materialized. cbn [heap]. apply Len.
Qed.
End Materialised.

Section MatchOnce.
Context {C : Collaborators}.

(** A successful resolution of a name that is not registered: what was
    found and built, and the store that results. *)
Lemma get_dataset_unregistered_ok (st : Store) (self : loc) (c : Catalog)
    (d fv : list (string * loc)) (pats : list (string * config))
    (cache : list (string * string)) (name : string)
    (version : option Version) (suggest : bool) (r : loc) (st1 : Store) :
  registry_at st self c d fv pats cache ->
  dict_mem name d = false ->
  _get_dataset self name version suggest st = (Ret r, st1) ->
  exists pattern n cache' template cfg ds,
    pattern_for cache (_sorted_dataset_patterns c) name = Some (pattern, n, cache')
    /\ dict_get pattern pats = Some template
    /\ resolve_template pattern (parse pattern name) template = Ret cfg
    /\ AbstractDataSet_from_config name cfg None None = inr ds
    /\ let st3 := materialized st self c d fv cache' name ds n in
       match version with
       | None => r = length (heap st) /\ st1 = st3
       | Some v =>
           if is_versioned ds
           then r = length (heap st3)
                /\ st1 = after (alloc (OInstance (ds_copy ds v))) st3
           else r = length (heap st) /\ st1 = st3
       end.
Proof.
  intros Hreg Hnew Hrun.
  rewrite (get_dataset_unregistered _ _ _ _ _ _ _ _ version suggest Hreg Hnew) in Hrun.
  unfold unregistered_outcome in Hrun.
  destruct (pattern_for cache (_sorted_dataset_patterns c) name)
    as [[[pattern n] cache']|] eqn:Hpf; [|discriminate].
  cbv zeta in Hrun.
  destruct (dict_get pattern pats) as [template|] eqn:Ht; [|discriminate].
  destruct (resolve_template pattern (parse pattern name) template) as [cfg|e]
    eqn:Hcfg; [|discriminate].
  destruct (AbstractDataSet_from_config name cfg None None) as [msg|ds] eqn:Hds;
    [discriminate|].
  exists pattern, n, cache', template, cfg, ds.
  repeat split; try reflexivity; try assumption.
  cbv zeta. destruct version as [v|].
  - destruct (is_versioned ds).
    + unfold alloc in Hrun. injection Hrun as <- <-. split; reflexivity.
    + injection Hrun as <- <-. split; reflexivity.
  - injection Hrun as <- <-. split; reflexivity.
Qed.

(** C2. Match once, register forever.  When a name that is not an
    exact registration is resolved with success by [_get_dataset] (the
    resolution of [load], [save], [release] and [confirm]): exactly one
    entry, of a newly built instance, is added to the exact-name map,
    under that name, which is then also in the match cache; whatever
    calls follow, the name stays in the exact-name map; and a second
    resolution calls [parse] no more, changes nothing of the registry
    and yields the same instance (for a [load] with a version on a
    versioned dataset, a version-overridden copy of that instance). *)
Theorem match_once_register_forever (st : Store) (self : loc) (c : Catalog)
    (d fv : list (string * loc)) (pats : list (string * config))
    (cache : list (string * string)) (name : string)
    (version : option Version) (suggest : bool) (r : loc) (st1 : Store) :
  registry_at st self c d fv pats cache ->
  dict_mem name d = false ->
  _get_dataset self name version suggest st = (Ret r, st1) ->
  let inst := length (heap st) in
  exists ds,
    (* one new registration, of a new instance *)
    exact_map st1 self = d ++ [(name, inst)]
    /\ heap st !! inst = None
    /\ heap st1 !! inst = Some (OInstance ds)
    /\ (version = None \/ is_versioned ds = false -> r = inst)
    /\ dict_mem name (match_cache st1 self) = true
    (* from then on *)
    /\ (forall calls,
          dict_mem name (exact_map (exec_all calls st1) self) = true)
    (* a second resolution *)
    /\ (forall version' suggest',
          exists r' st2,
            _get_dataset self name version' suggest' st1 = (Ret r', st2)
            /\ parse_calls st2 = parse_calls st1
            /\ exact_map st2 self = exact_map st1 self
            /\ match_cache st2 self = match_cache st1 self
            /\ frozen_view st2 self = frozen_view st1 self
            /\ dict_get name (exact_map st2 self) = Some inst
            /\ match version' with
               | None => r' = inst /\ st2 = st1
               | Some v =>
                   if is_versioned ds
                   then heap st2 = heap st1 ++ [OInstance (ds_copy ds v)]
                        /\ r' = length (heap st1)
                   else r' = inst /\ st2 = st1
               end).
Proof.
  intros Hreg Hnew Hrun inst.
  destruct (get_dataset_unregistered_ok _ _ _ _ _ _ _ _ _ _ _ _ Hreg Hnew Hrun)
    as (pattern & n & cache' & template & cfg & ds & Hpf & Ht & Hcfg & Hds & Hst).
  cbv zeta in Hst.
  destruct (materialized_registry st self c d fv pats cache cache' name ds n Hreg)
    as (Hreg3 & Hi3 & Hv3 & Hlen3).
  set (st3 := materialized st self c d fv cache' name ds n) in *.
  fold inst in Hreg3, Hi3, Hlen3.
  (* the store after the call extends [st3] *)
  assert (Hext : exists more, heap st1 = heap st3 ++ more
                              /\ (version = None \/ is_versioned ds = false ->
                                  r = inst /\ st1 = st3)).
  { destruct version as [v|].
    - destruct (is_versioned ds).
      + destruct Hst as [-> ->]. eexists. split; [reflexivity|].
        intros [H|H]; discriminate.
      + destruct Hst as [-> ->]. exists []. rewrite app_nil_r. auto.
    - destruct Hst as [-> ->]. exists []. rewrite app_nil_r. auto. }
  destruct Hext as (more & Hheap & Hsame).
  pose proof (registry_at_extend _ _ _ _ _ _ _ _ more Hreg3 Hheap) as Hreg1.
  destruct (registry_at_readers _ _ _ _ _ _ _ Hreg1) as (Em & Ev & Ep & Ek).
  assert (Hi1 : heap st1 !! inst = Some (OInstance ds)).
  { rewrite Hheap. apply lookup_app_l_Some. exact Hi3. }
  assert (Hin : dict_get name (d ++ [(name, inst)]) = Some inst).
  { rewrite <- (dict_set_fresh _ _ _ Hnew). apply dict_get_set_eq. }
  exists ds. repeat split.
  - exact Em.
  - apply lookup_ge_None. unfold inst. lia.
  - exact Hi1.
  - intros H. apply Hsame. exact H.
  - rewrite Ek. apply dict_mem_true. exists pattern.
    eapply pattern_for_cached. exact Hpf.
  - intros calls. eapply store_le_registered; [apply exec_all_monotone|].
    rewrite Em. apply dict_mem_true. eauto.
  - intros version' suggest'.
    pose proof Hreg1 as (Hc1 & Hd1 & _).
    pose proof (get_dataset_registered st1 self _ _ name inst version' suggest'
                  Hc1 Hd1 Hin) as Hrun2.
    rewrite Hi1 in Hrun2.
    destruct version' as [v|]; [destruct (is_versioned ds)|].
    + unfold alloc in Hrun2. eexists _, _. split; [exact Hrun2|].
      assert (Hreg2 : registry_at
                {| heap := heap st1 ++ [OInstance (ds_copy ds v)];
                   parse_calls := parse_calls st1 |}
                self (with_view c (S inst)) (d ++ [(name, inst)])
                (dict_set (_sub_nonword_chars name) inst fv) pats cache').
      { eapply registry_at_extend; [exact Hreg1|reflexivity]. }
      destruct (registry_at_readers _ _ _ _ _ _ _ Hreg2) as (Em2 & Ev2 & _ & Ek2).
      rewrite Em, Ev, Ek, Em2, Ev2, Ek2. repeat split; auto.
    + eexists _, _. split; [exact Hrun2|]. rewrite Em. repeat split; auto.
    + eexists _, _. split; [exact Hrun2|]. rewrite Em. repeat split; auto.
Qed.
End MatchOnce.

(** ** [exists] *)

Section Exists.
Context {C : Collaborators}.

Lemma map_items_not_found (f : string -> value -> res value) (d : config) :
  (forall k x msg, f k x <> Raise (DatasetNotFoundError msg)) ->
  forall msg, map_items f d <> Raise (DatasetNotFoundError msg).
Proof.
  intros Hf msg. induction d as [|[k x] d IH]; cbn [map_items fst snd].
  - discriminate.
  - destruct (f k x) as [x'|e] eqn:E.
    + destruct (map_items f d) as [r|e]; [discriminate|]. exact IH.
    + intros H. injection H as ->. exact (Hf _ _ _ E).
Qed.

Lemma resolve_template_not_found (pattern : string)
    (named : option (list (string * string))) (template : config) (msg : string) :
  resolve_template pattern named template <> Raise (DatasetNotFoundError msg).
Proof.
  apply map_items_not_found. intros k x m. unfold resolve_field.
  destruct (is_iterable x && contains_rbrace x); [|discriminate].
  destruct named as [captures|]; [|discriminate].
  destruct (format_map (py_str x) captures); discriminate.
Qed.

(** C10. [exists] is not read-only.  For a name that is not an exact
    registration and for which a pattern is found (in the cache or by
    matching), when the dataset is built with success from the
    template of the pattern: the new instance is registered under the
    name in the exact-name map, the catalog gets a new view object
    that holds it under the normalised name (the former view object
    is left as it was), and the answer is the one of the new
    instance's own [exists], asked afterwards.  For a name that is not
    registered and for which no pattern is found, the answer is false
    and no object of the store is changed; and for a name that is not
    registered this is the only way to get the answer false with no
    object changed. *)
Theorem exists_materializes (st : Store) (self : loc) (c : Catalog)
    (d fv : list (string * loc)) (pats : list (string * config))
    (cache : list (string * string)) (name : string) :
  registry_at st self c d fv pats cache ->
  dict_mem name d = false ->
  let found := pattern_for cache (_sorted_dataset_patterns c) name in
  let inst := length (heap st) in
  (forall pattern n cache' template cfg ds,
      found = Some (pattern, n, cache') ->
      dict_get pattern pats = Some template ->
      resolve_template pattern (parse pattern name) template = Ret cfg ->
      AbstractDataSet_from_config name cfg None None = inr ds ->
      exists st',
        DataCatalog_exists self name st = (fst (ds_exists ds), st')
        /\ exact_map st' self = d ++ [(name, inst)]
        /\ heap st !! inst = None
        /\ heap st' !! inst = Some (OInstance (snd (ds_exists ds)))
        /\ heap st' !! self = Some (OCatalog (with_view c (S inst)))
        /\ heap st !! S inst = None
        /\ frozen_view st' self = dict_set (_sub_nonword_chars name) inst fv
        /\ heap st' !! datasets c = Some (OFrozen fv))
  /\ (found = None ->
      exists st',
        DataCatalog_exists self name st = (Ret false, st')
        /\ heap st' = heap st)
  /\ (forall st',
        DataCatalog_exists self name st = (Ret false, st') ->
        heap st' = heap st ->
        found = None).
Proof.
  intros Hreg Hnew found inst. subst inst.
  assert (Hrun : _get_dataset self name None true st
                 = unregistered_outcome st self c d fv pats cache name None true)
    by (apply get_dataset_unregistered; assumption).
  assert (Hex : DataCatalog_exists self name st
                = match unregistered_outcome st self c d fv pats cache name None true with
                  | (Ret dataset, st') => call_method dataset ds_exists st'
                  | (Raise (DatasetNotFoundError _), st') => (Ret false, st')
                  | (Raise e, st') => (Raise e, st')
                  end).
  { unfold DataCatalog_exists, bind, try_except. rewrite Hrun.
    destruct (unregistered_outcome st self c d fv pats cache name None true)
      as [[dataset|e] st']; [reflexivity|].
    destruct e; reflexivity. }
  rewrite Hex. clear Hex Hrun.
  unfold unregistered_outcome. fold found.
  split; [|split].
  - intros pattern n cache' template cfg ds Hf Ht Hcfg Hds.
    rewrite Hf. cbv zeta. rewrite Ht, Hcfg, Hds.
    destruct (materialized_registry st self c d fv pats cache cache' name ds n Hreg)
      as (Hreg3 & Hi3 & Hv3 & Hlen3).
    set (st3 := materialized st self c d fv cache' name ds n) in *.
    pose proof Hreg3 as (Hc3 & Hd3 & Hw3 & _).
    cbn [with_view _data_sets datasets] in Hd3, Hw3.
    unfold call_method, bind, get_instance. rewrite Hi3.
    unfold store, lift. cbn [heap parse_calls].
    eexists. split; [reflexivity|].
    assert (Nsi : length (heap st) <> self)
      by (pose proof (lookup_lt_Some _ _ _ (proj1 Hreg)); lia).
    assert (Ndi : length (heap st) <> _data_sets c).
    { destruct Hreg as (_ & Hd & _).
      pose proof (lookup_lt_Some _ _ _ Hd). lia. }
    assert (Nvi : length (heap st) <> datasets c).
    { destruct Hreg as (_ & _ & Hv & _).
      pose proof (lookup_lt_Some _ _ _ Hv). lia. }
    unfold exact_map, frozen_view. cbn [heap].
    rewrite !(list_lookup_insert_ne _ _ self) by lia.
    rewrite Hc3. cbn [with_view _data_sets datasets].
    rewrite (list_lookup_insert_ne _ _ (_data_sets c)) by lia.
    rewrite (list_lookup_insert_ne _ _ (S (length (heap st)))) by lia.
    rewrite (list_lookup_insert_ne _ _ (datasets c)) by lia.
    rewrite Hd3, Hw3, Hv3.
    repeat split; try reflexivity.
    + apply lookup_ge_None. lia.
    + apply list_lookup_insert_eq. rewrite Hlen3. lia.
    + apply lookup_ge_None. lia.
  - intros Hf. rewrite Hf. cbn [heap]. eauto.
  - intros st'. destruct found as [[[pattern n] cache']|]; [|reflexivity].
    cbv zeta.
    destruct (dict_get pattern pats) as [template|]; [|discriminate].
    destruct (resolve_template pattern (parse pattern name) template) as [cfg|e]
      eqn:Hcfg.
    + destruct (AbstractDataSet_from_config name cfg None None) as [msg|ds];
        [discriminate|].
      destruct (materialized_registry st self c d fv pats cache cache' name ds n Hreg)
        as (Hreg3 & Hi3 & Hv3 & Hlen3).
      remember (materialized st self c d fv cache' name ds n) as st3 eqn:E3.
      clear E3.
      unfold call_method, bind, get_instance. rewrite Hi3.
      unfold store, lift. cbn [heap parse_calls].
      intros H Hh. injection H as _ <-. cbn [heap] in Hh.
      apply (f_equal length) in Hh. rewrite length_insert, Hlen3 in Hh. lia.
    + destruct e; try discriminate.
      exfalso. exact (resolve_template_not_found _ _ _ _ Hcfg).
Qed.
End Exists.

(** ** Construction and [shallow_copy] *)

Section Construction.
Context {C : Collaborators}.

Lemma NoDup_dict_update {V} (b a : list (string * V)) :
  NoDup (dict_keys a) -> NoDup (dict_keys (dict_update a b)).
Proof.
  unfold dict_update. revert a.
  induction b as [|[k v] b IH]; intros a Ha; cbn [fold_left fst snd]; [exact Ha|].
  apply IH. apply NoDup_dict_set. exact Ha.
Qed.

Lemma NoDup_normalised (items : list (string * loc)) :
  NoDup (dict_keys (normalised items)).
Proof. unfold normalised, dict_of_items. apply NoDup_dict_update. constructor. Qed.

(** [DataCatalog(data_sets=ld, layers=lay, dataset_patterns=lp)]. *)
Lemma init_run (st : Store) (ld lp : loc) (lay : option loc)
    (items : list (string * loc)) (pats : list (string * config)) :
  heap st !! ld = Some (ODatasets items) ->
  heap st !! lp = Some (OPatterns pats) ->
  DataCatalog_init (Some ld) None lay (Some lp) st
  = (Ret (S (S (S (S (length (heap st)))))),
     {| heap := heap st ++ new_registry (length (heap st)) items lay pats;
        parse_calls := parse_calls st |}).
Proof.
  intros Hd Hp.
  unfold DataCatalog_init, bind, get_datasets. rewrite Hd.
  unfold alloc at 1. cbn [heap parse_calls].
  unfold FrozenDatasets_init, bind. cbn [frozen_collect]. unfold ret at 1.
  unfold alloc at 1. cbn [heap parse_calls].
  unfold get_patterns. cbn [heap parse_calls].
  rewrite (lookup_app_l_Some _ _ _ _ (lookup_app_l_Some _ _ _ _ Hp)).
  unfold alloc, ret. cbn [heap parse_calls].
  rewrite (dict_update_nil _ (NoDup_normalised items)).
  rewrite !length_app. cbn [length].
  replace (length (heap st) + 1)%nat with (S (length (heap st))) by lia.
  replace (S (length (heap st)) + 1)%nat with (S (S (length (heap st)))) by lia.
  replace (S (S (length (heap st))) + 1)%nat with (S (S (S (length (heap st))))) by lia.
  replace (S (S (S (length (heap st)))) + 1)%nat
    with (S (S (S (S (length (heap st)))))) by lia.
  unfold new_registry, new_catalog. rewrite <- !app_assoc. reflexivity.
Qed.

Lemma lookup_new_registry (h : list obj) (items : list (string * loc))
    (lay : option loc) (pats : list (string * config)) :
  let n := length h in
  let h' := h ++ new_registry n items lay pats in
  h' !! n = Some (ODatasets items)
  /\ h' !! S n = Some (OFrozen (normalised items))
  /\ h' !! S (S n) = Some (OPatterns pats)
  /\ h' !! S (S (S n)) = Some (OCache [])
  /\ h' !! S (S (S (S n))) = Some (OCatalog (new_catalog n lay pats)).
Proof.
  intros n h'. unfold h', new_registry. subst n.
  repeat split; rewrite lookup_app_r by lia.
  - rewrite Nat.sub_diag. reflexivity.
  - replace (S (length h) - length h)%nat with 1%nat by lia. reflexivity.
  - replace (S (S (length h)) - length h)%nat with 2%nat by lia. reflexivity.
  - replace (S (S (S (length h))) - length h)%nat with 3%nat by lia. reflexivity.
  - replace (S (S (S (S (length h)))) - length h)%nat with 4%nat by lia.
    reflexivity.
Qed.

(** What [add] changes: the exact-name map and the catalog object of
    the registry it is called on, and nothing else that exists. *)
Lemma add_effect (st : Store) (self : loc) (c : Catalog)
    (d fv : list (string * loc)) (pats : list (string * config))
    (cache : list (string * string)) (name : string) (ds : loc) (replace : bool) :
  registry_at st self c d fv pats cache ->
  dict_mem name d = false \/ replace = true ->
  exists st2,
    add self name ds replace st = (Ret tt, st2)
    /\ registry_at st2 self (with_view c (length (heap st))) (dict_set name ds d)
         (dict_set (_sub_nonword_chars name) ds fv) pats cache
    /\ (forall l o, l <> self -> l <> _data_sets c ->
                    heap st !! l = Some o -> heap st2 !! l = Some o).
Proof.
  intros Hreg Hnew. pose proof Hreg as (Hc & Hd & Hv & Hp & Hk & Hnd).
  eexists. split; [apply (add_run _ _ _ _ _ _ _ _ _ _ Hreg Hnew)|].
  pose proof (lookup_lt_Some _ _ _ Hc) as Lc.
  pose proof (lookup_lt_Some _ _ _ Hd) as Ld.
  assert (Nsd : self <> _data_sets c)
    by (eapply lookup_distinct; [exact Hc|exact Hd|exact I]).
  assert (Old : forall l o, l <> self -> l <> _data_sets c ->
             heap st !! l = Some o ->
             (<[self := OCatalog (with_view c (length (heap st)))]>
                (<[_data_sets c := ODatasets (dict_set name ds d)]> (heap st)
                 ++ [OFrozen (dict_set (_sub_nonword_chars name) ds fv)]))
             !! l = Some o).
  { intros l o N1 N2 Ho.
    rewrite list_lookup_insert_ne by congruence.
    apply lookup_app_l_Some.
    rewrite list_lookup_insert_ne by congruence. exact Ho. }
  split; [|exact Old].
  unfold registry_at. cbn [heap with_view _data_sets datasets dataset_patterns
                             _pattern_matches_cache].
  repeat split.
  - apply list_lookup_insert_eq. rewrite length_app, length_insert. lia.
  - rewrite list_lookup_insert_ne by exact Nsd.
    apply lookup_app_l_Some. apply list_lookup_insert_eq. exact Ld.
  - rewrite list_lookup_insert_ne by lia.
    rewrite lookup_app_r by (rewrite length_insert; lia).
    rewrite length_insert, Nat.sub_diag. reflexivity.
  - apply Old; [| |exact Hp].
    + eapply lookup_distinct; [exact Hp|exact Hc|exact I].
    + eapply lookup_distinct; [exact Hp|exact Hd|exact I].
  - apply Old; [| |exact Hk].
    + eapply lookup_distinct; [exact Hk|exact Hc|exact I].
    + eapply lookup_distinct; [exact Hk|exact Hd|exact I].
  - apply NoDup_dict_set. exact Hnd.
Qed.

(** Another registry, with an exact-name map of its own, is not changed. *)
Lemma add_other_registry (st st2 : Store) (self self2 : loc) (c c2 : Catalog)
    (d2 fv2 : list (string * loc)) (pats2 : list (string * config))
    (cache2 : list (string * string)) :
  (forall l o, l <> self -> l <> _data_sets c ->
               heap st !! l = Some o -> heap st2 !! l = Some o) ->
  heap st !! self = Some (OCatalog c) ->
  (exists d, heap st !! _data_sets c = Some (ODatasets d)) ->
  registry_at st self2 c2 d2 fv2 pats2 cache2 ->
  self2 <> self -> _data_sets c2 <> _data_sets c ->
  registry_at st2 self2 c2 d2 fv2 pats2 cache2.
Proof.
  intros Old Hc [d Hd] (Hc2 & Hd2 & Hv2 & Hp2 & Hk2 & Hnd2) N1 N2.
  unfold registry_at. repeat split; try exact Hnd2; apply Old; try assumption;
    try (eapply lookup_distinct; [eassumption|exact Hc|exact I]);
    try (eapply lookup_distinct; [eassumption|exact Hd|exact I]).
Qed.

(** C3, as the code has it.  [shallow_copy] returns a new catalog object
    with a new exact-name map that holds the entries of the original's
    (the same instances), the layers object of the original, a new
    dict of patterns with the original's entries, and an empty match
    cache; no object of the original is changed.  The two exact-name
    maps are two objects: a dataset added to the copy is not in the
    original's map, and a dataset added to the original is not in the
    copy's. *)
Theorem shallow_copy_new_map (st : Store) (self : loc) (c : Catalog)
    (d fv : list (string * loc)) (pats : list (string * config))
    (cache : list (string * string)) :
  registry_at st self c d fv pats cache ->
  let n := length (heap st) in
  let copy := S (S (S (S n))) in
  let c' := new_catalog n (layers c) pats in
  exists st',
    shallow_copy self st = (Ret copy, st')
    /\ heap st !! copy = None
    /\ registry_at st' copy c' d (normalised d) pats []
    /\ registry_at st' self c d fv pats cache
    /\ (forall l o, heap st !! l = Some o -> heap st' !! l = Some o)
    /\ layers c' = layers c
    /\ heap st !! _data_sets c' = None
    /\ heap st !! dataset_patterns c' = None
    /\ (forall name ds replace,
          dict_mem name d = false ->
          (exists st2,
              add copy name ds replace st' = (Ret tt, st2)
              /\ exact_map st2 copy = d ++ [(name, ds)]
              /\ exact_map st2 self = d)
          /\ (exists st2,
                 add self name ds replace st' = (Ret tt, st2)
                 /\ exact_map st2 self = d ++ [(name, ds)]
                 /\ exact_map st2 copy = d)).
Proof.
  intros Hreg n copy c'. pose proof Hreg as (Hc & Hd & Hv & Hp & Hk & Hnd).
  pose proof (lookup_lt_Some _ _ _ Hc) as Lc.
  pose proof (lookup_lt_Some _ _ _ Hd) as Ld.
  eexists. split.
  { unfold shallow_copy, bind, get_catalog. rewrite Hc.
    apply (init_run st _ _ (layers c) d pats Hd Hp). }
  set (st' := {| heap := heap st ++ new_registry (length (heap st)) d (layers c) pats;
                 parse_calls := parse_calls st |}).
  destruct (lookup_new_registry (heap st) d (layers c) pats)
    as (N0 & N1 & N2 & N3 & N4).
  assert (Hcopy : registry_at st' copy c' d (normalised d) pats []).
  { unfold registry_at, st', copy, c', n. cbn [heap new_catalog _data_sets datasets
      dataset_patterns _pattern_matches_cache].
    repeat split; try assumption. apply NoDup_normalised. }
  assert (Horig : registry_at st' self c d fv pats cache).
  { eapply registry_at_extend; [exact Hreg|reflexivity]. }
  split; [apply lookup_ge_None; unfold copy, n; lia|].
  split; [exact Hcopy|].
  split; [exact Horig|].
  split; [intros l o Ho; unfold st'; cbn [heap]; apply lookup_app_l_Some; exact Ho|].
  split; [reflexivity|].
  split; [apply lookup_ge_None; unfold c', n; cbn; lia|].
  split; [apply lookup_ge_None; unfold c', n; cbn; lia|].
  intros name ds replace H. split.
  - destruct (add_effect st' copy c' d (normalised d) pats [] name ds replace
                Hcopy (or_introl H)) as (st2 & Hadd & Hreg2 & Old).
    exists st2. split; [exact Hadd|].
    destruct (registry_at_readers _ _ _ _ _ _ _ Hreg2) as (-> & _).
    split; [apply dict_set_fresh; exact H|].
    assert (Hreg2' : registry_at st2 self c d fv pats cache).
    { apply (add_other_registry st' st2 copy self c' c d fv pats cache Old
               (proj1 Hcopy) (ex_intro _ d (proj1 (proj2 Hcopy))) Horig).
      - unfold copy, n. lia.
      - unfold c', n. cbn. lia. }
    apply (registry_at_readers _ _ _ _ _ _ _ Hreg2').
  - destruct (add_effect st' self c d fv pats cache name ds replace
                Horig (or_introl H)) as (st2 & Hadd & Hreg2 & Old).
    exists st2. split; [exact Hadd|].
    destruct (registry_at_readers _ _ _ _ _ _ _ Hreg2) as (-> & _).
    split; [apply dict_set_fresh; exact H|].
    assert (Hreg2' : registry_at st2 copy c' d (normalised d) pats []).
    { apply (add_other_registry st' st2 self copy c c' d (normalised d) pats []
               Old (proj1 Horig) (ex_intro _ d (proj1 (proj2 Horig))) Hcopy).
      - unfold copy, n. lia.
      - unfold c', n. cbn. lia. }
    apply (registry_at_readers _ _ _ _ _ _ _ Hreg2').
Qed.

(** C8, as the code has it: [__setattr__].  Every attempt to set an
    attribute of a view raises [AttributeError] and leaves the store
    as it was; the message tells an attribute that the view holds from
    one that it does not hold. *)
Theorem frozen_setattr_refused (st : Store) (view : loc)
    (d : list (string * loc)) (key : string) (value : loc) :
  heap st !! view = Some (OFrozen d) ->
  FrozenDatasets_setattr view key value st
  = (Raise (AttributeError
              (if dict_mem key d
               then "Operation not allowed! Please change datasets through configuration."
               else "Operation not allowed! Please use DataCatalog.add() instead.")),
     st)
  /\ "Operation not allowed! Please change datasets through configuration."
     <> "Operation not allowed! Please use DataCatalog.add() instead.".
Proof.
  intros Hv. split; [|discriminate].
  unfold FrozenDatasets_setattr, bind, get_frozen. rewrite Hv.
  destruct (dict_mem key d); reflexivity.
Qed.

(** What [del view.key] does for a key that the view holds. *)
Lemma frozen_delattr_deletes (st : Store) (view : loc)
    (d : list (string * loc)) (key : string) :
  heap st !! view = Some (OFrozen d) ->
  dict_mem key d = true ->
  key <> "__dict__" -> key <> "__class__" -> key <> "__weakref__" ->
  FrozenDatasets_delattr view key st
  = (Ret tt, {| heap := <[view := OFrozen (dict_del key d)]> (heap st);
                parse_calls := parse_calls st |}).
Proof.
  intros Hv Hk N1 N2 N3.
  unfold FrozenDatasets_delattr, bind, get_frozen. rewrite Hv.
  apply String.eqb_neq in N1, N2, N3. rewrite N1, N2, N3, Hk. reflexivity.
Qed.
End Construction.

(** ** [from_config] *)

Section FromConfig.
Context {C : Collaborators}.

Lemma has_pair_rbrace (s : string) :
  has_placeholder_pair s = true -> str_contains ch_rbrace s = true.
Proof.
  induction s as [|c s IH]; cbn [has_placeholder_pair str_contains]; [discriminate|].
  intros H. apply orb_prop in H. destruct H as [H|H].
  - apply andb_prop in H. destruct H as [_ H]. rewrite H. apply orb_true_r.
  - rewrite (IH H). apply orb_true_r.
Qed.

Lemma in_dict_keys {V} (k : string) (v : V) (d : list (string * V)) :
  In (k, v) d -> In k (dict_keys d).
Proof. intros H. unfold dict_keys. apply (in_map fst) in H. exact H. Qed.

Lemma dict_get_in_nodup {V} (k : string) (v : V) (d : list (string * V)) :
  NoDup (dict_keys d) -> In (k, v) d -> dict_get k d = Some v.
Proof.
  induction d as [|[k0 v0] d IH]; intros Hnd Hin; [destruct Hin|].
  cbn [dict_keys map fst] in Hnd. apply NoDup_cons in Hnd. destruct Hnd as [Hk Hnd].
  cbn [dict_get]. destruct Hin as [E|Hin].
  - injection E as -> ->. rewrite String.eqb_refl. reflexivity.
  - destruct (String.eqb_spec k0 k) as [->|Hne]; [|apply IH; assumption].
    exfalso. apply Hk. apply list_elem_of_In. eapply in_dict_keys. exact Hin.
Qed.

(** The loop of [from_config]: what it leaves in the three dicts and
    in the store. *)
Lemma from_config_loop_spec (credentials : config)
    (load_versions : list (string * string)) (save_version : string)
    (catalog : list (string * config)) :
  forall (acc : built) (st : Store) (b : built) (st' : Store),
  from_config_loop catalog credentials load_versions save_version acc st
  = (Ret b, st') ->
  NoDup (dict_keys catalog) ->
  (exists more, heap st' = heap st ++ more)
  /\ (forall name, ~ In name (dict_keys catalog) ->
        dict_get name (b_data_sets b) = dict_get name (b_data_sets acc)
        /\ dict_get name (b_patterns b) = dict_get name (b_patterns acc))
  /\ (forall name cfg, In (name, cfg) catalog ->
        if str_contains ch_rbrace name then
          dict_get name (b_patterns b) = Some cfg
          /\ dict_get name (b_data_sets b) = dict_get name (b_data_sets acc)
        else
          dict_get name (b_patterns b) = dict_get name (b_patterns acc)
          /\ exists l ds cfg',
               dict_get name (b_data_sets b) = Some l
               /\ heap st' !! l = Some (OInstance ds)
               /\ heap st !! l = None
               /\ _resolve_credentials (dict_del "layer" cfg) credentials = Ret cfg'
               /\ AbstractDataSet_from_config name cfg'
                    (dict_get name load_versions) (Some save_version) = inr ds).
Proof.
  induction catalog as [|[n0 c0] catalog IH]; intros acc st b st' Hrun Hnd.
  - cbn [from_config_loop] in Hrun. injection Hrun as <- <-.
    split; [exists []; rewrite app_nil_r; reflexivity|].
    split; [auto|]. intros name cfg [].
  - cbn [dict_keys map fst] in Hnd. apply NoDup_cons in Hnd.
    destruct Hnd as [Hn0 Hnd]. rewrite list_elem_of_In in Hn0.
    cbn [from_config_loop] in Hrun.
    destruct (str_contains ch_rbrace n0) eqn:Hpat.
    + (* a pattern *)
      destruct (IH _ _ _ _ Hrun Hnd) as (Hext & Hout & Hin).
      cbn [b_data_sets b_patterns] in Hout, Hin.
      split; [exact Hext|]. split.
      * intros name Hname. cbn [dict_keys map fst] in Hname.
        destruct (Hout name) as [H1 H2];
          [intros Hx; apply Hname; right; exact Hx|].
        split; [exact H1|]. rewrite H2. apply dict_get_set_ne.
        intros ->. apply Hname. left. reflexivity.
      * intros name cfg [E|Hi].
        -- injection E as <- <-. rewrite Hpat.
           destruct (Hout n0 Hn0) as [H1 H2].
           split; [|exact H1]. rewrite H2. apply dict_get_set_eq.
        -- specialize (Hin name cfg Hi).
           assert (Hne : n0 <> name).
           { intros ->. apply Hn0. eapply in_dict_keys. exact Hi. }
           destruct (str_contains ch_rbrace name).
           ++ exact Hin.
           ++ destruct Hin as [H1 H2]. split; [|exact H2].
              rewrite H1. apply dict_get_set_ne. exact Hne.
    + (* an exact registration *)
      unfold bind at 1 in Hrun.
      destruct ((match dict_get "layer" c0 with
                 | Some VNone | None => ret (b_layers acc)
                 | Some v =>
                     if is_hashable v
                     then ret (layers_add v n0 (b_layers acc))
                     else raise (TypeError (unhashable v))
                 end) st) as [[layers'|e] st0] eqn:Hlay; [|discriminate].
      assert (st0 = st) as ->.
      { destruct (dict_get "layer" c0) as [[| | | | |]|];
          cbn in Hlay; try (injection Hlay as _ <-; reflexivity). }
      unfold bind at 1 in Hrun. unfold lift at 1 in Hrun.
      destruct (_resolve_credentials (dict_del "layer" c0) credentials)
        as [cfg'|e] eqn:Hcred; [|discriminate].
      destruct (AbstractDataSet_from_config n0 cfg' (dict_get n0 load_versions)
                  (Some save_version)) as [msg|ds] eqn:Hds; [discriminate|].
      unfold bind at 1 in Hrun. unfold alloc at 1 in Hrun.
      destruct (IH _ _ _ _ Hrun Hnd) as ([more Hext] & Hout & Hin).
      cbn [b_data_sets b_patterns heap] in Hext, Hout, Hin.
      split; [exists (OInstance ds :: more); rewrite Hext, <- app_assoc; reflexivity|].
      split.
      * intros name Hname. cbn [dict_keys map fst] in Hname.
        destruct (Hout name) as [H1 H2];
          [intros Hx; apply Hname; right; exact Hx|].
        split; [|exact H2]. rewrite H1. apply dict_get_set_ne.
        intros ->. apply Hname. left. reflexivity.
      * intros name cfg [E|Hi].
        -- injection E as <- <-. rewrite Hpat.
           destruct (Hout n0 Hn0) as [H1 H2].
           split; [exact H2|].
           exists (length (heap st)), ds, cfg'.
           split; [rewrite H1; apply dict_get_set_eq|].
           split; [|split; [apply lookup_ge_None; lia|split; assumption]].
           rewrite Hext. apply lookup_app_l_Some.
           rewrite lookup_app_r by lia. rewrite Nat.sub_diag. reflexivity.
        -- specialize (Hin name cfg Hi).
           assert (Hne : n0 <> name).
           { intros ->. apply Hn0. eapply in_dict_keys. exact Hi. }
           destruct (str_contains ch_rbrace name).
           ++ destruct Hin as [H1 H2]. split; [exact H1|].
              rewrite H2. apply dict_get_set_ne. exact Hne.
           ++ destruct Hin as [H1 (l & ds' & cfg'' & G1 & G2 & G3 & G4 & G5)].
              split; [exact H1|]. exists l, ds', cfg''.
              repeat split; try assumption.
              apply lookup_ge_None. apply lookup_ge_None in G3.
              rewrite length_app in G3. lia.
Qed.

(** [from_config] after the loop: the dicts become objects and the
    constructor makes the registry. *)
Lemma from_config_finish (st : Store) (b : built) :
  exists self st' c' more,
    (data_sets <- alloc (ODatasets (b_data_sets b)) ;;
     dataset_layers <- match b_layers b with
                       | [] => ret None
                       | l => x <- alloc (OLayers l) ;; ret (Some x)
                       end ;;
     dataset_patterns <- alloc (OPatterns (b_patterns b)) ;;
     DataCatalog_init (Some data_sets) None dataset_layers (Some dataset_patterns)) st
    = (Ret self, st')
    /\ heap st' = heap st ++ more
    /\ registry_at st' self c' (b_data_sets b) (normalised (b_data_sets b))
         (b_patterns b) [].
Proof.
  unfold bind at 1. unfold alloc at 1.
  set (st1 := {| heap := heap st ++ [ODatasets (b_data_sets b)];
                 parse_calls := parse_calls st |}).
  assert (H1 : heap st1 !! length (heap st) = Some (ODatasets (b_data_sets b))).
  { unfold st1. cbn [heap]. rewrite lookup_app_r by lia.
    rewrite Nat.sub_diag. reflexivity. }
  assert (Hfin : forall st2 lay more2,
             heap st2 = heap st1 ++ more2 ->
             exists self st' c' more,
               (dataset_patterns <- alloc (OPatterns (b_patterns b)) ;;
                DataCatalog_init (Some (length (heap st))) None lay
                  (Some dataset_patterns)) st2 = (Ret self, st')
               /\ heap st' = heap st ++ more
               /\ registry_at st' self c' (b_data_sets b)
                    (normalised (b_data_sets b)) (b_patterns b) []).
  { intros st2 lay more2 E2. unfold bind, alloc.
    set (st3 := {| heap := heap st2 ++ [OPatterns (b_patterns b)];
                   parse_calls := parse_calls st2 |}).
    assert (Hd3 : heap st3 !! length (heap st) = Some (ODatasets (b_data_sets b))).
    { unfold st3. cbn [heap]. rewrite E2.
      apply lookup_app_l_Some, lookup_app_l_Some. exact H1. }
    assert (Hp3 : heap st3 !! length (heap st2) = Some (OPatterns (b_patterns b))).
    { unfold st3. cbn [heap]. rewrite lookup_app_r by lia.
      rewrite Nat.sub_diag. reflexivity. }
    rewrite (init_run st3 _ _ lay _ _ Hd3 Hp3).
    destruct (lookup_new_registry (heap st3) (b_data_sets b) lay (b_patterns b))
      as (N0 & N1 & N2 & N3 & N4).
    eexists _, _, _, _. split; [reflexivity|]. split.
    - cbn [heap]. unfold st3. cbn [heap]. rewrite E2. unfold st1. cbn [heap].
      rewrite <- !app_assoc. reflexivity.
    - unfold registry_at. cbn [heap new_catalog _data_sets datasets
        dataset_patterns _pattern_matches_cache].
      split; [exact N4|]. cbn [new_catalog _data_sets datasets
        dataset_patterns _pattern_matches_cache].
      repeat split; try assumption. apply NoDup_normalised. }
  destruct (b_layers b) as [|x l].
  - unfold bind at 1. unfold ret at 1.
    apply (Hfin st1 None []). rewrite app_nil_r. reflexivity.
  - unfold bind at 1. unfold bind at 1. unfold alloc at 1. unfold ret at 1.
    eapply (Hfin _ _ [OLayers (x :: l)]). reflexivity.
Qed.

Lemma from_config_ok (timestamp : string)
    (catalog : option (list (string * config))) (credentials : option config)
    (load_versions : option (list (string * string)))
    (save_version : option string) (st : Store) (self : loc) (st' : Store) :
  from_config timestamp catalog credentials load_versions save_version st
  = (Ret self, st') ->
  exists b st_b c' more,
    from_config_loop (or_empty catalog) (or_empty credentials)
      (or_empty load_versions) (shared_save_version timestamp save_version)
      {| b_data_sets := []; b_patterns := []; b_layers := [] |} st
    = (Ret b, st_b)
    /\ heap st' = heap st_b ++ more
    /\ registry_at st' self c' (b_data_sets b) (normalised (b_data_sets b))
         (b_patterns b) [].
Proof.
  unfold from_config, deepcopy. cbv zeta.
  destruct (List.filter _ _); [|discriminate].
  unfold bind at 1.
  destruct (from_config_loop (or_empty catalog) (or_empty credentials)
              (or_empty load_versions)
              (shared_save_version timestamp save_version)
              {| b_data_sets := []; b_patterns := []; b_layers := [] |} st)
    as [[b|e] st_b]; [|discriminate].
  intros Hrun.
  destruct (from_config_finish st_b b) as (self0 & st0 & c' & more & Hf & Hh & Hreg).
  rewrite Hf in Hrun. injection Hrun as <- <-.
  exists b, st_b, c', more. auto.
Qed.

(** C4, as the code has it.  In a registry built from a configuration
    (a dict: its names are distinct), an entry whose name contains "}"
    (in particular a name with a pair of placeholder delimiters) is
    not an exact registration: it is in the pattern table with its
    config as it was given.  Every other entry is registered under its
    name with an instance built, during the construction, from its
    config without the key "layer" and with credentials resolved, the
    load version that [load_versions] gives for the name, and the
    shared save version. *)
Theorem from_config_entries (timestamp : string)
    (catalog : option (list (string * config))) (credentials : option config)
    (load_versions : option (list (string * string)))
    (save_version : option string) (st : Store) (self : loc) (st' : Store) :
  NoDup (dict_keys (or_empty catalog)) ->
  from_config timestamp catalog credentials load_versions save_version st
  = (Ret self, st') ->
  forall name cfg, In (name, cfg) (or_empty catalog) ->
    (has_placeholder_pair name = true -> str_contains ch_rbrace name = true)
    /\ if str_contains ch_rbrace name then
         dict_get name (pattern_table st' self) = Some cfg
         /\ dict_mem name (exact_map st' self) = false
       else
         dict_mem name (pattern_table st' self) = false
         /\ exists l ds cfg',
              dict_get name (exact_map st' self) = Some l
              /\ heap st' !! l = Some (OInstance ds)
              /\ heap st !! l = None
              /\ _resolve_credentials (dict_del "layer" cfg) (or_empty credentials)
                 = Ret cfg'
              /\ AbstractDataSet_from_config name cfg'
                   (dict_get name (or_empty load_versions))
                   (Some (shared_save_version timestamp save_version)) = inr ds.
Proof.
  intros Hnd Hrun name cfg Hin.
  split; [apply has_pair_rbrace|].
  destruct (from_config_ok _ _ _ _ _ _ _ _ Hrun)
    as (b & st_b & c' & more & Hloop & Hheap & Hreg).
  destruct (registry_at_readers _ _ _ _ _ _ _ Hreg) as (-> & _ & -> & _).
  destruct (from_config_loop_spec _ _ _ _ _ _ _ _ Hloop Hnd) as (_ & _ & Hent).
  specialize (Hent name cfg Hin). cbn [b_data_sets b_patterns dict_get] in Hent.
  destruct (str_contains ch_rbrace name).
  - destruct Hent as [H1 H2]. split; [exact H1|]. apply dict_mem_false. exact H2.
  - destruct Hent as [H1 (l & ds & cfg' & G1 & G2 & G3 & G4 & G5)].
    split; [apply dict_mem_false; exact H1|].
    exists l, ds, cfg'. repeat split; try assumption.
    rewrite Hheap. apply lookup_app_l_Some. exact G2.
Qed.

(** C7. When [load_versions] names a dataset that the configuration
    does not hold, [from_config] raises [DatasetNotFoundError], whose
    message lists the missing names in order, and the store is the one
    before the call: no instance has been built. *)
Theorem from_config_missing_load_version (timestamp : string)
    (catalog : option (list (string * config))) (credentials : option config)
    (load_versions : option (list (string * string)))
    (save_version : option string) (st : Store) (name : string) :
  In name (dict_keys (or_empty load_versions)) ->
  dict_mem name (or_empty catalog) = false ->
  let missing_keys :=
    List.filter (fun k => negb (dict_mem k (or_empty catalog)))
      (dict_keys (or_empty load_versions)) in
  In name missing_keys
  /\ from_config timestamp catalog credentials load_versions save_version st
     = (Raise (DatasetNotFoundError (missing_keys_message missing_keys)), st).
Proof.
  intros Hin Hmiss missing_keys.
  assert (Hm : In name missing_keys).
  { unfold missing_keys. apply filter_In. split; [exact Hin|].
    rewrite Hmiss. reflexivity. }
  split; [exact Hm|].
  unfold from_config, deepcopy. cbv zeta. fold missing_keys.
  destruct missing_keys; [destruct Hm|reflexivity].
Qed.
End FromConfig.

(** ** [_resolve_dataset] *)

Section ResolveDataset.
Context {C : Collaborators}.

End ResolveDataset.

(** ** The order of the patterns *)

Section PatternOrder.
Context {C : Collaborators}.

(** The first match in a list is a pattern that parses the name, and
    no pattern before it in the list does. *)
Lemma first_match_first (name : string) (l : list string) (p : string) (n : nat) :
  first_match name l = (Some p, n) ->
  exists l1 l2, l = l1 ++ p :: l2 /\ parse p name <> None
                /\ forall q, In q l1 -> parse q name = None.
Proof.
  revert n. induction l as [|q l IH]; intros n H; cbn [first_match] in H.
  - discriminate.
  - destruct (parse q name) eqn:E.
    + injection H as <- <-. exists [], l. split; [reflexivity|].
      split; [congruence|]. intros q' [].
    + destruct (first_match name l) as [m k]. injection H as -> <-.
      destruct (IH k eq_refl) as (l1 & l2 & -> & Hp & Hb).
      exists (q :: l1), l2. split; [reflexivity|]. split; [exact Hp|].
      intros q' [<-|Hq]; [exact E|apply Hb; exact Hq].
Qed.

Lemma strongly_sorted_split (l1 l2 : list string) (p q : string) :
  StronglySorted precedes (l1 ++ p :: l2) -> In q l2 -> precedes p q.
Proof.
  induction l1 as [|a l1 IH]; cbn [app]; intros H Hq.
  - apply StronglySorted_inv in H. destruct H as [_ H].
    rewrite List.Forall_forall in H. apply H. exact Hq.
  - apply StronglySorted_inv in H. destruct H as [H _]. apply IH; assumption.
Qed.

(** C1, as the code has it.  The list of patterns that a catalog keeps
    is its pattern names sorted so that a pattern stands before another
    when it has more literal characters or, with as many, more "{"
    or, with as many of both, is not after it in the order of
    strings.  The list depends on the set of names only, not on the
    order in which they were given.  The match for a name is the
    pattern that stands before every other pattern that parses the
    name.  The constructor stores the list, and no call changes it. *)
Theorem pattern_precedence (keys : list string) :
  Permutation keys (sort_patterns keys)
  /\ StronglySorted precedes (sort_patterns keys)
  /\ (forall keys', Permutation keys keys' ->
                    sort_patterns keys' = sort_patterns keys)
  /\ (forall name p n,
        first_match name (sort_patterns keys) = (Some p, n) ->
        In p keys /\ parse p name <> None
        /\ forall q, In q keys -> parse q name <> None -> precedes p q)
  /\ (forall st ld lp lay items pats self st',
        heap st !! ld = Some (ODatasets items) ->
        heap st !! lp = Some (OPatterns pats) ->
        dict_keys pats = keys ->
        DataCatalog_init (Some ld) None lay (Some lp) st = (Ret self, st') ->
        exists c,
          heap st' !! self = Some (OCatalog c)
          /\ _sorted_dataset_patterns c = sort_patterns keys
          /\ forall calls, exists c',
                heap (exec_all calls st') !! self = Some (OCatalog c')
                /\ _sorted_dataset_patterns c' = sort_patterns keys).
Proof.
  split; [apply sort_patterns_perm|].
  split; [apply sort_patterns_sorted|].
  split; [|split].
  - intros keys' HP. apply strongly_sorted_unique; try apply sort_patterns_sorted.
    rewrite <- (sort_patterns_perm keys'), <- (sort_patterns_perm keys).
    symmetry. exact HP.
  - intros name p n Hm.
    destruct (first_match_first _ _ _ _ Hm) as (l1 & l2 & E & Hp & Hb).
    assert (Hin : forall q, In q keys <-> In q (l1 ++ p :: l2)).
    { intros q. rewrite <- E. split; apply Permutation_in;
        [|symmetry]; apply sort_patterns_perm. }
    split; [apply Hin, in_elt|]. split; [exact Hp|].
    intros q Hq Hqm. apply Hin in Hq. apply in_app_or in Hq.
    destruct Hq as [Hq|[<-|Hq]].
    + exfalso. apply Hqm, Hb, Hq.
    + apply precedes_refl.
    + eapply strongly_sorted_split; [|exact Hq].
      rewrite <- E. apply sort_patterns_sorted.
  - intros st ld lp lay items pats self st' Hd Hp <- Hinit.
    rewrite (init_run st ld lp lay items pats Hd Hp) in Hinit.
    injection Hinit as <- <-.
    destruct (lookup_new_registry (heap st) items lay pats) as (_ & _ & _ & _ & N4).
    eexists. split; [exact N4|]. split; [reflexivity|].
    intros calls.
    destruct (exec_all_monotone calls
                {| heap := heap st ++ new_registry (length (heap st)) items lay pats;
                   parse_calls := parse_calls st |} _ _ N4) as (o' & Ho' & Hle).
    destruct o'; cbn in Hle; try contradiction.
    destruct Hle as (_ & _ & _ & E & _).
    eexists. split; [exact Ho'|]. rewrite <- E. reflexivity.
Qed.
End PatternOrder.

(** ** Credential resolution on the object graph *)

Module ObjectGraphFacts.
Import ObjectGraph.

Lemma represents_list (h : list cell) (ts : list value) (v : ref_value) :
  represents h (VList ts) v <->
  exists l xs, v = RRef l /\ h !! l = Some (CList xs)
               /\ List.Forall2 (represents h) ts xs.
Proof.
  cbn [represents].
  assert (E : forall ts xs,
             (fix all2 (ts : list value) (xs : list ref_value) : Prop :=
                match ts, xs with
                | [], [] => True
                | t' :: ts', x :: xs' => represents h t' x /\ all2 ts' xs'
                | _, _ => False
                end) ts xs <-> List.Forall2 (represents h) ts xs).
  { clear. induction ts as [|t ts IH]; intros [|x xs]; split; intros H.
    - constructor.
    - exact I.
    - destruct H.
    - inversion H.
    - destruct H.
    - inversion H.
    - destruct H as [H1 H2]. constructor; [exact H1|apply IH; exact H2].
    - inversion H; subst. split; [assumption|apply IH; assumption]. }
  split; intros (l & xs & H1 & H2 & H3); exists l, xs;
    (split; [exact H1|split; [exact H2|apply E; exact H3]]).
Qed.

Lemma represents_dict (h : list cell) (ts : list (string * value)) (v : ref_value) :
  represents h (VDict ts) v <->
  exists l items, v = RRef l /\ h !! l = Some (CDict items)
                  /\ List.Forall2 (item_represents h) ts items.
Proof.
  cbn [represents].
  assert (E : forall ts xs,
             (fix all2 (ts : list (string * value)) (xs : list (string * ref_value))
                : Prop :=
                match ts, xs with
                | [], [] => True
                | t' :: ts', x :: xs' =>
                    fst t' = fst x /\ represents h (snd t') (snd x) /\ all2 ts' xs'
                | _, _ => False
                end) ts xs <-> List.Forall2 (item_represents h) ts xs).
  { clear. induction ts as [|t ts IH]; intros [|x xs]; split; intros H.
    - constructor.
    - exact I.
    - destruct H.
    - inversion H.
    - destruct H.
    - inversion H.
    - destruct H as (H1 & H2 & H3).
      constructor; [split; assumption|apply IH; exact H3].
    - inversion H as [|? ? ? ? [H1 H2] H3]; subst.
      split; [exact H1|]. split; [exact H2|]. apply IH. exact H3. }
  split; intros (l & xs & H1 & H2 & H3); exists l, xs;
    (split; [exact H1|split; [exact H2|apply E; exact H3]]).
Qed.

(** A tree of the heap is still there when the heap has grown. *)
Lemma represents_ext (more : list cell) (t : value) :
  forall h v, represents h t v -> represents (h ++ more) t v.
Proof.
  induction t as [| b | z | s | ts IH | items IH] using value_induction;
    intros h v H; try exact H.
  - apply represents_list in H. destruct H as (l & xs & -> & Hl & Hxs).
    apply represents_list. exists l, xs. split; [reflexivity|].
    split; [apply lookup_app_l_Some; exact Hl|].
    clear Hl. revert xs Hxs. induction IH as [|t ts Ht _ IHts]; intros xs Hxs;
      inversion Hxs; subst; constructor; auto.
  - apply represents_dict in H. destruct H as (l & xs & -> & Hl & Hxs).
    apply represents_dict. exists l, xs. split; [reflexivity|].
    split; [apply lookup_app_l_Some; exact Hl|].
    clear Hl. revert xs Hxs. induction IH as [|t ts Ht _ IHts]; intros xs Hxs;
      inversion Hxs as [|? ? ? ? [H1 H2] H3]; subst; constructor; auto.
    split; [exact H1|]. apply Ht. exact H2.
Qed.

Lemma forall2_represents_ext (h more : list cell) (ts : list value)
    (xs : list ref_value) :
  List.Forall2 (represents h) ts xs -> List.Forall2 (represents (h ++ more)) ts xs.
Proof.
  induction 1; constructor; [apply represents_ext; assumption|assumption].
Qed.

Lemma forall2_items_ext (h more : list cell) (ts : list (string * value))
    (xs : list (string * ref_value)) :
  List.Forall2 (item_represents h) ts xs ->
  List.Forall2 (item_represents (h ++ more)) ts xs.
Proof.
  induction 1 as [|t x ts xs [H1 H2] _ IH]; constructor; [|exact IH].
  split; [exact H1|apply represents_ext; exact H2].
Qed.

Lemma depth_list_le (ts : list value) (n : nat) :
  (depth (VList ts) <= S n)%nat -> List.Forall (fun t => (depth t <= n)%nat) ts.
Proof.
  cbn [depth]. intros H. apply le_S_n in H.
  induction ts as [|t ts IH]; constructor; cbn [fold_right] in H; [lia|].
  apply IH. lia.
Qed.

Lemma depth_dict_le (items : list (string * value)) (n : nat) :
  (depth (VDict items) <= S n)%nat ->
  List.Forall (fun kv => (depth (snd kv) <= n)%nat) items.
Proof.
  cbn [depth]. intros H. apply le_S_n in H.
  induction items as [|t ts IH]; constructor; cbn [fold_right] in H; [lia|].
  apply IH. lia.
Qed.

(** [copy.deepcopy] returns, allocates only, and its result is the
    tree of its argument. *)
Lemma deepcopy_ok (t : value) :
  forall fuel v h,
    represents h t v -> (depth t <= fuel)%nat ->
    exists v' more,
      deepcopy_ref fuel v h = Some (v', h ++ more)
      /\ represents (h ++ more) t v'.
Proof.
  induction t as [| b | z | s | ts IH | items IH] using value_induction;
    intros fuel v h H Hfuel;
    try (cbn [represents] in H; subst v; eexists; exists [];
         destruct fuel; cbn [deepcopy_ref]; rewrite app_nil_r;
         split; reflexivity).
  - apply represents_list in H. destruct H as (l & xs & -> & Hl & Hxs).
    destruct fuel as [|n]; [cbn [depth] in Hfuel; lia|].
    apply depth_list_le in Hfuel.
    assert (Hcopy : exists xs' more,
               copy_elements (deepcopy_ref n) xs h = Some (xs', h ++ more)
               /\ List.Forall2 (represents (h ++ more)) ts xs').
    { clear Hl. revert h xs Hxs.
      induction IH as [|t ts Ht _ IHts]; intros h xs Hxs; inversion Hxs; subst.
      - exists [], []. rewrite app_nil_r. split; [reflexivity|constructor].
      - apply List.Forall_cons_iff in Hfuel. destruct Hfuel as [Hd Hds].
        match goal with
        | H1 : represents h t ?y, H2 : List.Forall2 _ ts ?l' |- _ =>
            destruct (Ht n y h H1 Hd) as (x' & m1 & Hx & Hrx);
            destruct (IHts Hds (h ++ m1) l' (forall2_represents_ext _ _ _ _ H2))
              as (xs' & m2 & Hxs' & Hrxs)
        end.
        exists (x' :: xs'), (m1 ++ m2). cbn [copy_elements].
        rewrite Hx, Hxs', app_assoc. split; [reflexivity|].
        constructor; [|exact Hrxs]. apply represents_ext. exact Hrx. }
    destruct Hcopy as (xs' & more & Hc & Hr).
    exists (RRef (length (h ++ more))), (more ++ [CList xs']).
    cbn [deepcopy_ref]. rewrite Hl, Hc, app_assoc. split; [reflexivity|].
    apply represents_list. exists (length (h ++ more)), xs'.
    split; [reflexivity|]. split.
    + rewrite lookup_app_r by lia. rewrite Nat.sub_diag. reflexivity.
    + apply forall2_represents_ext. exact Hr.
  - apply represents_dict in H. destruct H as (l & xs & -> & Hl & Hxs).
    destruct fuel as [|n]; [cbn [depth] in Hfuel; lia|].
    apply depth_dict_le in Hfuel.
    assert (Hcopy : exists xs' more,
               copy_items (deepcopy_ref n) xs h = Some (xs', h ++ more)
               /\ List.Forall2 (item_represents (h ++ more)) items xs').
    { clear Hl. revert h xs Hxs.
      induction IH as [|t ts Ht _ IHts]; intros h xs Hxs;
        inversion Hxs as [|? y ? l' [Hk Hv] Hrest]; subst.
      - exists [], []. rewrite app_nil_r. split; [reflexivity|constructor].
      - apply List.Forall_cons_iff in Hfuel. destruct Hfuel as [Hd Hds].
        destruct (Ht n (snd y) h Hv Hd) as (x' & m1 & Hx & Hrx).
        destruct (IHts Hds (h ++ m1) l' (forall2_items_ext _ _ _ _ Hrest))
          as (xs' & m2 & Hxs' & Hrxs).
        exists ((fst y, x') :: xs'), (m1 ++ m2). cbn [copy_items].
        rewrite Hx, Hxs', app_assoc. split; [reflexivity|].
        constructor; [|exact Hrxs].
        split; [exact Hk|]. apply represents_ext. exact Hrx. }
    destruct Hcopy as (xs' & more & Hc & Hr).
    exists (RRef (length (h ++ more))), (more ++ [CDict xs']).
    cbn [deepcopy_ref]. rewrite Hl, Hc, app_assoc. split; [reflexivity|].
    apply represents_dict. exists (length (h ++ more)), xs'.
    split; [reflexivity|]. split.
    + rewrite lookup_app_r by lia. rewrite Nat.sub_diag. reflexivity.
    + apply forall2_items_ext. exact Hr.
Qed.

Lemma table_get (h : list cell) (table_tree : config)
    (table : list (string * ref_value)) (s : string) :
  List.Forall2 (item_represents h) table_tree table ->
  match dict_get s table_tree with
  | Some tc => exists c, dict_get s table = Some c /\ represents h tc c
  | None => dict_get s table = None
  end.
Proof.
  induction 1 as [|[k t] [k' x] ts xs [Hk Hr] _ IH]; cbn [dict_get]; [reflexivity|].
  cbn [fst snd] in Hk, Hr. subst k'.
  destruct (String.eqb k s); [eauto|exact IH].
Qed.

Lemma map_items_refines (table_tree : config) (credentials : loc) (n : nat)
    (items : config) :
  List.Forall (fun kv => map_value_refines table_tree credentials (snd kv)) items ->
  List.Forall (fun kv => (depth (snd kv) <= n)%nat) items ->
  forall h xs,
    List.Forall2 (item_represents h) items xs ->
    represents h (VDict table_tree) (RRef credentials) ->
    exists r more,
      map_items_ref (map_value_ref n credentials) xs h = Some (r, h ++ more)
      /\ match map_items (_map_value table_tree) items with
         | Ret items' =>
             exists xs', r = Ret xs'
                         /\ List.Forall2 (item_represents (h ++ more)) items' xs'
         | Raise e => r = Raise e
         end.
Proof.
  induction 1 as [|[k t] ts Ht _ IH]; intros Hd h xs Hxs Hcred;
    inversion Hxs as [|? [k' x] ? xs0 [Hk Hv] Hrest]; subst.
  - exists (Ret []), []. rewrite app_nil_r. split; [reflexivity|].
    cbn [map_items]. exists []. split; [reflexivity|constructor].
  - apply List.Forall_cons_iff in Hd. destruct Hd as [Hdt Hds].
    cbn [fst snd] in Hk, Hv, Ht, Hdt. subst k'.
    destruct (Ht n k x h Hv Hcred Hdt) as (r1 & m1 & Hrun1 & Hres1).
    cbn [map_items_ref map_items fst snd]. rewrite Hrun1.
    destruct (_map_value table_tree k t) as [t'|e].
    + destruct Hres1 as (v' & -> & Hv').
      destruct (IH Hds (h ++ m1) xs0 (forall2_items_ext _ _ _ _ Hrest)
                  (represents_ext m1 _ _ _ Hcred)) as (r2 & m2 & Hrun2 & Hres2).
      rewrite Hrun2.
      destruct (map_items (_map_value table_tree) ts) as [items'|e].
      * destruct Hres2 as (xs' & -> & Hxs').
        exists (Ret ((k, v') :: xs')), (m1 ++ m2). rewrite app_assoc.
        split; [reflexivity|]. eexists. split; [reflexivity|].
        constructor; [|exact Hxs'].
        split; [reflexivity|]. apply represents_ext. exact Hv'.
      * subst r2. exists (Raise e), (m1 ++ m2). rewrite app_assoc.
        split; reflexivity.
    + subst r1. exists (Raise e), m1. split; reflexivity.
Qed.

Lemma map_value_ok (table_tree : config) (credentials : loc) (t : value) :
  map_value_refines table_tree credentials t.
Proof.
  induction t as [| b | z | s | ts _ | items IH] using value_induction;
    intros fuel key v h H Hcred Hfuel;
    try (cbn [represents] in H; subst v;
         destruct fuel; eexists; exists []; rewrite app_nil_r;
         (split; [reflexivity|]); eexists; split; reflexivity).
  - cbn [represents] in H. subst v.
    assert (E : map_value_ref fuel credentials key (RStr s) h
                = if String.eqb key CREDENTIALS_KEY
                  then get_credentials_ref s credentials h
                  else Some (Ret (RStr s), h)) by (destruct fuel; reflexivity).
    rewrite E. cbn [_map_value].
    destruct (String.eqb key CREDENTIALS_KEY).
    + apply represents_dict in Hcred.
      destruct Hcred as (l & table & El & Hl & Htable). injection El as <-.
      pose proof (table_get h table_tree table s Htable) as Hget.
      unfold get_credentials_ref, _get_credentials. rewrite Hl.
      destruct (dict_get s table_tree) as [tc|].
      * destruct Hget as (c & -> & Hc). exists (Ret c), [].
        rewrite app_nil_r. split; [reflexivity|]. eauto.
      * rewrite Hget. eexists _, []. rewrite app_nil_r. split; reflexivity.
    + exists (Ret (RStr s)), []. rewrite app_nil_r. split; [reflexivity|].
      exists (RStr s). split; reflexivity.
  - pose proof H as H'. apply represents_list in H.
    destruct H as (l & xs & -> & Hl & Hxs).
    exists (Ret (RRef l)), []. rewrite app_nil_r.
    split; [destruct fuel; cbn [map_value_ref]; rewrite Hl; reflexivity|].
    exists (RRef l). split; [reflexivity|exact H'].
  - apply represents_dict in H. destruct H as (l & xs & -> & Hl & Hxs).
    destruct fuel as [|n]; [cbn [depth] in Hfuel; lia|].
    apply depth_dict_le in Hfuel.
    destruct (map_items_refines table_tree credentials n items IH Hfuel h xs Hxs Hcred)
      as (r & more & Hrun & Hres).
    cbn [map_value_ref]. rewrite Hl, Hrun. rewrite map_value_dict.
    destruct (map_items (_map_value table_tree) items) as [items'|e].
    + destruct Hres as (xs' & -> & Hxs').
      exists (Ret (RRef (length (h ++ more)))), (more ++ [CDict xs']).
      rewrite app_assoc. split; [reflexivity|].
      eexists. split; [reflexivity|].
      apply represents_dict. exists (length (h ++ more)), xs'.
      split; [reflexivity|]. split.
      * rewrite lookup_app_r by lia. rewrite Nat.sub_diag. reflexivity.
      * apply forall2_items_ext. exact Hxs'.
    + subst r. exists (Raise e), more. split; reflexivity.
Qed.

(** C9. Credential resolution does not change its inputs.  On a heap
    in which the object [cfg] is the configuration [t] and the object
    [credentials] is the table [table], the call returns (with fuel
    for the depth of the configuration); every object of the heap
    before the call is in the heap after it, as it was, so that [cfg]
    still is [t] and [credentials] still is [table]; and the result is
    the one of [_resolve_credentials] on the trees, in a new object. *)
Theorem resolve_credentials_pure (h : list cell) (cfg credentials : loc)
    (t table : config) (fuel : nat) :
  represents h (VDict t) (RRef cfg) ->
  represents h (VDict table) (RRef credentials) ->
  (depth (VDict t) <= fuel)%nat ->
  exists r h',
    resolve_credentials_ref fuel cfg credentials h = Some (r, h')
    /\ (forall l o, h !! l = Some o -> h' !! l = Some o)
    /\ represents h' (VDict t) (RRef cfg)
    /\ represents h' (VDict table) (RRef credentials)
    /\ match _resolve_credentials t table with
       | Ret t' =>
           exists l, r = Ret l /\ h !! l = None
                     /\ represents h' (VDict t') (RRef l)
       | Raise e => r = Raise e
       end.
Proof.
  intros Hcfg Hcred Hfuel.
  destruct (deepcopy_ok (VDict t) fuel (RRef cfg) h Hcfg Hfuel)
    as (v' & m0 & Hcopy & Hrep0).
  apply represents_dict in Hrep0.
  destruct Hrep0 as (l0 & items & -> & Hl0 & Hitems).
  assert (Hd : List.Forall (fun kv => (depth (snd kv) <= fuel)%nat) t).
  { destruct fuel as [|n]; [cbn [depth] in Hfuel; lia|].
    apply depth_dict_le in Hfuel.
    eapply List.Forall_impl; [|exact Hfuel]. cbn. intros. lia. }
  assert (Hall : List.Forall
                   (fun kv => map_value_refines table credentials (snd kv)) t).
  { apply List.Forall_forall. intros kv _. apply map_value_ok. }
  destruct (map_items_refines table credentials fuel t Hall Hd (h ++ m0) items
              Hitems (represents_ext m0 _ _ _ Hcred))
    as (r & m1 & Hrun & Hres).
  unfold resolve_credentials_ref. rewrite Hcopy, Hl0, Hrun.
  unfold _resolve_credentials, deepcopy.
  destruct (map_items (_map_value table) t) as [t'|e].
  - destruct Hres as (xs' & -> & Hxs').
    eexists _, _. split; [reflexivity|].
    split; [intros l o Ho; rewrite <- !app_assoc; apply lookup_app_l_Some; exact Ho|].
    split; [rewrite <- !app_assoc; apply represents_ext; exact Hcfg|].
    split; [rewrite <- !app_assoc; apply represents_ext; exact Hcred|].
    eexists. split; [reflexivity|]. split.
    + apply lookup_ge_None. rewrite !length_app. lia.
    + apply represents_dict. exists (length ((h ++ m0) ++ m1)), xs'.
      split; [reflexivity|]. split.
      * rewrite lookup_app_r by lia. rewrite Nat.sub_diag. reflexivity.
      * apply forall2_items_ext. exact Hxs'.
  - subst r. eexists _, _. split; [reflexivity|].
    split; [intros l o Ho; rewrite <- !app_assoc; apply lookup_app_l_Some; exact Ho|].
    split; [rewrite <- !app_assoc; apply represents_ext; exact Hcfg|].
    split; [rewrite <- !app_assoc; apply represents_ext; exact Hcred|].
    reflexivity.
Qed.
End ObjectGraphFacts.

(** * Further properties of the module *)

(** ** Attribute names: [_sub_nonword_chars] *)

Lemma sub_nonword_run_word (s : string) :
  forall in_run, all_word_chars (sub_nonword_run in_run s) = true.
Proof.
  induction s as [|c r IH]; intros in_run; cbn [sub_nonword_run]; [reflexivity|].
  destruct (is_word_char c) eqn:E.
  - cbn [all_word_chars]. rewrite E, IH. reflexivity.
  - destruct in_run; [apply IH|].
    cbn [all_word_chars]. rewrite IH. reflexivity.
Qed.

Lemma sub_nonword_run_fixed (s : string) :
  forall in_run, all_word_chars s = true -> sub_nonword_run in_run s = s.
Proof.
  induction s as [|c r IH]; intros in_run H; cbn [sub_nonword_run]; [reflexivity|].
  cbn [all_word_chars] in H. apply andb_prop in H. destruct H as [Hc Hr].
  rewrite Hc, (IH false Hr). reflexivity.
Qed.

(** The name of an attribute of the view is made of word characters
    only; normalising a name twice gives what normalising it once
    gives; and the names that normalising leaves as they are are the
    names made of word characters only. *)
Theorem sub_nonword_chars_normal_form (data_set_name : string) :
  all_word_chars (_sub_nonword_chars data_set_name) = true
  /\ _sub_nonword_chars (_sub_nonword_chars data_set_name)
     = _sub_nonword_chars data_set_name
  /\ (_sub_nonword_chars data_set_name = data_set_name
      <-> all_word_chars data_set_name = true).
Proof.
  unfold _sub_nonword_chars.
  split; [apply sub_nonword_run_word|].
  split; [apply sub_nonword_run_fixed, sub_nonword_run_word|].
  split.
  - intros H. rewrite <- H. apply sub_nonword_run_word.
  - apply sub_nonword_run_fixed.
Qed.

(** ** [_specificity] *)

Lemma strip_placeholders_length (s : string) :
  forall inside,
    (String.length (strip_placeholders inside s) <= String.length s)%nat.
Proof.
  induction s as [|c r IH]; intros inside; cbn [strip_placeholders String.length];
    [lia|].
  destruct inside.
  - destruct (Ascii.eqb c ch_rbrace).
    + specialize (IH false). lia.
    + specialize (IH true). lia.
  - destruct (Ascii.eqb c ch_lbrace && closes_before_newline r).
    + specialize (IH true). lia.
    + cbn [String.length]. specialize (IH false). lia.
Qed.

Lemma strip_placeholders_literal (s : string) :
  str_contains ch_lbrace s = false -> strip_placeholders false s = s.
Proof.
  induction s as [|c r IH]; intros H; cbn [strip_placeholders]; [reflexivity|].
  cbn [str_contains] in H. apply orb_false_elim in H. destruct H as [Hc Hr].
  rewrite Hc. cbn [andb]. rewrite (IH Hr). reflexivity.
Qed.

Lemma closes_before_newline_field (x rest : string) :
  str_contains ch_newline x = false ->
  closes_before_newline (x +:+ String ch_rbrace rest) = true.
Proof.
  induction x as [|c r IH]; intros H.
  - rewrite append_nil. reflexivity.
  - rewrite append_cons. cbn [closes_before_newline].
    cbn [str_contains] in H. apply orb_false_elim in H. destruct H as [Hc Hr].
    destruct (Ascii.eqb c ch_rbrace); [reflexivity|].
    rewrite Hc. apply IH. exact Hr.
Qed.

Lemma strip_placeholders_field (x rest : string) :
  str_contains ch_rbrace x = false ->
  strip_placeholders true (x +:+ String ch_rbrace rest)
  = strip_placeholders false rest.
Proof.
  induction x as [|c r IH]; intros H.
  - rewrite append_nil. reflexivity.
  - rewrite append_cons. cbn [strip_placeholders].
    cbn [str_contains] in H. apply orb_false_elim in H. destruct H as [Hc Hr].
    rewrite Hc. apply IH. exact Hr.
Qed.

(** [_specificity] counts the characters outside the placeholders: it
    is between zero and the length of the pattern, it is the length of
    a pattern that has no "{", a character other than "{" in front
    of a pattern adds one, and a placeholder [{x}] (with no "}" and
    no newline in [x]) in front of a pattern adds nothing. *)
Theorem specificity_counts_literals (pattern : string) :
  0 <= _specificity pattern <= Z.of_nat (String.length pattern)
  /\ (str_contains ch_lbrace pattern = false ->
      _specificity pattern = Z.of_nat (String.length pattern))
  /\ (forall c, c <> ch_lbrace ->
                _specificity (String c pattern) = 1 + _specificity pattern)
  /\ (forall x, str_contains ch_rbrace x = false ->
                str_contains ch_newline x = false ->
                _specificity (String ch_lbrace (x +:+ String ch_rbrace pattern))
                = _specificity pattern).
Proof.
  unfold _specificity. split; [|split; [|split]].
  - pose proof (strip_placeholders_length pattern false). lia.
  - intros H. rewrite (strip_placeholders_literal _ H). reflexivity.
  - intros c Hc. cbn [strip_placeholders].
    destruct (Ascii.eqb c ch_lbrace) eqn:E.
    + apply Ascii.eqb_eq in E. contradiction.
    + cbn [andb String.length]. lia.
  - intros x Hx Hn. cbn [strip_placeholders].
    replace (Ascii.eqb ch_lbrace ch_lbrace) with true by reflexivity.
    rewrite (closes_before_newline_field x pattern Hn). cbn [andb].
    rewrite (strip_placeholders_field x pattern Hx). reflexivity.
Qed.

(** ** Credential resolution: what it reads *)

Lemma map_items_no_refs (credentials : config) (items : config) :
  List.Forall (fun kv => forall key, credential_refs key (snd kv) = [] ->
                                     _map_value credentials key (snd kv)
                                     = Ret (snd kv)) items ->
  flat_map (fun kv => credential_refs (fst kv) (snd kv)) items = [] ->
  map_items (_map_value credentials) items = Ret items.
Proof.
  induction items as [|[k v] r IH]; intros HF Hrefs; [reflexivity|].
  cbn [flat_map fst snd] in Hrefs. apply app_eq_nil in Hrefs.
  destruct Hrefs as [Hv Hr].
  apply List.Forall_cons_iff in HF. destruct HF as [Hhd Htl].
  cbn [map_items fst snd]. cbn [snd] in Hhd.
  rewrite (Hhd k Hv), (IH Htl Hr). reflexivity.
Qed.

Lemma map_value_no_refs (credentials : config) (v : value) :
  forall key, credential_refs key v = [] -> _map_value credentials key v = Ret v.
Proof.
  induction v as [| b | z | s | xs _ | items IH] using value_induction;
    intros key H; try reflexivity.
  - cbn [credential_refs] in H. cbn [_map_value].
    destruct (String.eqb key CREDENTIALS_KEY); [discriminate|reflexivity].
  - rewrite map_value_dict. cbn [credential_refs] in H.
    rewrite (map_items_no_refs credentials items IH H). reflexivity.
Qed.

(** A configuration that holds no credentials reference is returned as
    it is, whatever the credentials table holds. *)
Theorem resolve_credentials_without_references (cfg credentials : config) :
  config_refs cfg = [] -> _resolve_credentials cfg credentials = Ret cfg.
Proof.
  intros H. unfold _resolve_credentials, deepcopy.
  apply map_items_no_refs; [|exact H].
  apply List.Forall_forall. intros kv _ key. apply map_value_no_refs.
Qed.

Lemma map_items_agree (credentials credentials' : config) (items : config) :
  List.Forall (fun kv => forall key,
                 (forall s, In s (credential_refs key (snd kv)) ->
                            dict_get s credentials' = dict_get s credentials) ->
                 _map_value credentials' key (snd kv)
                 = _map_value credentials key (snd kv)) items ->
  (forall s, In s (flat_map (fun kv => credential_refs (fst kv) (snd kv)) items) ->
             dict_get s credentials' = dict_get s credentials) ->
  map_items (_map_value credentials') items
  = map_items (_map_value credentials) items.
Proof.
  induction items as [|[k v] r IH]; intros HF Hrefs; [reflexivity|].
  apply List.Forall_cons_iff in HF. destruct HF as [Hhd Htl].
  cbn [map_items fst snd]. cbn [snd] in Hhd.
  rewrite (Hhd k).
  - rewrite (IH Htl); [reflexivity|].
    intros s Hs. apply Hrefs. cbn [flat_map fst snd]. apply in_or_app. right. exact Hs.
  - intros s Hs. apply Hrefs. cbn [flat_map fst snd]. apply in_or_app. left. exact Hs.
Qed.

Lemma map_value_agree (credentials credentials' : config) (v : value) :
  forall key,
    (forall s, In s (credential_refs key v) ->
               dict_get s credentials' = dict_get s credentials) ->
    _map_value credentials' key v = _map_value credentials key v.
Proof.
  induction v as [| b | z | s | xs _ | items IH] using value_induction;
    intros key H; try reflexivity.
  - cbn [credential_refs] in H. cbn [_map_value].
    destruct (String.eqb key CREDENTIALS_KEY); [|reflexivity].
    unfold _get_credentials. rewrite (H s); [reflexivity|left; reflexivity].
  - rewrite !map_value_dict. cbn [credential_refs] in H.
    rewrite (map_items_agree credentials credentials' items IH H). reflexivity.
Qed.

(** The outcome of credential resolution depends on the entries of the
    table that the configuration refers to, and on no other: two
    tables that agree on the references give the same result, or the
    same error. *)
Theorem resolve_credentials_reads_references_only
    (cfg credentials credentials' : config) :
  (forall s, In s (config_refs cfg) ->
             dict_get s credentials' = dict_get s credentials) ->
  _resolve_credentials cfg credentials' = _resolve_credentials cfg credentials.
Proof.
  intros H. unfold _resolve_credentials, deepcopy.
  apply map_items_agree; [|exact H].
  apply List.Forall_forall. intros kv _ key. apply map_value_agree.
Qed.

(** ** Dict updates *)

Lemma dict_update_app {V} (a b1 b2 : list (string * V)) :
  dict_update a (b1 ++ b2) = dict_update (dict_update a b1) b2.
Proof. unfold dict_update. apply fold_left_app. Qed.

Lemma dict_get_update_other {V} (k : string) (b : list (string * V)) :
  forall a, ~ In k (dict_keys b) -> dict_get k (dict_update a b) = dict_get k a.
Proof.
  induction b as [|[k' v] r IH]; intros a H; [reflexivity|].
  change (dict_update a ((k', v) :: r)) with (dict_update (dict_set k' v a) r).
  rewrite IH.
  - apply dict_get_set_ne. intros ->. apply H. left. reflexivity.
  - intros Hin. apply H. right. exact Hin.
Qed.

Lemma dict_mem_set_iff {V} (k k' : string) (v : V) (d : list (string * V)) :
  dict_mem k' (dict_set k v d) = true <-> dict_mem k' d = true \/ k' = k.
Proof.
  destruct (String.eqb_spec k k') as [->|Hne].
  - unfold dict_mem at 1. rewrite dict_get_set_eq. split; auto.
  - unfold dict_mem. rewrite (dict_get_set_ne k k' v d Hne).
    split; [auto|]. intros [H|H]; [exact H|]. congruence.
Qed.

Lemma dict_mem_update {V} (k : string) (b : list (string * V)) :
  forall a, dict_mem k (dict_update a b) = true
            <-> dict_mem k a = true \/ In k (dict_keys b).
Proof.
  induction b as [|[k' v] r IH]; intros a.
  - cbn. tauto.
  - change (dict_update a ((k', v) :: r)) with (dict_update (dict_set k' v a) r).
    rewrite IH, dict_mem_set_iff. cbn [dict_keys map fst In].
    split.
    + intros [[H|H]|H]; auto.
    + intros [H|[H|H]]; auto.
Qed.

(** ** The view: [_FrozenDatasets.__init__] *)

Section FrozenView.
Context {C : Collaborators}.

(** The view made from a dict of datasets holds, under distinct
    attribute names, exactly the normalised names of the dict; of the
    names that normalise to the same attribute, the one that comes
    last in the dict gives the dataset. *)
Theorem frozen_view_of_dict (items : list (string * loc)) (st : Store) :
  FrozenDatasets_init [ColDict items] st
  = (Ret (length (heap st)),
     {| heap := heap st ++ [OFrozen (normalised items)];
        parse_calls := parse_calls st |})
  /\ NoDup (dict_keys (normalised items))
  /\ (forall k, dict_mem k (normalised items) = true
                <-> exists name, In name (dict_keys items)
                                 /\ k = _sub_nonword_chars name)
  /\ (forall pre name ds post,
        items = pre ++ (name, ds) :: post ->
        (forall n', In n' (dict_keys post) ->
                    _sub_nonword_chars n' <> _sub_nonword_chars name) ->
        dict_get (_sub_nonword_chars name) (normalised items) = Some ds).
Proof.
  split.
  { unfold FrozenDatasets_init, bind. cbn [frozen_collect]. unfold ret, alloc.
    rewrite (dict_update_nil _ (NoDup_normalised items)). reflexivity. }
  split; [apply NoDup_normalised|]. split.
  - intros k. unfold normalised, dict_of_items. rewrite dict_mem_update.
    unfold dict_keys. rewrite map_map. cbn [fst].
    split.
    + intros [H|H]; [discriminate|].
      apply in_map_iff in H. destruct H as ([n l] & <- & Hin).
      exists n. split; [|reflexivity]. apply in_map_iff. exists (n, l). auto.
    + intros (name & Hin & ->). right.
      apply in_map_iff in Hin. destruct Hin as ([n l] & <- & Hin).
      apply in_map_iff. exists (n, l). auto.
  - intros pre name ds post -> Hpost.
    unfold normalised, dict_of_items.
    rewrite map_app. cbn [map fst snd].
    rewrite dict_update_app.
    match goal with
    | |- dict_get _ (dict_update ?a (?kv :: ?r)) = _ =>
        change (dict_update a (kv :: r))
          with (dict_update (dict_set (fst kv) (snd kv) a) r)
    end.
    cbn [fst snd].
    rewrite dict_get_update_other; [apply dict_get_set_eq|].
    unfold dict_keys. rewrite map_map. cbn [fst].
    intros Hin. apply in_map_iff in Hin. destruct Hin as ([n l] & He & Hin).
    cbn [fst] in He. apply (Hpost n); [|exact He].
    apply in_map_iff. exists (n, l). auto.
Qed.
End FrozenView.

(** ** Template values with a closing brace of their own *)

Lemma str_contains_app (c : ascii) (a b : string) :
  str_contains c (a +:+ b) = str_contains c a || str_contains c b.
Proof.
  induction a as [|x r IH].
  - rewrite append_nil. reflexivity.
  - rewrite append_cons. cbn [str_contains]. rewrite IH. apply orb_assoc.
Qed.

Lemma format_map_lone_rbrace (named : list (string * string)) (text rest : string) :
  plain_text text = true ->
  (forall r, rest <> String ch_rbrace r) ->
  format_map (text +:+ String ch_rbrace rest) named
  = FmtValueError "Single '}' encountered in format string".
Proof.
  intros Ht Hrest. unfold format_map.
  rewrite (format_scan_text named text _ Ht).
  cbn [format_scan].
  replace (Ascii.eqb ch_rbrace ch_lbrace) with false by reflexivity.
  replace (Ascii.eqb ch_rbrace ch_rbrace) with true by reflexivity.
  destruct rest as [|c r]; [reflexivity|].
  destruct (Ascii.eqb c ch_rbrace) eqn:E; [|reflexivity].
  apply Ascii.eqb_eq in E. subst c. exfalso. apply (Hrest r). reflexivity.
Qed.

Section LoneBrace.
Context {C : Collaborators}.

(** A string value of a template in which a "}" closes no field (it
    follows text with no brace, and is not doubled) makes the build of
    a dataset from the pattern fail with [ValueError], whatever the
    captures are; no instance is built. *)
Theorem template_lone_brace_value_error (st : Store) (self : loc) (c : Catalog)
    (d fv : list (string * loc)) (pats : list (string * config))
    (cache : list (string * string)) (name pattern : string)
    (template pre pre' post : config) (captures : list (string * string))
    (key text rest : string) :
  registry_at st self c d fv pats cache ->
  dict_get pattern pats = Some template ->
  parse pattern name = Some captures ->
  template = pre ++ (key, VStr (text +:+ String ch_rbrace rest)) :: post ->
  resolve_template pattern (Some captures) pre = Ret pre' ->
  plain_text text = true ->
  (forall r, rest <> String ch_rbrace r) ->
  _resolve_dataset self name pattern st
  = (Raise (ValueError "Single '}' encountered in format string"),
     {| heap := heap st; parse_calls := (parse_calls st + 1)%nat |}).
Proof.
  intros Hreg Ht Hparse -> Hpre Htext Hrest.
  rewrite (resolve_dataset_run st self c d fv pats cache name pattern Hreg).
  cbv zeta. rewrite Ht, Hparse.
  unfold resolve_template.
  rewrite (map_items_raise _ pre post pre' key
             (VStr (text +:+ String ch_rbrace rest))
             (ValueError "Single '}' encountered in format string") Hpre);
    [reflexivity|].
  unfold resolve_field. cbn [is_iterable contains_rbrace andb py_str].
  rewrite str_contains_app. cbn [str_contains].
  replace (Ascii.eqb ch_rbrace ch_rbrace) with true by reflexivity.
  cbn [orb]. rewrite orb_true_r.
  rewrite (format_map_lone_rbrace captures text rest Htext Hrest). reflexivity.
Qed.
End LoneBrace.

(** ** Registering datasets: [add], [add_all], [add_feed_dict] *)

Section Registering.
Context {C : Collaborators}.

Lemma bind_ret {A B} (m : M A) (f : A -> M B) (st st1 : Store) (a : A) :
  m st = (Ret a, st1) -> bind m f st = f a st1.
Proof. intros H. unfold bind. rewrite H. reflexivity. Qed.

Lemma bind_raise {A B} (m : M A) (f : A -> M B) (st st1 : Store) (e : exn) :
  m st = (Raise e, st1) -> bind m f st = (Raise e, st1).
Proof. intros H. unfold bind. rewrite H. reflexivity. Qed.

(** [add] without [replace] on a name that is registered. *)
Lemma add_refused (st : Store) (self : loc) (c : Catalog)
    (d : list (string * loc)) (name : string) (ds : loc) :
  heap st !! self = Some (OCatalog c) ->
  heap st !! _data_sets c = Some (ODatasets d) ->
  dict_mem name d = true ->
  add self name ds false st
  = (Raise (DatasetAlreadyExistsError (already_registered name)), st).
Proof.
  intros Hc Hd Hm.
  unfold add, bind, get_catalog. rewrite Hc.
  unfold get_datasets at 1. rewrite Hd, Hm. reflexivity.
Qed.

(** One successful [add]: the registry afterwards, and what is left
    as it was. *)
Lemma add_step (st : Store) (self : loc) (c : Catalog)
    (d fv : list (string * loc)) (pats : list (string * config))
    (cache : list (string * string)) (name : string) (ds : loc) (replace : bool) :
  registry_at st self c d fv pats cache ->
  dict_mem name d = false \/ replace = true ->
  exists st2,
    add self name ds replace st = (Ret tt, st2)
    /\ registry_at st2 self (with_view c (length (heap st))) (dict_set name ds d)
         (dict_set (_sub_nonword_chars name) ds fv) pats cache
    /\ (forall l o, l <> self -> l <> _data_sets c ->
                    heap st !! l = Some o -> heap st2 !! l = Some o)
    /\ parse_calls st2 = parse_calls st
    /\ length (heap st2) = S (length (heap st)).
Proof.
  intros Hreg Hnew.
  destruct (add_effect st self c d fv pats cache name ds replace Hreg Hnew)
    as (st2 & Hadd & Hreg2 & Hframe).
  exists st2. split; [exact Hadd|]. split; [exact Hreg2|]. split; [exact Hframe|].
  rewrite (add_run st self c d fv pats cache name ds replace Hreg Hnew) in Hadd.
  injection Hadd as <-. cbn [heap parse_calls]. split; [reflexivity|].
  rewrite length_insert, length_app, length_insert. cbn [length]. lia.
Qed.

Lemma dict_get_set_fresh {V} (k k' : string) (v l : V) (d : list (string * V)) :
  dict_mem k d = false -> dict_get k' d = Some l ->
  dict_get k' (dict_set k v d) = Some l.
Proof.
  intros Hf Hg. destruct (String.eqb_spec k k') as [->|Hne].
  - apply dict_mem_false in Hf. congruence.
  - rewrite (dict_get_set_ne k k' v d Hne). exact Hg.
Qed.

(** [add] on a name that is registered: without [replace] it raises
    [DatasetAlreadyExistsError], whose message names the dataset, and
    nothing is changed, so that the name still resolves to the dataset
    it had; with [replace] the entry is overwritten where it stands:
    the names and their order are the same, and every other name keeps
    its dataset. *)
Theorem add_registered_name (st : Store) (self : loc) (c : Catalog)
    (d fv : list (string * loc)) (pats : list (string * config))
    (cache : list (string * string)) (name : string) (old ds : loc) :
  registry_at st self c d fv pats cache ->
  dict_get name d = Some old ->
  (add self name ds false st
   = (Raise (DatasetAlreadyExistsError
               ("Dataset '" +:+ name +:+ "' has already been registered")), st)
   /\ forall suggest, _get_dataset self name None suggest st = (Ret old, st))
  /\ exists st2,
       add self name ds true st = (Ret tt, st2)
       /\ dict_keys (exact_map st2 self) = dict_keys d
       /\ dict_get name (exact_map st2 self) = Some ds
       /\ forall other, other <> name ->
            dict_get other (exact_map st2 self) = dict_get other d.
Proof.
  intros Hreg Hold. pose proof Hreg as (Hc & Hd & _).
  assert (Hm : dict_mem name d = true) by (apply dict_mem_true; eauto).
  split.
  - split; [apply (add_refused st self c d name ds Hc Hd Hm)|].
    intros suggest.
    apply (get_dataset_registered st self c d name old None suggest Hc Hd Hold).
  - destruct (add_step st self c d fv pats cache name ds true Hreg (or_intror eq_refl))
      as (st2 & Hadd & Hreg2 & _).
    exists st2. split; [exact Hadd|].
    destruct (registry_at_readers _ _ _ _ _ _ _ Hreg2) as (-> & _).
    split; [rewrite dict_keys_set, Hm; reflexivity|].
    split; [apply dict_get_set_eq|].
    intros other Hne. apply dict_get_set_ne. congruence.
Qed.

(** A successful [add] and what follows it: the name resolves to the
    dataset that was added, with no call of [parse] and no change of
    the store; the attribute of the new view for the name holds it;
    the view object that the catalog had before is as it was; every
    other name, the patterns and the match cache are as they were. *)
Theorem add_then_resolve (st : Store) (self : loc) (c : Catalog)
    (d fv : list (string * loc)) (pats : list (string * config))
    (cache : list (string * string)) (name : string) (ds : loc) (replace : bool) :
  registry_at st self c d fv pats cache ->
  dict_mem name d = false \/ replace = true ->
  exists st2,
    add self name ds replace st = (Ret tt, st2)
    /\ dict_get name (exact_map st2 self) = Some ds
    /\ (forall other, other <> name ->
          dict_get other (exact_map st2 self) = dict_get other d)
    /\ dict_get (_sub_nonword_chars name) (frozen_view st2 self) = Some ds
    /\ heap st2 !! datasets c = Some (OFrozen fv)
    /\ heap st !! (length (heap st)) = None
    /\ heap st2 !! self = Some (OCatalog (with_view c (length (heap st))))
    /\ pattern_table st2 self = pats
    /\ match_cache st2 self = cache
    /\ parse_calls st2 = parse_calls st
    /\ forall suggest, _get_dataset self name None suggest st2 = (Ret ds, st2).
Proof.
  intros Hreg Hnew. pose proof Hreg as (Hc & Hd & Hv & _).
  destruct (add_step st self c d fv pats cache name ds replace Hreg Hnew)
    as (st2 & Hadd & Hreg2 & Hframe & Hticks & _).
  exists st2. split; [exact Hadd|].
  destruct (registry_at_readers _ _ _ _ _ _ _ Hreg2) as (-> & -> & -> & ->).
  pose proof Hreg2 as (Hc2 & Hd2 & _).
  split; [apply dict_get_set_eq|].
  split; [intros other Hne; apply dict_get_set_ne; congruence|].
  split; [apply dict_get_set_eq|].
  split.
  { apply Hframe; [| |exact Hv].
    - eapply lookup_distinct; [exact Hv|exact Hc|exact I].
    - eapply lookup_distinct; [exact Hv|exact Hd|exact I]. }
  split; [apply lookup_ge_None; lia|].
  split; [exact Hc2|].
  split; [reflexivity|]. split; [reflexivity|]. split; [exact Hticks|].
  intros suggest.
  apply (get_dataset_registered st2 self _ _ name ds None suggest Hc2 Hd2).
  apply dict_get_set_eq.
Qed.

(** *** [add_all] *)

Lemma add_all_app (self : loc) (a b : list (string * loc)) (replace : bool)
    (st : Store) :
  add_all self (a ++ b) replace st
  = (add_all self a replace ;;; add_all self b replace) st.
Proof.
  revert st. induction a as [|[name ds] r IH]; intros st.
  - reflexivity.
  - cbn [app add_all]. unfold bind.
    destruct (add self name ds replace st) as [[[]|e] st1]; [|reflexivity].
    rewrite IH. reflexivity.
Qed.

(** The attributes that the items of a dict give. *)
Lemma add_all_run (self : loc) (pats : list (string * config))
    (cache : list (string * string)) (replace : bool)
    (items : list (string * loc)) :
  forall (st : Store) (c : Catalog) (d fv : list (string * loc)),
  registry_at st self c d fv pats cache ->
  NoDup (dict_keys items) ->
  replace = true \/ (forall n, In n (dict_keys items) -> dict_mem n d = false) ->
  exists st2 c2,
    add_all self items replace st = (Ret tt, st2)
    /\ registry_at st2 self c2 (dict_update d items)
         (dict_update fv (map (fun kv => (_sub_nonword_chars (fst kv), snd kv)) items))
         pats cache
    /\ _data_sets c2 = _data_sets c
    /\ parse_calls st2 = parse_calls st
    /\ (length (heap st) <= length (heap st2))%nat
    /\ (forall l o, l <> self -> l <> _data_sets c ->
                    heap st !! l = Some o -> heap st2 !! l = Some o).
Proof.
  induction items as [|[name ds] r IH]; intros st c d fv Hreg Hnd Hnew.
  - exists st, c. split; [reflexivity|]. split; [exact Hreg|].
    split; [reflexivity|]. split; [reflexivity|]. split; [lia|]. auto.
  - cbn [dict_keys map fst] in Hnd. apply NoDup_cons in Hnd.
    destruct Hnd as [Hnotin Hnd].
    assert (Hstep : dict_mem name d = false \/ replace = true).
    { destruct Hnew as [->|Hf]; [right; reflexivity|].
      left. apply Hf. left. reflexivity. }
    destruct (add_step st self c d fv pats cache name ds replace Hreg Hstep)
      as (st1 & Hadd & Hreg1 & Hframe1 & Hticks1 & Hlen1).
    assert (Hnew1 : replace = true
                    \/ (forall n, In n (dict_keys r) ->
                                  dict_mem n (dict_set name ds d) = false)).
    { destruct Hnew as [->|Hf]; [left; reflexivity|]. right.
      intros n Hn. destruct (dict_mem n (dict_set name ds d)) eqn:E; [|reflexivity].
      apply dict_mem_set_iff in E. destruct E as [E| ->].
      - rewrite Hf in E; [discriminate|right; exact Hn].
      - exfalso. apply Hnotin. apply list_elem_of_In. exact Hn. }
    destruct (IH st1 _ _ _ Hreg1 Hnd Hnew1)
      as (st2 & c2 & Hall & Hreg2 & Hds2 & Hticks2 & Hlen2 & Hframe2).
    exists st2, c2.
    split.
    { cbn [add_all]. rewrite (bind_ret _ _ _ _ _ Hadd). exact Hall. }
    split; [exact Hreg2|].
    split; [rewrite Hds2; reflexivity|].
    split; [congruence|]. split; [lia|].
    intros l o N1 N2 Ho. apply Hframe2; [exact N1|exact N2|].
    apply Hframe1; assumption.
Qed.

(** [add_all] with [replace], or with names that are not registered:
    every item is added, in the order of the dict; when none of the
    names was registered, the exact-name map is the former map followed
    by the items. *)
Theorem add_all_registers (st : Store) (self : loc) (c : Catalog)
    (d fv : list (string * loc)) (pats : list (string * config))
    (cache : list (string * string)) (data_sets : list (string * loc))
    (replace : bool) :
  registry_at st self c d fv pats cache ->
  NoDup (dict_keys d) ->
  NoDup (dict_keys data_sets) ->
  replace = true \/ (forall n, In n (dict_keys data_sets) -> dict_mem n d = false) ->
  exists st2,
    add_all self data_sets replace st = (Ret tt, st2)
    /\ exact_map st2 self = dict_update d data_sets
    /\ (forall name ds, In (name, ds) data_sets ->
          dict_get name (exact_map st2 self) = Some ds)
    /\ (forall name, ~ In name (dict_keys data_sets) ->
          dict_get name (exact_map st2 self) = dict_get name d)
    /\ ((forall n, In n (dict_keys data_sets) -> dict_mem n d = false) ->
        exact_map st2 self = d ++ data_sets)
    /\ pattern_table st2 self = pats
    /\ match_cache st2 self = cache.
Proof.
  intros Hreg Hd Hnd Hnew.
  destruct (add_all_run self pats cache replace data_sets st c d fv Hreg Hnd Hnew)
    as (st2 & c2 & Hall & Hreg2 & _).
  exists st2. split; [exact Hall|].
  destruct (registry_at_readers _ _ _ _ _ _ _ Hreg2) as (-> & _ & -> & ->).
  split; [reflexivity|].
  split.
  { intros name ds Hin.
    apply in_split in Hin. destruct Hin as (pre & post & ->).
    rewrite dict_update_app.
    change (dict_update (dict_update d pre) ((name, ds) :: post))
      with (dict_update (dict_set name ds (dict_update d pre)) post).
    rewrite dict_get_update_other; [apply dict_get_set_eq|].
    unfold dict_keys in Hnd. rewrite map_app in Hnd. cbn [map fst] in Hnd.
    apply NoDup_app in Hnd. destruct Hnd as (_ & _ & Hnd).
    apply NoDup_cons in Hnd. destruct Hnd as [Hnotin _].
    intros Hin. apply Hnotin. apply list_elem_of_In. exact Hin. }
  split; [intros name Hnot; apply dict_get_update_other; exact Hnot|].
  split; [|split; reflexivity].
  intros Hfresh. apply dict_update_fresh.
  unfold dict_keys. rewrite map_app. apply NoDup_app.
  split; [exact Hd|]. split; [|exact Hnd].
  intros k Hk1 Hk2. apply list_elem_of_In in Hk1, Hk2.
  specialize (Hfresh k Hk2). apply dict_mem_false in Hfresh.
  apply (dict_get_none_keys _ _ Hfresh). exact Hk1.
Qed.

(** [add_all] is not all-or-nothing: when the items before the first
    name that is already registered are new, they are registered, and
    stay registered, when the call raises [DatasetAlreadyExistsError]
    for that name; the items after it are not reached. *)
Theorem add_all_stops_at_registered_name (st : Store) (self : loc) (c : Catalog)
    (d fv : list (string * loc)) (pats : list (string * config))
    (cache : list (string * string))
    (pre post : list (string * loc)) (name : string) (ds : loc) :
  registry_at st self c d fv pats cache ->
  NoDup (dict_keys d) ->
  NoDup (dict_keys (pre ++ (name, ds) :: post)) ->
  (forall n, In n (dict_keys pre) -> dict_mem n d = false) ->
  dict_mem name d = true ->
  exists st2,
    add_all self (pre ++ (name, ds) :: post) false st
    = (Raise (DatasetAlreadyExistsError (already_registered name)), st2)
    /\ exact_map st2 self = d ++ pre
    /\ forall n, In n (dict_keys post) -> dict_mem n d = false ->
                 dict_mem n (exact_map st2 self) = false.
Proof.
  intros Hreg Hd Hnd Hfresh Hm.
  assert (Hndpre : NoDup (dict_keys pre)).
  { unfold dict_keys in Hnd |- *. rewrite map_app in Hnd.
    apply NoDup_app in Hnd. tauto. }
  destruct (add_all_run self pats cache false pre st c d fv Hreg Hndpre
              (or_intror Hfresh))
    as (st1 & c1 & Hall & Hreg1 & _).
  assert (Hmap : dict_update d pre = d ++ pre).
  { apply dict_update_fresh. unfold dict_keys. rewrite map_app. apply NoDup_app.
    split; [exact Hd|]. split; [|exact Hndpre].
    intros k Hk1 Hk2. apply list_elem_of_In in Hk1, Hk2.
    specialize (Hfresh k Hk2). apply dict_mem_false in Hfresh.
    apply (dict_get_none_keys _ _ Hfresh). exact Hk1. }
  rewrite Hmap in Hreg1. pose proof Hreg1 as (Hc1 & Hd1 & _).
  assert (Hm1 : dict_mem name (d ++ pre) = true).
  { rewrite <- Hmap. apply dict_mem_update. left. exact Hm. }
  exists st1. split.
  { rewrite add_all_app. rewrite (bind_ret _ _ _ _ _ Hall).
    cbn [add_all]. apply bind_raise.
    apply (add_refused st1 self c1 (d ++ pre) name ds Hc1 Hd1 Hm1). }
  destruct (registry_at_readers _ _ _ _ _ _ _ Hreg1) as (-> & _).
  split; [reflexivity|].
  intros n Hn Hnd'. rewrite <- Hmap.
  destruct (dict_mem n (dict_update d pre)) eqn:E; [|reflexivity].
  apply dict_mem_update in E. destruct E as [E|E]; [congruence|].
  exfalso. unfold dict_keys in Hnd. rewrite map_app in Hnd.
  apply NoDup_app in Hnd. destruct Hnd as (_ & Hdisj & _).
  apply (Hdisj n); apply list_elem_of_In.
  - exact E.
  - cbn [map fst]. right. exact Hn.
Qed.
End Registering.

(** *** [add_feed_dict] and the constructor with a feed dict *)

Section FeedDict.
Context {C : Collaborators}.

Lemma add_feed_dict_app (self : loc) (a b : list (string * feed_value))
    (replace : bool) (st : Store) :
  add_feed_dict self (a ++ b) replace st
  = (add_feed_dict self a replace ;;; add_feed_dict self b replace) st.
Proof.
  revert st. induction a as [|[name v] r IH]; intros st.
  - reflexivity.
  - cbn [app add_feed_dict]. unfold bind.
    destruct (match v with
              | FeedDataset ds => ret ds
              | FeedData data => alloc (OInstance (MemoryDataset data))
              end st) as [[l|e] st0]; [|reflexivity].
    destruct (add self name l replace st0) as [[[]|e] st1]; [|reflexivity].
    rewrite IH. reflexivity.
Qed.

(** The dataset that a value of the feed dict is registered as. *)
Lemma add_feed_dict_run (self : loc) (pats : list (string * config))
    (cache : list (string * string)) (replace : bool)
    (feed : list (string * feed_value)) :
  forall (st : Store) (c : Catalog) (d fv : list (string * loc)),
  registry_at st self c d fv pats cache ->
  NoDup (map fst feed) ->
  (forall n, In n (map fst feed) -> dict_mem n d = false) ->
  exists st2 c2 d2 fv2,
    add_feed_dict self feed replace st = (Ret tt, st2)
    /\ registry_at st2 self c2 d2 fv2 pats cache
    /\ _data_sets c2 = _data_sets c
    /\ dict_keys d2 = dict_keys d ++ map fst feed
    /\ (forall k l, dict_get k d = Some l -> dict_get k d2 = Some l)
    /\ (forall name v, In (name, v) feed ->
          exists l, dict_get name d2 = Some l
                    /\ match v with
                       | FeedDataset ds => l = ds
                       | FeedData data =>
                           heap st2 !! l = Some (OInstance (MemoryDataset data))
                           /\ heap st !! l = None
                       end)
    /\ (forall l o, l <> self -> l <> _data_sets c ->
                    heap st !! l = Some o -> heap st2 !! l = Some o)
    /\ parse_calls st2 = parse_calls st
    /\ (length (heap st) <= length (heap st2))%nat.
Proof.
  induction feed as [|[name v] r IH]; intros st c d fv Hreg Hnd Hfresh.
  - exists st, c, d, fv. split; [reflexivity|]. split; [exact Hreg|].
    split; [reflexivity|]. split; [cbn [map]; rewrite app_nil_r; reflexivity|].
    split; [auto|]. split; [intros ? ? []|]. split; [auto|]. split; [reflexivity|lia].
  - cbn [map fst] in Hnd. apply NoDup_cons in Hnd. destruct Hnd as [Hnotin Hnd].
    assert (Hname : dict_mem name d = false) by (apply Hfresh; left; reflexivity).
    pose proof Hreg as (Hc & Hd & _).
    pose proof (lookup_lt_Some _ _ _ Hc) as Lc.
    pose proof (lookup_lt_Some _ _ _ Hd) as Ld.
    (* the dataset of the first item, and the store in which it is added *)
    assert (Hfirst : exists l st0,
               (match v with
                | FeedDataset ds => ret ds
                | FeedData data => alloc (OInstance (MemoryDataset data))
                end) st = (Ret l, st0)
               /\ registry_at st0 self c d fv pats cache
               /\ (forall l' o, heap st !! l' = Some o -> heap st0 !! l' = Some o)
               /\ parse_calls st0 = parse_calls st
               /\ (length (heap st) <= length (heap st0))%nat
               /\ match v with
                  | FeedDataset ds => l = ds
                  | FeedData data =>
                      heap st0 !! l = Some (OInstance (MemoryDataset data))
                      /\ heap st !! l = None
                  end).
    { destruct v as [ds|data].
      - exists ds, st. split; [reflexivity|]. split; [exact Hreg|].
        split; [auto|]. split; [reflexivity|]. split; [lia|reflexivity].
      - eexists _, _. split; [reflexivity|].
        split; [apply registry_at_alloc; exact Hreg|].
        cbn [heap parse_calls].
        split; [intros l' o Ho; apply lookup_app_l_Some; exact Ho|].
        split; [reflexivity|]. split; [rewrite length_app; lia|].
        split; [|apply lookup_ge_None; lia].
        rewrite lookup_app_r by lia. rewrite Nat.sub_diag. reflexivity. }
    destruct Hfirst as (l & st0 & Hget & Hreg0 & Hkeep0 & Hticks0 & Hlen0 & Hl).
    destruct (add_step st0 self c d fv pats cache name l replace Hreg0
                (or_introl Hname))
      as (st1 & Hadd & Hreg1 & Hframe1 & Hticks1 & Hlen1).
    assert (Hfresh1 : forall n, In n (map fst r) ->
                                dict_mem n (dict_set name l d) = false).
    { intros n Hn. destruct (dict_mem n (dict_set name l d)) eqn:E; [|reflexivity].
      apply dict_mem_set_iff in E. destruct E as [E| ->].
      - rewrite Hfresh in E; [discriminate|right; exact Hn].
      - exfalso. apply Hnotin. apply list_elem_of_In. exact Hn. }
    destruct (IH st1 _ _ _ Hreg1 Hnd Hfresh1)
      as (st2 & c2 & d2 & fv2 & Hrest & Hreg2 & Hds2 & Hkeys2 & Hkeep2 & Hin2
          & Hframe2 & Hticks2 & Hlen2).
    cbn [with_view _data_sets] in Hds2, Hframe2.
    exists st2, c2, d2, fv2.
    split.
    { cbn [add_feed_dict]. rewrite (bind_ret _ _ _ _ _ Hget).
      rewrite (bind_ret _ _ _ _ _ Hadd). exact Hrest. }
    split; [exact Hreg2|]. split; [exact Hds2|].
    split.
    { rewrite Hkeys2, dict_keys_set, Hname. cbn [map fst].
      rewrite <- app_assoc. reflexivity. }
    split.
    { intros k l' Hk. apply Hkeep2. apply dict_get_set_fresh; assumption. }
    split.
    { intros name' v' [E|Hin].
      - injection E as <- <-. exists l.
        split; [apply Hkeep2; apply dict_get_set_eq|].
        destruct v as [ds|data]; [exact Hl|].
        destruct Hl as [Hl0 Hnone]. split; [|exact Hnone].
        pose proof (lookup_lt_Some _ _ _ Hl0) as Ll.
        pose proof (lookup_ge_None_1 _ _ Hnone) as Gl.
        apply Hframe2; [lia|lia|]. apply Hframe1; [lia|lia|exact Hl0].
      - destruct (Hin2 name' v' Hin) as (l' & Hg & Hv). exists l'.
        split; [exact Hg|].
        destruct v' as [ds|data]; [exact Hv|].
        destruct Hv as [Hv1 Hnone]. split; [exact Hv1|].
        apply lookup_ge_None. apply lookup_ge_None_1 in Hnone. lia. }
    split.
    { intros l' o N1 N2 Ho. apply Hframe2; [exact N1|exact N2|].
      apply Hframe1; [exact N1|exact N2|]. apply Hkeep0. exact Ho. }
    split; [congruence|lia].
Qed.

(** [add_feed_dict] with names that are not registered: every name of
    the feed dict is registered, after the names that were; a value
    that is a dataset is registered as it is, and any other value as a
    new [MemoryDataset] that holds it; the datasets that were
    registered are the same. *)
Theorem add_feed_dict_wraps_data (st : Store) (self : loc) (c : Catalog)
    (d fv : list (string * loc)) (pats : list (string * config))
    (cache : list (string * string)) (feed_dict : list (string * feed_value))
    (replace : bool) :
  registry_at st self c d fv pats cache ->
  NoDup (map fst feed_dict) ->
  (forall n, In n (map fst feed_dict) -> dict_mem n d = false) ->
  exists st2,
    add_feed_dict self feed_dict replace st = (Ret tt, st2)
    /\ dict_keys (exact_map st2 self) = dict_keys d ++ map fst feed_dict
    /\ (forall k l, dict_get k d = Some l ->
                    dict_get k (exact_map st2 self) = Some l)
    /\ (forall name v, In (name, v) feed_dict ->
          exists l, dict_get name (exact_map st2 self) = Some l
                    /\ match v with
                       | FeedDataset ds => l = ds
                       | FeedData data =>
                           heap st2 !! l = Some (OInstance (MemoryDataset data))
                           /\ heap st !! l = None
                       end)
    /\ pattern_table st2 self = pats.
Proof.
  intros Hreg Hnd Hfresh.
  destruct (add_feed_dict_run self pats cache replace feed_dict st c d fv
              Hreg Hnd Hfresh)
    as (st2 & c2 & d2 & fv2 & Hrun & Hreg2 & _ & Hkeys & Hkeep & Hin & _).
  exists st2. split; [exact Hrun|].
  destruct (registry_at_readers _ _ _ _ _ _ _ Hreg2) as (-> & _ & -> & _).
  repeat split; assumption.
Qed.

(** [DataCatalog(data_sets=..., feed_dict=...)]: the constructor adds
    the feed dict without [replace].  When no name of the feed dict is
    a name of [data_sets], the new catalog has the datasets of
    [data_sets] followed by those of the feed dict.  When a name of the
    feed dict is a name of [data_sets], the constructor raises
    [DatasetAlreadyExistsError] for the first such name. *)
Theorem constructor_with_feed_dict (st : Store) (ld lp : loc) (lay : option loc)
    (items : list (string * loc)) (pats : list (string * config))
    (feed_dict : list (string * feed_value)) :
  heap st !! ld = Some (ODatasets items) ->
  heap st !! lp = Some (OPatterns pats) ->
  NoDup (map fst feed_dict) ->
  let self := S (S (S (S (length (heap st))))) in
  ((forall n, In n (map fst feed_dict) -> dict_mem n items = false) ->
   exists st2,
     DataCatalog_init (Some ld) (Some feed_dict) lay (Some lp) st = (Ret self, st2)
     /\ heap st !! self = None
     /\ dict_keys (exact_map st2 self) = dict_keys items ++ map fst feed_dict
     /\ (forall k l, dict_get k items = Some l ->
                     dict_get k (exact_map st2 self) = Some l)
     /\ (forall name data, In (name, FeedData data) feed_dict ->
           exists l, dict_get name (exact_map st2 self) = Some l
                     /\ heap st2 !! l = Some (OInstance (MemoryDataset data))
                     /\ heap st !! l = None)
     /\ heap st2 !! ld = Some (ODatasets items))
  /\ (forall pre name v post,
        feed_dict = pre ++ (name, v) :: post ->
        (forall n, In n (map fst pre) -> dict_mem n items = false) ->
        dict_mem name items = true ->
        exists st2,
          DataCatalog_init (Some ld) (Some feed_dict) lay (Some lp) st
          = (Raise (DatasetAlreadyExistsError (already_registered name)), st2)).
Proof.
  intros Hd Hp Hnd self.
  pose proof (lookup_lt_Some _ _ _ Hd) as Ld.
  set (st1 := {| heap := heap st ++ new_registry (length (heap st)) items lay pats;
                 parse_calls := parse_calls st |}).
  destruct (lookup_new_registry (heap st) items lay pats)
    as (N0 & N1 & N2 & N3 & N4). cbv zeta in N0, N1, N2, N3, N4.
  assert (Hreg1 : registry_at st1 self (new_catalog (length (heap st)) lay pats)
                    items (normalised items) pats []).
  { unfold registry_at, st1. cbn [heap new_catalog _data_sets datasets
                                   dataset_patterns _pattern_matches_cache].
    split; [exact N4|]. split; [exact N0|]. split; [exact N1|].
    split; [exact N2|]. split; [exact N3|apply NoDup_normalised]. }
  (* the constructor: the objects of the registry, then the feed dict *)
  assert (Hinit : forall kv r, feed_dict = kv :: r ->
            DataCatalog_init (Some ld) (Some feed_dict) lay (Some lp) st
            = (add_feed_dict self feed_dict false ;;; ret self) st1).
  { intros kv r ->.
    pose proof (init_run st ld lp lay items pats Hd Hp) as Hrun.
    unfold DataCatalog_init in Hrun |- *.
    unfold bind in Hrun |- *.
    destruct (match Some ld with
              | Some l => get_datasets l
              | None => ret []
              end st) as [[its|e] s0]; [|discriminate].
    destruct (alloc (ODatasets its) s0) as [[l1|e] s1]; [|discriminate].
    destruct (FrozenDatasets_init [ColDict its] s1) as [[l2|e] s2]; [|discriminate].
    destruct (match Some lp with
              | Some l => get_patterns l
              | None => ret []
              end s2) as [[ps|e] s3]; [|discriminate].
    destruct (alloc (OPatterns ps) s3) as [[l3|e] s4]; [|discriminate].
    destruct (alloc (OCache []) s4) as [[l4|e] s5]; [|discriminate].
    destruct (alloc _ s5) as [[l5|e] s6]; [|discriminate].
    cbn [ret] in Hrun. unfold ret in Hrun. injection Hrun as -> ->.
    reflexivity. }
  split.
  - intros Hfresh.
    destruct feed_dict as [|kv r] eqn:Efeed.
    + exists st1. split; [apply (init_run st ld lp lay items pats Hd Hp)|].
      split; [apply lookup_ge_None; unfold self; lia|].
      destruct (registry_at_readers _ _ _ _ _ _ _ Hreg1) as (-> & _).
      split; [cbn [map]; rewrite app_nil_r; reflexivity|].
      split; [auto|]. split; [intros ? ? []|].
      unfold st1. cbn [heap]. apply lookup_app_l_Some. exact Hd.
    + rewrite <- Efeed in *.
      destruct (add_feed_dict_run self pats [] false feed_dict st1 _ _ _
                  Hreg1 Hnd Hfresh)
        as (st2 & c2 & d2 & fv2 & Hrun & Hreg2 & _ & Hkeys & Hkeep & Hin
            & Hframe & _).
      exists st2. split.
      { rewrite (Hinit kv r Efeed). rewrite (bind_ret _ _ _ _ _ Hrun). reflexivity. }
      split; [apply lookup_ge_None; unfold self; lia|].
      destruct (registry_at_readers _ _ _ _ _ _ _ Hreg2) as (-> & _).
      split; [exact Hkeys|]. split; [exact Hkeep|].
      split.
      { intros name data Hi. destruct (Hin name _ Hi) as (l & Hg & Hl & Hnone).
        exists l. split; [exact Hg|]. split; [exact Hl|].
        apply lookup_ge_None. apply lookup_ge_None_1 in Hnone.
        unfold st1 in Hnone. cbn [heap] in Hnone. rewrite length_app in Hnone. lia. }
      apply Hframe.
      * unfold self. lia.
      * cbn [new_catalog _data_sets]. lia.
      * unfold st1. cbn [heap]. apply lookup_app_l_Some. exact Hd.
  - intros pre name v post Efeed Hfresh Hm.
    assert (Hndpre : NoDup (map fst pre)).
    { rewrite Efeed, map_app in Hnd. apply NoDup_app in Hnd. tauto. }
    destruct (add_feed_dict_run self pats [] false pre st1 _ _ _
                Hreg1 Hndpre Hfresh)
      as (s2 & c2 & d2 & fv2 & Hrun & Hreg2 & _ & _ & Hkeep & _).
    pose proof Hreg2 as (Hc2 & Hd2 & _).
    assert (Hm2 : dict_mem name d2 = true).
    { apply dict_mem_true in Hm. destruct Hm as [l Hl].
      apply dict_mem_true. exists l. apply Hkeep. exact Hl. }
    assert (Hfail : exists s3,
               add_feed_dict self ((name, v) :: post) false s2
               = (Raise (DatasetAlreadyExistsError (already_registered name)), s3)).
    { cbn [add_feed_dict]. destruct v as [ds|data].
      - exists s2. rewrite (bind_ret _ _ s2 s2 ds eq_refl).
        apply bind_raise. apply (add_refused s2 self c2 d2 name ds Hc2 Hd2 Hm2).
      - eexists. unfold bind at 1. unfold alloc at 1.
        apply bind_raise.
        apply (add_refused _ self c2 d2 name _).
        + cbn [heap]. apply lookup_app_l_Some. exact Hc2.
        + cbn [heap]. apply lookup_app_l_Some. exact Hd2.
        + exact Hm2. }
    destruct Hfail as (s3 & Hfail).
    exists s3.
    destruct feed_dict as [|kv r] eqn:E0;
      [destruct pre; discriminate|].
    rewrite <- E0 in *.
    rewrite (Hinit kv r E0). apply bind_raise.
    rewrite Efeed, add_feed_dict_app.
    rewrite (bind_ret _ _ _ _ _ Hrun). exact Hfail.
Qed.
End FeedDict.

(** ** Looking names up *)

Section Lookups.
Context {C : Collaborators}.

Lemma first_match_none (name : string) (l : list string) :
  (forall p, In p l -> parse p name = None) <->
  first_match name l = (None, length l).
Proof.
  induction l as [|p r IH]; cbn [first_match length].
  - split; [reflexivity|]. intros _ p [].
  - split.
    + intros H. rewrite (H p (or_introl eq_refl)).
      destruct IH as [IH _]. rewrite IH; [reflexivity|].
      intros q Hq. apply H. right. exact Hq.
    + destruct (parse p name) eqn:E; [discriminate|].
      destruct (first_match name r) as [m n] eqn:Er.
      intros H. injection H as -> ->.
      destruct IH as [_ IH]. specialize (IH eq_refl).
      intros q [<-|Hq]; [exact E|apply IH; exact Hq].
Qed.

Lemma first_match_bound (name : string) (l : list string) :
  (snd (first_match name l) <= length l)%nat
  /\ (fst (first_match name l) <> None -> (1 <= snd (first_match name l))%nat).
Proof.
  induction l as [|p r IH]; cbn [first_match length].
  - cbn. split; [lia|congruence].
  - destruct (parse p name); [cbn; split; lia|].
    destruct (first_match name r) as [m n]. cbn [fst snd] in *. split; lia.
Qed.

Lemma first_match_fst_none (name : string) (l : list string) :
  fst (first_match name l) = None <-> forall p, In p l -> parse p name = None.
Proof.
  rewrite first_match_none. split.
  - induction l as [|p r IH]; cbn [first_match length]; [reflexivity|].
    destruct (parse p name); [discriminate|].
    destruct (first_match name r) as [m n]. cbn [fst]. intros ->.
    specialize (IH eq_refl). injection IH as ->. reflexivity.
  - intros ->. reflexivity.
Qed.

(** [match_name_against_patterns] reads the sorted list of the catalog
    and nothing else (neither the exact-name map nor the match cache),
    and leaves every object as it is.  It calls [parse] at most once
    for each pattern, and at least once when it finds one; it answers
    [None] exactly when no pattern of the catalog parses the name, and
    otherwise a pattern of the catalog that parses the name. *)
Theorem match_name_reads_patterns_only (st : Store) (self : loc) (c : Catalog)
    (dataset_name : string) :
  heap st !! self = Some (OCatalog c) ->
  exists m n,
    match_name_against_patterns self dataset_name st
    = (Ret m, {| heap := heap st; parse_calls := (parse_calls st + n)%nat |})
    /\ (n <= length (_sorted_dataset_patterns c))%nat
    /\ (m = None <->
        forall p, In p (_sorted_dataset_patterns c) -> parse p dataset_name = None)
    /\ (forall p, m = Some p ->
          In p (_sorted_dataset_patterns c) /\ parse p dataset_name <> None
          /\ (1 <= n)%nat).
Proof.
  intros Hc.
  exists (fst (first_match dataset_name (_sorted_dataset_patterns c))),
         (snd (first_match dataset_name (_sorted_dataset_patterns c))).
  split.
  { unfold match_name_against_patterns, bind, get_catalog. rewrite Hc.
    destruct (first_match dataset_name (_sorted_dataset_patterns c)) as [m n].
    reflexivity. }
  destruct (first_match_bound dataset_name (_sorted_dataset_patterns c)) as [Hb H1].
  split; [exact Hb|]. split; [apply first_match_fst_none|].
  intros p Hp.
  destruct (first_match dataset_name (_sorted_dataset_patterns c)) as [m n] eqn:E.
  cbn [fst snd] in *. subst m.
  destruct (first_match_some _ _ _ _ E) as [Hin Hparse].
  split; [exact Hin|]. split; [exact Hparse|]. apply H1. discriminate.
Qed.

Lemma exists_in_catalog_config_registered (st : Store) (self : loc) (c : Catalog)
    (d fv : list (string * loc)) (pats : list (string * config))
    (cache : list (string * string)) (name : string) :
  registry_at st self c d fv pats cache ->
  dict_mem name d = true ->
  exists_in_catalog_config self name st = (Ret true, st).
Proof.
  intros (Hc & Hd & _ & _ & Hk & _) Hm.
  unfold exists_in_catalog_config, bind, get_catalog. rewrite Hc.
  unfold get_datasets. rewrite Hd. unfold get_cache. rewrite Hk, Hm. reflexivity.
Qed.

Lemma pattern_for_none (cache : list (string * string)) (sorted : list string)
    (name : string) :
  dict_mem name cache = false ->
  (forall p, In p sorted -> parse p name = None) ->
  pattern_for cache sorted name = None
  /\ snd (first_match name sorted) = length sorted.
Proof.
  intros Hk Hnone. unfold pattern_for.
  apply dict_mem_false in Hk. rewrite Hk.
  apply first_match_none in Hnone. rewrite Hnone. split; reflexivity.
Qed.

(** [exists_in_catalog_config] changes neither the exact-name map, nor
    the view, nor the patterns.  It answers true exactly when the name
    is registered or a pattern is found for it (in the cache, or by
    matching).  A true answer is remembered: the next call answers
    true with no call of [parse] and no change.  A false answer is
    not: the next call tries the patterns again, with as many calls of
    [parse]. *)
Theorem exists_in_catalog_config_remembers_matches (st : Store) (self : loc)
    (c : Catalog) (d fv : list (string * loc)) (pats : list (string * config))
    (cache : list (string * string)) (dataset_name : string) :
  registry_at st self c d fv pats cache ->
  exists b st',
    exists_in_catalog_config self dataset_name st = (Ret b, st')
    /\ exact_map st' self = d
    /\ frozen_view st' self = fv
    /\ pattern_table st' self = pats
    /\ (b = true <->
        dict_mem dataset_name d = true
        \/ pattern_for cache (_sorted_dataset_patterns c) dataset_name <> None)
    /\ (b = true ->
        exists_in_catalog_config self dataset_name st' = (Ret true, st'))
    /\ (b = false ->
        heap st' = heap st
        /\ exists st'',
             exists_in_catalog_config self dataset_name st' = (Ret false, st'')
             /\ heap st'' = heap st
             /\ (parse_calls st'' - parse_calls st'
                 = parse_calls st' - parse_calls st)%nat
             /\ (parse_calls st <= parse_calls st' <= parse_calls st'')%nat).
Proof.
  intros Hreg.
  destruct (dict_mem dataset_name d) eqn:Hm.
  - exists true, st.
    pose proof (exists_in_catalog_config_registered st self c d fv pats cache
                  dataset_name Hreg Hm) as Hrun.
    destruct (registry_at_readers _ _ _ _ _ _ _ Hreg) as (-> & -> & -> & _).
    split; [exact Hrun|]. repeat split; auto; discriminate.
  - pose proof (exists_in_catalog_config_run st self c d fv pats cache
                  dataset_name Hreg Hm) as Hrun.
    destruct (pattern_for cache (_sorted_dataset_patterns c) dataset_name)
      as [[[p n] cache']|] eqn:Hf.
    + eexists true, _. split; [exact Hrun|].
      pose proof (registry_at_cache st self c d fv pats cache cache'
                    (parse_calls st + n)%nat Hreg) as Hreg'.
      destruct (registry_at_readers _ _ _ _ _ _ _ Hreg') as (-> & -> & -> & _).
      split; [reflexivity|]. split; [reflexivity|]. split; [reflexivity|].
      split; [split; [intros _; right; discriminate|reflexivity]|].
      split; [|discriminate].
      intros _.
      rewrite (exists_in_catalog_config_run _ self c d fv pats cache'
                 dataset_name Hreg' Hm).
      assert (Hcached : pattern_for cache' (_sorted_dataset_patterns c) dataset_name
                        = Some (p, O, cache')).
      { unfold pattern_for.
        rewrite (pattern_for_cached _ _ _ _ _ _ Hf). reflexivity. }
      rewrite Hcached. cbn [heap parse_calls].
      rewrite Nat.add_0_r.
      rewrite list_insert_id; [reflexivity|].
      apply list_lookup_insert_eq.
      destruct Hreg as (_ & _ & _ & _ & Hk & _).
      apply (lookup_lt_Some _ _ _ Hk).
    + eexists false, _. split; [exact Hrun|].
      set (n := snd (first_match dataset_name (_sorted_dataset_patterns c))).
      assert (Hreg' : registry_at
                        {| heap := heap st; parse_calls := (parse_calls st + n)%nat |}
                        self c d fv pats cache) by exact Hreg.
      destruct (registry_at_readers _ _ _ _ _ _ _ Hreg') as (-> & -> & -> & _).
      split; [reflexivity|]. split; [reflexivity|]. split; [reflexivity|].
      split.
      { split; [discriminate|]. intros [H|H]; [discriminate|congruence]. }
      split; [discriminate|].
      intros _. split; [reflexivity|].
      eexists. split.
      { rewrite (exists_in_catalog_config_run _ self c d fv pats cache
                   dataset_name Hreg' Hm).
        rewrite Hf. reflexivity. }
      cbn [heap parse_calls]. fold n. split; [reflexivity|]. lia.
Qed.

(** *** A name that is not found *)

Lemma get_dataset_not_found (st : Store) (self : loc) (c : Catalog)
    (d fv : list (string * loc)) (pats : list (string * config))
    (cache : list (string * string)) (name : string)
    (version : option Version) (suggest : bool) :
  registry_at st self c d fv pats cache ->
  dict_mem name d = false ->
  dict_mem name cache = false ->
  (forall p, In p (_sorted_dataset_patterns c) -> parse p name = None) ->
  _get_dataset self name version suggest st
  = (Raise (DatasetNotFoundError (not_found_message name suggest (dict_keys d))),
     {| heap := heap st;
        parse_calls := (parse_calls st + length (_sorted_dataset_patterns c))%nat |}).
Proof.
  intros Hreg Hm Hk Hnone.
  rewrite (get_dataset_unregistered st self c d fv pats cache name version suggest
             Hreg Hm).
  unfold unregistered_outcome.
  destruct (pattern_for_none cache _ name Hk Hnone) as [-> ->]. reflexivity.
Qed.

(** For a name that is not registered, is not in the match cache and
    that no pattern parses, [load], [save], [release] and [confirm]
    raise [DatasetNotFoundError]; every object of the store is as it
    was, and every pattern has been tried once.  The message names the
    dataset, and suggests the close matches among the registered names
    when there are some. *)
Theorem unknown_name_not_found (st : Store) (self : loc) (c : Catalog)
    (d fv : list (string * loc)) (pats : list (string * config))
    (cache : list (string * string)) (name : string) :
  registry_at st self c d fv pats cache ->
  dict_mem name d = false ->
  dict_mem name cache = false ->
  (forall p, In p (_sorted_dataset_patterns c) -> parse p name = None) ->
  let st' := {| heap := heap st;
                parse_calls :=
                  (parse_calls st + length (_sorted_dataset_patterns c))%nat |} in
  let msg :=
    match get_close_matches name (dict_keys d) with
    | [] => "DataSet '" +:+ name +:+ "' not found in the catalog"
    | matches =>
        ("DataSet '" +:+ name +:+ "' not found in the catalog")
        +:+ " - did you mean one of these instead: " +:+ join_comma matches
    end in
  (forall version, load self name version st = (Raise (DatasetNotFoundError msg), st'))
  /\ (forall data, save self name data st = (Raise (DatasetNotFoundError msg), st'))
  /\ release self name st = (Raise (DatasetNotFoundError msg), st')
  /\ confirm self name st = (Raise (DatasetNotFoundError msg), st').
Proof.
  intros Hreg Hm Hk Hnone st' msg.
  assert (Hget : forall version,
             _get_dataset self name version true st
             = (Raise (DatasetNotFoundError msg), st')).
  { intros version.
    rewrite (get_dataset_not_found st self c d fv pats cache name version true
               Hreg Hm Hk Hnone).
    unfold not_found_message, msg.
    destruct (get_close_matches name (dict_keys d)); reflexivity. }
  split; [|split; [|split]].
  - intros version. unfold load. apply bind_raise. apply Hget.
  - intros data. unfold save. apply bind_raise. apply Hget.
  - unfold release. apply bind_raise. apply Hget.
  - unfold confirm. apply bind_raise. apply Hget.
Qed.

(** *** A name that is registered *)

(** The store with the instance at [l] in the state [i]. *)
Lemma call_method_run {A} (st : Store) (l : loc) (i : Dataset)
    (f : Dataset -> res A * Dataset) :
  heap st !! l = Some (OInstance i) ->
  call_method l f st
  = (fst (f i), {| heap := <[l := OInstance (snd (f i))]> (heap st);
                   parse_calls := parse_calls st |}).
Proof.
  intros H. unfold call_method, bind, get_instance. rewrite H. reflexivity.
Qed.

(** For a registered name the catalog relays [load], [save], [exists]
    and [release] to the registered dataset: the outcome is the one of
    the method of the dataset, the only object that may change is the
    dataset, and [parse] is not called, whatever patterns the catalog
    has. *)
Theorem registered_name_relays (st : Store) (self : loc) (c : Catalog)
    (d : list (string * loc)) (name : string) (inst : loc) (i : Dataset) :
  heap st !! self = Some (OCatalog c) ->
  heap st !! _data_sets c = Some (ODatasets d) ->
  dict_get name d = Some inst ->
  heap st !! inst = Some (OInstance i) ->
  let becomes (i' : Dataset) :=
    {| heap := <[inst := OInstance i']> (heap st); parse_calls := parse_calls st |} in
  load self name None st = (fst (ds_load i), becomes (snd (ds_load i)))
  /\ (forall data,
        save self name data st = (fst (ds_save i data), becomes (snd (ds_save i data))))
  /\ DataCatalog_exists self name st = (fst (ds_exists i), becomes (snd (ds_exists i)))
  /\ release self name st = (fst (ds_release i), becomes (snd (ds_release i)))
  /\ (forall i', exact_map (becomes i') self = d
                 /\ forall l, l <> inst -> heap (becomes i') !! l = heap st !! l).
Proof.
  intros Hc Hd Hg Hi becomes.
  assert (Hget : forall suggest,
             _get_dataset self name None suggest st = (Ret inst, st)).
  { intros suggest.
    apply (get_dataset_registered st self c d name inst None suggest Hc Hd Hg). }
  split; [|split; [|split; [|split]]].
  - unfold load. cbn [load_version_of]. rewrite (bind_ret _ _ _ _ _ (Hget true)).
    apply call_method_run. exact Hi.
  - intros data. unfold save. rewrite (bind_ret _ _ _ _ _ (Hget true)).
    apply (call_method_run st inst i (fun x => ds_save x data) Hi).
  - unfold DataCatalog_exists.
    assert (Htry : try_except
                     (dataset <- _get_dataset self name None true ;; ret (Some dataset))
                     (fun e => match e with
                               | DatasetNotFoundError _ => Some (ret None)
                               | _ => None
                               end) st = (Ret (Some inst), st)).
    { unfold try_except. rewrite (bind_ret _ _ _ _ _ (Hget true)). reflexivity. }
    rewrite (bind_ret _ _ _ _ _ Htry). apply call_method_run. exact Hi.
  - unfold release. rewrite (bind_ret _ _ _ _ _ (Hget true)).
    apply call_method_run. exact Hi.
  - intros i'.
    assert (N1 : inst <> self)
      by (eapply lookup_distinct; [exact Hi|exact Hc|exact I]).
    assert (N2 : inst <> _data_sets c)
      by (eapply lookup_distinct; [exact Hi|exact Hd|exact I]).
    split.
    + unfold exact_map, becomes. cbn [heap].
      rewrite list_lookup_insert_ne by exact N1. rewrite Hc.
      rewrite list_lookup_insert_ne by exact N2. rewrite Hd. reflexivity.
    + intros l Hl. unfold becomes. cbn [heap].
      apply list_lookup_insert_ne. congruence.
Qed.

(** [load] with a version.  On a versioned dataset the data is loaded
    from a copy of the registered dataset made for that version: the
    registered dataset is not touched, and the copy is not registered.
    On a dataset that is not versioned the version is ignored.  An
    empty version string is no version. *)
Theorem load_version_uses_a_copy (st : Store) (self : loc) (c : Catalog)
    (d : list (string * loc)) (name : string) (inst : loc) (i : Dataset)
    (a : ascii) (v : string) :
  heap st !! self = Some (OCatalog c) ->
  heap st !! _data_sets c = Some (ODatasets d) ->
  dict_get name d = Some inst ->
  heap st !! inst = Some (OInstance i) ->
  let version := String a v in
  let copy := ds_copy i (Some version, None) in
  (is_versioned i = true ->
   exists st',
     load self name (Some version) st = (fst (ds_load copy), st')
     /\ heap st' = heap st ++ [OInstance (snd (ds_load copy))]
     /\ heap st' !! inst = Some (OInstance i)
     /\ exact_map st' self = d)
  /\ (is_versioned i = false ->
      load self name (Some version) st = load self name None st)
  /\ load self name (Some EmptyString) st = load self name None st.
Proof.
  intros Hc Hd Hg Hi version copy. subst copy version.
  pose proof (get_dataset_registered st self c d name inst
                (Some (Some (String a v), None)) true Hc Hd Hg) as Hget.
  cbv beta iota in Hget. rewrite Hi in Hget.
  set (copy := ds_copy i (Some (String a v), None)) in *.
  pose proof (lookup_lt_Some _ _ _ Hi) as Li.
  pose proof (lookup_lt_Some _ _ _ Hc) as Lc.
  pose proof (lookup_lt_Some _ _ _ Hd) as Ld.
  split; [|split].
  - intros Hv. rewrite Hv in Hget.
    eexists. split.
    { unfold load. cbn [load_version_of].
      rewrite (bind_ret _ _ _ _ _ Hget).
      apply call_method_run. cbn [heap].
      rewrite lookup_app_r by lia. rewrite Nat.sub_diag. reflexivity. }
    cbn [heap].
    assert (Hins : <[length (heap st) := OInstance (snd (ds_load copy))]>
                     (heap st ++ [OInstance copy])
                   = heap st ++ [OInstance (snd (ds_load copy))]).
    { rewrite insert_app_r_alt by lia. rewrite Nat.sub_diag. reflexivity. }
    rewrite Hins.
    split; [reflexivity|].
    split; [apply lookup_app_l_Some; exact Hi|].
    unfold exact_map. cbn [heap].
    rewrite (lookup_app_l_Some _ _ _ _ Hc), (lookup_app_l_Some _ _ _ _ Hd).
    reflexivity.
  - intros Hv. rewrite Hv in Hget.
    pose proof (get_dataset_registered st self c d name inst None true Hc Hd Hg)
      as Hget0.
    unfold load. cbn [load_version_of].
    rewrite (bind_ret _ _ _ _ _ Hget), (bind_ret _ _ _ _ _ Hget0). reflexivity.
  - reflexivity.
Qed.

(** [confirm] on a registered name: a dataset with no [confirm] method
    gives [DatasetError], whose message names the dataset, and nothing
    is changed; otherwise the outcome is the one of the method, and
    the only object that may change is the dataset. *)
Theorem confirm_registered (st : Store) (self : loc) (c : Catalog)
    (d : list (string * loc)) (name : string) (inst : loc) (i : Dataset) :
  heap st !! self = Some (OCatalog c) ->
  heap st !! _data_sets c = Some (ODatasets d) ->
  dict_get name d = Some inst ->
  heap st !! inst = Some (OInstance i) ->
  confirm self name st
  = match ds_confirm i with
    | None =>
        (Raise (DatasetError
                  ("Dataset '" +:+ name +:+ "' does not have 'confirm' method")),
         st)
    | Some (r, i') =>
        (r, {| heap := <[inst := OInstance i']> (heap st);
               parse_calls := parse_calls st |})
    end.
Proof.
  intros Hc Hd Hg Hi.
  pose proof (get_dataset_registered st self c d name inst None true Hc Hd Hg)
    as Hget.
  unfold confirm. rewrite (bind_ret _ _ _ _ _ Hget).
  unfold bind, get_instance. rewrite Hi.
  destruct (ds_confirm i) as [[r i']|]; reflexivity.
Qed.

(** *** A pattern that matches and a build that fails *)

(** When a pattern is found for a name that is not registered and the
    build of the dataset fails with an exception of the program (the
    template does not resolve: [DatasetError] for a key with no
    capture, [ValueError] for a malformed field, [AttributeError] for
    a pattern that does not parse the name; or the dataset class
    refuses the config), the error goes to the caller, of [exists]
    too; nothing is registered, and the name stays in the match cache,
    so that [exists_in_catalog_config] answers true for a name that
    cannot be loaded.  A template with a field outside the fragment of
    [format_map] that is modelled is not spoken of. *)
Theorem failed_build_stays_cached (st : Store) (self : loc) (c : Catalog)
    (d fv : list (string * loc)) (pats : list (string * config))
    (cache : list (string * string)) (name pattern : string) (n : nat)
    (cache' : list (string * string)) (template : config) (e : exn) :
  registry_at st self c d fv pats cache ->
  dict_mem name d = false ->
  pattern_for cache (_sorted_dataset_patterns c) name = Some (pattern, n, cache') ->
  dict_get pattern pats = Some template ->
  match resolve_template pattern (parse pattern name) template with
  | Raise e' => e = e'
  | Ret cfg =>
      exists msg, AbstractDataSet_from_config name cfg None None = inl msg
                  /\ e = DatasetError msg
  end ->
  (forall what, e <> Unmodelled what) ->
  exists st',
    (forall version suggest,
        _get_dataset self name version suggest st = (Raise e, st'))
    /\ DataCatalog_exists self name st = (Raise e, st')
    /\ exact_map st' self = d
    /\ frozen_view st' self = fv
    /\ dict_get name (match_cache st' self) = Some pattern
    /\ exists_in_catalog_config self name st' = (Ret true, st').
Proof.
  intros Hreg Hm Hf Ht Hfail _.
  set (st' := {| heap := <[_pattern_matches_cache c := OCache cache']> (heap st);
                 parse_calls := (parse_calls st + n + 1)%nat |}).
  assert (Hget : forall version suggest,
             _get_dataset self name version suggest st = (Raise e, st')).
  { intros version suggest.
    rewrite (get_dataset_unregistered st self c d fv pats cache name version suggest
               Hreg Hm).
    unfold unregistered_outcome. rewrite Hf. cbv zeta. rewrite Ht.
    destruct (resolve_template pattern (parse pattern name) template) as [cfg|e'].
    - destruct Hfail as (msg & -> & ->). reflexivity.
    - subst e'. reflexivity. }
  assert (Hnf : forall msg, e <> DatasetNotFoundError msg).
  { intros msg He.
    destruct (resolve_template pattern (parse pattern name) template) as [cfg|e']
      eqn:Hr.
    - destruct Hfail as (msg' & _ & ->). discriminate.
    - subst e'. subst e. exact (resolve_template_not_found _ _ _ _ Hr). }
  pose proof (registry_at_cache st self c d fv pats cache cache'
                (parse_calls st + n + 1)%nat Hreg) as Hreg'.
  fold st' in Hreg'.
  exists st'. split; [exact Hget|].
  split.
  { unfold DataCatalog_exists. apply bind_raise.
    unfold try_except. rewrite (bind_raise _ _ _ _ _ (Hget None true)).
    destruct e; try reflexivity. exfalso. exact (Hnf msg eq_refl). }
  destruct (registry_at_readers _ _ _ _ _ _ _ Hreg') as (-> & -> & _ & ->).
  split; [reflexivity|]. split; [reflexivity|].
  pose proof (pattern_for_cached _ _ _ _ _ _ Hf) as Hcached.
  split; [exact Hcached|].
  rewrite (exists_in_catalog_config_run st' self c d fv pats cache' name Hreg' Hm).
  unfold pattern_for. rewrite Hcached.
  unfold st'. cbn [heap parse_calls]. rewrite Nat.add_0_r.
  rewrite list_insert_id; [reflexivity|].
  apply list_lookup_insert_eq.
  destruct Hreg as (_ & _ & _ & _ & Hk & _). apply (lookup_lt_Some _ _ _ Hk).
Qed.

(** *** What no call undoes *)

(** Whatever calls are made, on this catalog or on any other object: a
    name that is registered stays registered, a name in the match
    cache stays in it, the patterns of the catalog and their order are
    the same, and the catalog keeps its exact-name map object and its
    layers. *)
Theorem nothing_is_unregistered (st : Store) (self : loc) (c : Catalog)
    (d fv : list (string * loc)) (pats : list (string * config))
    (cache : list (string * string)) (calls : list call) :
  registry_at st self c d fv pats cache ->
  let st' := exec_all calls st in
  (forall name, dict_mem name d = true ->
                dict_mem name (exact_map st' self) = true)
  /\ (forall name, dict_mem name cache = true ->
                   dict_mem name (match_cache st' self) = true)
  /\ pattern_table st' self = pats
  /\ exists c',
       heap st' !! self = Some (OCatalog c')
       /\ _data_sets c' = _data_sets c
       /\ layers c' = layers c
       /\ dataset_patterns c' = dataset_patterns c
       /\ _sorted_dataset_patterns c' = _sorted_dataset_patterns c
       /\ _pattern_matches_cache c' = _pattern_matches_cache c.
Proof.
  intros Hreg st'. pose proof Hreg as (Hc & Hd & Hv & Hp & Hk & _).
  pose proof (exec_all_monotone calls st) as Hle. fold st' in Hle.
  destruct (Hle _ _ Hc) as (oc & Hoc & Hlec).
  destruct oc as [| | | | |c'|]; cbn [obj_le] in Hlec; try contradiction.
  destruct Hlec as (E1 & E2 & E3 & E4 & E5).
  destruct (Hle _ _ Hd) as (od & Hod & Hled).
  destruct od as [d'| | | | | |]; cbn [obj_le] in Hled; try contradiction.
  destruct (Hle _ _ Hp) as (op & Hop & Hlep).
  destruct op as [|p'| | | | |]; cbn [obj_le] in Hlep; try contradiction.
  destruct (Hle _ _ Hk) as (ok & Hok & Hlek).
  destruct ok as [| | |k'| | |]; cbn [obj_le] in Hlek; try contradiction.
  split; [|split; [|split]].
  - intros name Hm. unfold exact_map. rewrite Hoc, <- E1, Hod. apply Hled. exact Hm.
  - intros name Hm. unfold match_cache. rewrite Hoc, <- E5, Hok. apply Hlek. exact Hm.
  - unfold pattern_table. rewrite Hoc, <- E3, Hop. congruence.
  - exists c'. repeat split; congruence.
Qed.
End Lookups.

(** ** [DataCatalog.list] *)

Lemma lstrip_all_space (s : string) : all_space s = true -> lstrip s = EmptyString.
Proof.
  induction s as [|c r IH]; intros H; [reflexivity|].
  cbn [all_space] in H. apply andb_prop in H. destruct H as [Hc Hr].
  cbn [lstrip]. rewrite Hc. apply IH. exact Hr.
Qed.

Lemma rstrip_empty (s : string) : rstrip s = EmptyString -> all_space s = true.
Proof.
  induction s as [|c r IH]; intros H; [reflexivity|].
  cbn [rstrip] in H. cbn [all_space].
  destruct (rstrip r) as [|c' r']; [|discriminate].
  destruct (is_space c); [|discriminate].
  rewrite IH; reflexivity.
Qed.

Lemma all_space_lstrip (s : string) :
  all_space (lstrip s) = true -> all_space s = true.
Proof.
  induction s as [|c r IH]; intros H; [reflexivity|].
  cbn [lstrip] in H. cbn [all_space].
  destruct (is_space c) eqn:E.
  - rewrite IH; [reflexivity|exact H].
  - cbn [all_space] in H. rewrite E in H. discriminate.
Qed.

Lemma strip_empty (s : string) : strip s = EmptyString <-> all_space s = true.
Proof.
  unfold strip. split.
  - intros H. apply all_space_lstrip, rstrip_empty. exact H.
  - intros H. rewrite (lstrip_all_space s H). reflexivity.
Qed.

Section ListNames.
Context {C : Collaborators}.
Context (re_compile : string -> option (string -> bool)).

(** [list()] gives the registered names in the order of registration.
    With a search string made of whitespace only (the empty string
    too) it gives no name at all.  With any other search string it
    gives the registered names that the compiled expression finds, in
    the order of registration, or the [SyntaxError] that names the
    string when it does not compile.  Pattern names are never listed,
    and the store is not changed. *)
Theorem list_registered_names (st : Store) (self : loc) (c : Catalog)
    (d fv : list (string * loc)) (pats : list (string * config))
    (cache : list (string * string)) :
  registry_at st self c d fv pats cache ->
  DataCatalog_list re_compile self None st = (Ret (Listing (dict_keys d)), st)
  /\ (forall regex, all_space regex = true ->
        DataCatalog_list re_compile self (Some regex) st = (Ret (Listing []), st))
  /\ (forall regex, all_space regex = false -> re_compile regex = None ->
        DataCatalog_list re_compile self (Some regex) st
        = (Ret (ListingSyntaxError
                  ("Invalid regular expression provided: '" +:+ regex +:+ "'")), st))
  /\ (forall regex search, all_space regex = false ->
        re_compile regex = Some search ->
        exists names,
          DataCatalog_list re_compile self (Some regex) st = (Ret (Listing names), st)
          /\ names = List.filter search (dict_keys d)
          /\ (forall n, In n names <-> dict_mem n d = true /\ search n = true)
          /\ (forall p, dict_mem p pats = true -> dict_mem p d = false ->
                        ~ In p names)).
Proof.
  intros (Hc & Hd & _).
  assert (Hread : (c0 <- get_catalog self ;; get_datasets (_data_sets c0)) st
                  = (Ret d, st)).
  { unfold bind, get_catalog. rewrite Hc. unfold get_datasets. rewrite Hd.
    reflexivity. }
  assert (Hnonblank : forall regex, all_space regex = false ->
             exists a r, strip regex = String a r).
  { intros regex H. destruct (strip regex) as [|a r] eqn:E; [|eauto].
    apply strip_empty in E. congruence. }
  assert (Hkeys : forall n, In n (dict_keys d) <-> dict_mem n d = true).
  { intros n. split.
    - intros H. destruct (dict_mem n d) eqn:E; [reflexivity|].
      apply dict_mem_false in E. exfalso. exact (dict_get_none_keys _ _ E H).
    - intros H. apply dict_mem_true in H. destruct H as [l Hl].
      clear -Hl. induction d as [|[k v] r IH]; [discriminate|].
      cbn [dict_get] in Hl. cbn [dict_keys map fst].
      destruct (String.eqb_spec k n) as [->|Hne]; [left; reflexivity|].
      right. apply IH. exact Hl. }
  split; [|split; [|split]].
  - unfold DataCatalog_list, bind, get_catalog. rewrite Hc.
    unfold get_datasets. rewrite Hd. reflexivity.
  - intros regex H. unfold DataCatalog_list.
    apply strip_empty in H. rewrite H. reflexivity.
  - intros regex H Hre. unfold DataCatalog_list.
    destruct (Hnonblank regex H) as (a & r & ->). rewrite Hre. reflexivity.
  - intros regex search H Hre. exists (List.filter search (dict_keys d)).
    split.
    { unfold DataCatalog_list.
      destruct (Hnonblank regex H) as (a & r & ->). rewrite Hre.
      unfold bind, get_catalog. rewrite Hc. unfold get_datasets. rewrite Hd.
      reflexivity. }
    split; [reflexivity|].
    split.
    + intros n. rewrite List.filter_In, Hkeys. reflexivity.
    + intros p _ Hp Hin. apply List.filter_In in Hin. destruct Hin as [Hin _].
      apply Hkeys in Hin. congruence.
Qed.
End ListNames.

(** ** Layers ([from_config]) *)

Lemma in_set_add (x y : string) (s : list string) :
  In x (set_add y s) <-> In x s \/ x = y.
Proof.
  unfold set_add. destruct (existsb (String.eqb y) s) eqn:E.
  - split; [auto|]. intros [H| ->]; [exact H|].
    apply existsb_exists in E. destruct E as (z & Hz & Ez).
    apply String.eqb_eq in Ez. subst z. exact Hz.
  - rewrite in_app_iff. cbn [In]. split.
    + intros [H|[H|[]]]; auto.
    + intros [H|H]; auto.
Qed.

Lemma key_eqb_str (k : value) (l : string) :
  key_eqb k (VStr l) = true <-> k = VStr l.
Proof.
  destruct k; cbn [key_eqb]; split; try discriminate; try congruence.
  - intros H. apply String.eqb_eq in H. congruence.
  - intros H. injection H as ->. apply String.eqb_refl.
Qed.

Lemma key_eqb_str_l (l : string) (v : value) :
  key_eqb (VStr l) v = true <-> v = VStr l.
Proof.
  destruct v; cbn [key_eqb]; split; try discriminate; try congruence.
  - intros H. apply String.eqb_eq in H. congruence.
  - intros H. injection H as ->. apply String.eqb_refl.
Qed.

Lemma in_layer_add (l name : string) (v : value) (ds_name : string)
    (layers : list (value * list string)) :
  in_layer l name (layers_add v ds_name layers)
  <-> in_layer l name layers \/ (v = VStr l /\ name = ds_name).
Proof.
  unfold in_layer.
  induction layers as [|[k names] r IH]; cbn [layers_add layer_get].
  - destruct (key_eqb v (VStr l)) eqn:E.
    + apply key_eqb_str in E. subst v. split.
      * intros (ns & Hns & Hin). injection Hns as <-.
        destruct Hin as [<-|[]]. right. split; reflexivity.
      * intros [(ns & Hns & _)|[_ ->]]; [discriminate|].
        exists [ds_name]. split; [reflexivity|left; reflexivity].
    + split.
      * intros (ns & Hns & _). discriminate.
      * intros [(ns & Hns & _)|[-> _]]; [discriminate|].
        cbn [key_eqb] in E. rewrite String.eqb_refl in E. discriminate.
  - destruct (key_eqb k v) eqn:Ekv; cbn [layer_get].
    + destruct (key_eqb k (VStr l)) eqn:Ekl.
      * apply key_eqb_str in Ekl. subst k.
        apply key_eqb_str_l in Ekv. subst v.
        split.
        -- intros (ns & Hns & Hin). injection Hns as <-.
           apply in_set_add in Hin. destruct Hin as [Hin| ->].
           ++ left. exists names. split; [reflexivity|exact Hin].
           ++ right. split; reflexivity.
        -- intros [(ns & Hns & Hin)|[_ ->]].
           ++ injection Hns as <-. exists (set_add ds_name names).
              split; [reflexivity|]. apply in_set_add. left. exact Hin.
           ++ exists (set_add ds_name names).
              split; [reflexivity|]. apply in_set_add. right. reflexivity.
      * split; [intros H; left; exact H|].
        intros [H|[-> _]]; [exact H|]. congruence.
    + destruct (key_eqb k (VStr l)) eqn:Ekl.
      * split; [intros H; left; exact H|].
        intros [H|[-> _]]; [exact H|]. congruence.
      * exact IH.
Qed.

Lemma layers_add_not_empty (v : value) (ds_name : string)
    (layers : list (value * list string)) :
  layers_add v ds_name layers <> [].
Proof.
  destruct layers as [|[k names] r]; cbn [layers_add]; [discriminate|].
  destruct (key_eqb k v); discriminate.
Qed.

Section Layers.
Context {C : Collaborators}.

(** The layers that the loop of [from_config] records. *)
Lemma from_config_loop_layers (credentials : config)
    (load_versions : list (string * string)) (save_version : string)
    (catalog : list (string * config)) :
  forall (acc : built) (st : Store) (b : built) (st' : Store),
  from_config_loop catalog credentials load_versions save_version acc st
  = (Ret b, st') ->
  (forall l name,
      in_layer l name (b_layers b)
      <-> in_layer l name (b_layers acc)
          \/ exists cfg, In (name, cfg) catalog
                         /\ str_contains ch_rbrace name = false
                         /\ dict_get "layer" cfg = Some (VStr l))
  /\ (b_layers b = []
      <-> b_layers acc = []
          /\ forall name cfg, In (name, cfg) catalog ->
               str_contains ch_rbrace name = false ->
               dict_get "layer" cfg = None \/ dict_get "layer" cfg = Some VNone).
Proof.
  induction catalog as [|[n0 c0] catalog IH]; intros acc st b st' Hrun.
  - cbn [from_config_loop] in Hrun. injection Hrun as <- <-.
    split.
    + intros l name. split; [auto|]. intros [H|(cfg & [] & _)]. exact H.
    + split; [intros H; split; [exact H|intros ? ? []]|tauto].
  - cbn [from_config_loop] in Hrun.
    destruct (str_contains ch_rbrace n0) eqn:Hpat.
    + (* a pattern *)
      destruct (IH _ _ _ _ Hrun) as (Hin & Hnil). cbn [b_layers] in Hin, Hnil.
      split.
      * intros l name. rewrite Hin. split.
        -- intros [H|(cfg & Hi & Hb & Hl)]; [left; exact H|].
           right. exists cfg. split; [right; exact Hi|]. split; assumption.
        -- intros [H|(cfg & [E|Hi] & Hb & Hl)]; [left; exact H| |].
           ++ injection E as <- <-. congruence.
           ++ right. exists cfg. split; [exact Hi|]. split; assumption.
      * rewrite Hnil. split.
        -- intros [H1 H2]. split; [exact H1|].
           intros name cfg [E|Hi] Hb; [injection E as <- <-; congruence|].
           apply (H2 name cfg Hi Hb).
        -- intros [H1 H2]. split; [exact H1|].
           intros name cfg Hi Hb. apply (H2 name cfg (or_intror Hi) Hb).
    + (* an exact registration *)
      unfold bind at 1 in Hrun.
      destruct ((match dict_get "layer" c0 with
                 | Some VNone | None => ret (b_layers acc)
                 | Some v =>
                     if is_hashable v
                     then ret (layers_add v n0 (b_layers acc))
                     else raise (TypeError (unhashable v))
                 end) st) as [[layers'|e] st0] eqn:Hlay; [|discriminate].
      unfold bind at 1 in Hrun. unfold lift at 1 in Hrun.
      destruct (_resolve_credentials (dict_del "layer" c0) credentials)
        as [cfg'|e] eqn:Hcred; [|discriminate].
      destruct (AbstractDataSet_from_config n0 cfg' (dict_get n0 load_versions)
                  (Some save_version)) as [msg|ds] eqn:Hds; [discriminate|].
      unfold bind at 1 in Hrun. unfold alloc at 1 in Hrun.
      destruct (IH _ _ _ _ Hrun) as (Hin & Hnil). cbn [b_layers] in Hin, Hnil.
      (* what the first entry adds *)
      assert (Hfirst :
        (forall l name,
            in_layer l name layers'
            <-> in_layer l name (b_layers acc)
                \/ (dict_get "layer" c0 = Some (VStr l) /\ name = n0))
        /\ (layers' = []
            <-> b_layers acc = []
                /\ (dict_get "layer" c0 = None \/ dict_get "layer" c0 = Some VNone))).
      { destruct (dict_get "layer" c0) as [v|] eqn:Hl.
        - destruct v as [|bb|z|s|xs|items];
            cbn [is_hashable] in Hlay; unfold ret, raise in Hlay;
            try discriminate; injection Hlay as <- <-.
          + split.
            * intros l name. split; [auto|]. intros [H|[H _]]; [exact H|discriminate].
            * split; [intros H; split; [exact H|right; reflexivity]|tauto].
          + split.
            * intros l name. rewrite in_layer_add. split.
              -- intros [H|[H _]]; [left; exact H|discriminate].
              -- intros [H|[H _]]; [left; exact H|discriminate].
            * split; [intros H; exfalso; exact (layers_add_not_empty _ _ _ H)|].
              intros [_ [H|H]]; discriminate.
          + split.
            * intros l name. rewrite in_layer_add. split.
              -- intros [H|[H _]]; [left; exact H|discriminate].
              -- intros [H|[H _]]; [left; exact H|discriminate].
            * split; [intros H; exfalso; exact (layers_add_not_empty _ _ _ H)|].
              intros [_ [H|H]]; discriminate.
          + split.
            * intros l name. rewrite in_layer_add. split.
              -- intros [H|[H ->]]; [left; exact H|].
                 right. split; [congruence|reflexivity].
              -- intros [H|[H ->]]; [left; exact H|].
                 right. split; [congruence|reflexivity].
            * split; [intros H; exfalso; exact (layers_add_not_empty _ _ _ H)|].
              intros [_ [H|H]]; discriminate.
        - unfold ret in Hlay. injection Hlay as <- <-.
          split.
          + intros l name. split; [auto|]. intros [H|[H _]]; [exact H|discriminate].
          + split; [intros H; split; [exact H|left; reflexivity]|tauto]. }
      destruct Hfirst as (Hadd & Hempty).
      split.
      * intros l name. rewrite Hin, Hadd. split.
        -- intros [[H|[Hl ->]]|(cfg & Hi & Hb & Hl)].
           ++ left. exact H.
           ++ right. exists c0. split; [left; reflexivity|]. split; assumption.
           ++ right. exists cfg. split; [right; exact Hi|]. split; assumption.
        -- intros [H|(cfg & [E|Hi] & Hb & Hl)].
           ++ left. left. exact H.
           ++ injection E as <- <-. left. right. split; [exact Hl|reflexivity].
           ++ right. exists cfg. split; [exact Hi|]. split; assumption.
      * rewrite Hnil, Hempty. split.
        -- intros [[H1 H0] H2]. split; [exact H1|].
           intros name cfg [E|Hi] Hb; [injection E as <- <-; exact H0|].
           apply (H2 name cfg Hi Hb).
        -- intros [H1 H2]. split; [split; [exact H1|]|].
           ++ apply (H2 n0 c0 (or_introl eq_refl) Hpat).
           ++ intros name cfg Hi Hb. apply (H2 name cfg (or_intror Hi) Hb).
Qed.

(** [from_config] after the loop, with the layers of the new catalog. *)
Lemma from_config_finish_layers (st : Store) (b : built) (self : loc) (st' : Store) :
  (data_sets <- alloc (ODatasets (b_data_sets b)) ;;
   dataset_layers <- match b_layers b with
                     | [] => ret None
                     | l => x <- alloc (OLayers l) ;; ret (Some x)
                     end ;;
   dataset_patterns <- alloc (OPatterns (b_patterns b)) ;;
   DataCatalog_init (Some data_sets) None dataset_layers (Some dataset_patterns)) st
  = (Ret self, st') ->
  exists c',
    heap st' !! self = Some (OCatalog c')
    /\ match b_layers b with
       | [] => layers c' = None
       | L => exists x, layers c' = Some x /\ heap st' !! x = Some (OLayers L)
       end.
Proof.
  unfold bind at 1. unfold alloc at 1.
  set (st1 := {| heap := heap st ++ [ODatasets (b_data_sets b)];
                 parse_calls := parse_calls st |}).
  assert (H1 : heap st1 !! length (heap st) = Some (ODatasets (b_data_sets b))).
  { unfold st1. cbn [heap]. rewrite lookup_app_r by lia.
    rewrite Nat.sub_diag. reflexivity. }
  assert (Hfin : forall st2 lay more2,
             heap st2 = heap st1 ++ more2 ->
             (dataset_patterns <- alloc (OPatterns (b_patterns b)) ;;
              DataCatalog_init (Some (length (heap st))) None lay
                (Some dataset_patterns)) st2 = (Ret self, st') ->
             exists c', heap st' !! self = Some (OCatalog c')
                        /\ layers c' = lay
                        /\ forall l o, heap st2 !! l = Some o -> heap st' !! l = Some o).
  { intros st2 lay more2 E2. unfold bind, alloc.
    set (st3 := {| heap := heap st2 ++ [OPatterns (b_patterns b)];
                   parse_calls := parse_calls st2 |}).
    assert (Hd3 : heap st3 !! length (heap st) = Some (ODatasets (b_data_sets b))).
    { unfold st3. cbn [heap]. rewrite E2.
      apply lookup_app_l_Some, lookup_app_l_Some. exact H1. }
    assert (Hp3 : heap st3 !! length (heap st2) = Some (OPatterns (b_patterns b))).
    { unfold st3. cbn [heap]. rewrite lookup_app_r by lia.
      rewrite Nat.sub_diag. reflexivity. }
    rewrite (init_run st3 _ _ lay _ _ Hd3 Hp3).
    destruct (lookup_new_registry (heap st3) (b_data_sets b) lay (b_patterns b))
      as (N0 & N1 & N2 & N3 & N4).
    intros H. injection H as <- <-.
    eexists. split; [exact N4|]. split; [reflexivity|].
    intros l o Ho. cbn [heap]. apply lookup_app_l_Some.
    unfold st3. cbn [heap]. apply lookup_app_l_Some. exact Ho. }
  destruct (b_layers b) as [|x l].
  - unfold bind at 1. unfold ret at 1. intros H.
    destruct (Hfin st1 None [] (eq_sym (app_nil_r _)) H) as (c' & Hc' & Hl & _).
    exists c'. split; assumption.
  - unfold bind at 1. unfold bind at 1. unfold alloc at 1. unfold ret at 1.
    intros H.
    destruct (Hfin {| heap := heap st1 ++ [OLayers (x :: l)];
                      parse_calls := parse_calls st1 |}
                _ [OLayers (x :: l)] eq_refl H) as (c' & Hc' & Hl & Hkeep).
    exists c'. split; [exact Hc'|]. eexists. split; [exact Hl|].
    apply Hkeep. cbn [heap]. rewrite lookup_app_r by lia.
    rewrite Nat.sub_diag. reflexivity.
Qed.

(** The layers of a catalog built by [from_config].  The attribute
    [layers] is [None] exactly when no entry that is built has a layer
    (a "layer" key with a value other than [None]; the layers here
    are strings).  Otherwise it is a dict in which a dataset is in a
    layer exactly when its entry is built and names that layer: an
    entry kept as a pattern gives no layer. *)
Theorem from_config_layers (timestamp : string)
    (catalog : option (list (string * config))) (credentials : option config)
    (load_versions : option (list (string * string)))
    (save_version : option string) (st : Store) (self : loc) (st' : Store) :
  from_config timestamp catalog credentials load_versions save_version st
  = (Ret self, st') ->
  exists c' recorded,
    heap st' !! self = Some (OCatalog c')
    /\ match layers c' with
       | None => recorded = []
       | Some x => heap st' !! x = Some (OLayers recorded) /\ recorded <> []
       end
    /\ (layers c' = None
        <-> forall name cfg, In (name, cfg) (or_empty catalog) ->
              str_contains ch_rbrace name = false ->
              dict_get "layer" cfg = None \/ dict_get "layer" cfg = Some VNone)
    /\ (forall l name,
          in_layer l name recorded
          <-> exists cfg, In (name, cfg) (or_empty catalog)
                          /\ str_contains ch_rbrace name = false
                          /\ dict_get "layer" cfg = Some (VStr l)).
Proof.
  unfold from_config, deepcopy. cbv zeta.
  destruct (List.filter _ _); [|discriminate].
  unfold bind at 1.
  destruct (from_config_loop (or_empty catalog) (or_empty credentials)
              (or_empty load_versions)
              (shared_save_version timestamp save_version)
              {| b_data_sets := []; b_patterns := []; b_layers := [] |} st)
    as [[b|e] st_b] eqn:Hloop; [|discriminate].
  intros Hfin.
  destruct (from_config_loop_layers _ _ _ _ _ _ _ _ Hloop) as (Hin & Hnil).
  cbn [b_layers] in Hin, Hnil.
  destruct (from_config_finish_layers st_b b self st' Hfin) as (c' & Hc' & Hlay).
  exists c', (b_layers b). split; [exact Hc'|].
  assert (Hno : forall l name, ~ in_layer l name []).
  { intros l name (ns & Hns & _). discriminate. }
  destruct (b_layers b) as [|x L] eqn:Eb.
  - rewrite Hlay. split; [reflexivity|]. split.
    + split; [intros _; apply Hnil; reflexivity|reflexivity].
    + intros l name. rewrite Hin. split.
      * intros [H|H]; [exfalso; exact (Hno _ _ H)|exact H].
      * intros H. right. exact H.
  - destruct Hlay as (y & Hy & Hobj). rewrite Hy.
    split; [split; [exact Hobj|discriminate]|]. split.
    + split; [discriminate|]. intros H.
      destruct Hnil as [_ Hnil]. discriminate Hnil. split; [reflexivity|exact H].
    + intros l name. rewrite Hin. split.
      * intros [H|H]; [exfalso; exact (Hno _ _ H)|exact H].
      * intros H. right. exact H.
Qed.
End Layers.

(** ** A configuration of patterns only *)

Section PatternsOnly.
Context {C : Collaborators}.

Lemma from_config_loop_patterns (credentials : config)
    (load_versions : list (string * string)) (save_version : string)
    (catalog : list (string * config)) :
  (forall name, In name (dict_keys catalog) -> str_contains ch_rbrace name = true) ->
  forall (acc : built) (st : Store),
  from_config_loop catalog credentials load_versions save_version acc st
  = (Ret {| b_data_sets := b_data_sets acc;
            b_patterns := dict_update (b_patterns acc) catalog;
            b_layers := b_layers acc |}, st).
Proof.
  induction catalog as [|[n0 c0] catalog IH]; intros Hall acc st.
  - cbn [from_config_loop]. destruct acc. reflexivity.
  - cbn [from_config_loop].
    rewrite (Hall n0) by (left; reflexivity).
    rewrite IH by (intros name Hn; apply Hall; right; exact Hn).
    reflexivity.
Qed.

(** When every name of the configuration holds a "}", [from_config]
    builds no dataset and reads no credentials: whatever the
    credentials table is, it returns a catalog with no registered name
    and with every entry kept as a pattern, its config as given; the
    catalog has no layers, and the objects it is made of are the only
    new objects. *)
Theorem from_config_patterns_only (timestamp : string)
    (catalog : list (string * config)) (credentials : option config)
    (save_version : option string) (st : Store) :
  NoDup (dict_keys catalog) ->
  (forall name, In name (dict_keys catalog) -> str_contains ch_rbrace name = true) ->
  let n := S (S (length (heap st))) in
  let self := S (S (S (S n))) in
  exists st',
    from_config timestamp (Some catalog) credentials None save_version st
    = (Ret self, st')
    /\ heap st' = heap st ++ [ODatasets []; OPatterns catalog]
                  ++ new_registry n [] None catalog
    /\ exact_map st' self = []
    /\ pattern_table st' self = catalog
    /\ forall name cfg, In (name, cfg) catalog ->
         dict_get name (pattern_table st' self) = Some cfg.
Proof.
  intros Hnd Hall n self.
  set (st2 := {| heap := (heap st ++ [ODatasets []]) ++ [OPatterns catalog];
                 parse_calls := parse_calls st |}).
  assert (Hd : heap st2 !! length (heap st) = Some (ODatasets [])).
  { unfold st2. cbn [heap]. apply lookup_app_l_Some.
    rewrite lookup_app_r by lia. rewrite Nat.sub_diag. reflexivity. }
  assert (Hp : heap st2 !! S (length (heap st)) = Some (OPatterns catalog)).
  { unfold st2. cbn [heap]. rewrite lookup_app_r by (rewrite length_app; cbn; lia).
    rewrite length_app. cbn [length].
    replace (S (length (heap st)) - (length (heap st) + 1))%nat with O by lia.
    reflexivity. }
  assert (Hlen : length (heap st2) = n).
  { unfold st2, n. cbn [heap]. rewrite !length_app. cbn [length]. lia. }
  pose proof (init_run st2 _ _ None _ _ Hd Hp) as Hinit. rewrite Hlen in Hinit.
  eexists. split.
  { unfold from_config, deepcopy. cbv zeta. cbn [or_empty dict_keys map List.filter].
    unfold bind at 1.
    rewrite (from_config_loop_patterns _ _ _ catalog Hall). cbn [b_data_sets b_patterns b_layers].
    rewrite (dict_update_nil _ Hnd).
    unfold bind at 1. unfold alloc at 1.
    unfold bind at 1. unfold ret at 1.
    unfold bind at 1. unfold alloc at 1. cbn [heap parse_calls].
    rewrite length_app. cbn [length].
    replace (length (heap st) + 1)%nat with (S (length (heap st))) by lia.
    exact Hinit. }
  cbn [heap].
  destruct (lookup_new_registry (heap st2) [] None catalog) as (N0 & _ & N2 & _ & N4).
  cbv zeta in N0, N2, N4. rewrite Hlen in N0, N2, N4.
  split.
  { unfold st2. cbn [heap]. rewrite <- !app_assoc. reflexivity. }
  assert (Hmap : exact_map {| heap := heap st2 ++ new_registry n [] None catalog;
                              parse_calls := parse_calls st2 |} self = []).
  { unfold exact_map. cbn [heap]. unfold self. rewrite N4.
    cbn [new_catalog _data_sets]. rewrite N0. reflexivity. }
  assert (Hpat : pattern_table {| heap := heap st2 ++ new_registry n [] None catalog;
                                  parse_calls := parse_calls st2 |} self = catalog).
  { unfold pattern_table. cbn [heap]. unfold self. rewrite N4.
    cbn [new_catalog dataset_patterns]. rewrite N2. reflexivity. }
  split; [exact Hmap|]. split; [exact Hpat|].
  intros name cfg Hin. rewrite Hpat. apply dict_get_in_nodup; assumption.
Qed.
End PatternsOnly.

(** ** The theorems at work on examples *)

Module Examples.
Import Demo.

Lemma example_registry :
  registry_at example_store example_self example_fields
    [("cars", 0%nat)] [("cars", 0%nat)] example_patterns [].
Proof.
  unfold registry_at.
  repeat split; try reflexivity.
  apply NoDup_cons. split; [apply not_elem_of_nil|apply NoDup_nil_2].
Defined.

(** C1: with the patterns of the example given in either order,
    "uk.companies" is matched by "{namespace}.companies", which stands
    before "{namespace}.{dataset}". *)
Lemma pattern_precedence_witness :
  first_match "uk.companies"
    (sort_patterns ["{namespace}.{dataset}"; "{namespace}.companies"])
  = (Some "{namespace}.companies", 1%nat)
  /\ precedes "{namespace}.companies" "{namespace}.{dataset}".
Proof.
  assert (Hm : first_match "uk.companies"
                 (sort_patterns ["{namespace}.{dataset}"; "{namespace}.companies"])
               = (Some "{namespace}.companies", 1%nat)) by reflexivity.
  split; [exact Hm|].
  apply (proj2 (proj2 (proj1 (proj2 (proj2 (proj2
           (pattern_precedence ["{namespace}.{dataset}"; "{namespace}.companies"]))))
           "uk.companies" "{namespace}.companies" 1%nat Hm))).
  - left. reflexivity.
  - vm_compute. discriminate.
Defined.

(** C1, as the specification states it, fails: of two patterns with
    one literal character each, the code puts the one with two
    placeholders before the one with one placeholder. *)
Lemma fewer_placeholders_first_fails :
  _specificity "{a}_" = _specificity "{x}{y}_"
  /\ (str_count ch_lbrace "{a}_" < str_count ch_lbrace "{x}{y}_")%nat
  /\ sort_patterns ["{a}_"; "{x}{y}_"] = ["{x}{y}_"; "{a}_"]
  /\ ~ StronglySorted precedes_fewer_first (sort_patterns ["{a}_"; "{x}{y}_"]).
Proof.
  split; [reflexivity|]. split; [vm_compute; lia|]. split; [reflexivity|].
  intros H. vm_compute in H. apply StronglySorted_inv in H. destruct H as [_ H].
  apply List.Forall_inv in H. unfold precedes_fewer_first in H.
  vm_compute in H. destruct H as [H|[_ [H|[H _]]]]; try discriminate; lia.
Defined.

(** C2: resolving "uk.companies" on the example. *)
Lemma match_once_witness :
  dict_mem "uk.companies" [("cars", 0%nat)] = false
  /\ _get_dataset example_self "uk.companies" None true example_store
     = (Ret 9%nat, example_store_after)
  /\ exact_map example_store_after example_self
     = [("cars", 0%nat); ("uk.companies", 9%nat)]
  /\ (forall calls,
        dict_mem "uk.companies"
          (exact_map (exec_all calls example_store_after) example_self) = true)
  /\ (forall version' suggest',
        exists r' st2,
          _get_dataset example_self "uk.companies" version' suggest'
            example_store_after = (Ret r', st2)
          /\ parse_calls st2 = parse_calls example_store_after).
Proof.
  assert (H1 : dict_mem "uk.companies" [("cars", 0%nat)] = false) by reflexivity.
  assert (H2 : _get_dataset example_self "uk.companies" None true example_store
               = (Ret 9%nat, example_store_after)) by reflexivity.
  destruct (match_once_register_forever example_store example_self example_fields
              _ _ _ _ "uk.companies" None true 9%nat example_store_after
              example_registry H1 H2)
    as (ds & E1 & _ & _ & _ & _ & E2 & E3).
  split; [exact H1|]. split; [exact H2|]. split; [exact E1|]. split; [exact E2|].
  intros version' suggest'.
  destruct (E3 version' suggest') as (r' & st2 & G1 & G2 & _).
  exists r', st2. split; assumption.
Defined.

(** C3: the copy of the example registry. *)
Lemma shallow_copy_witness :
  exists st',
    shallow_copy example_self example_store = (Ret 13%nat, st')
    /\ exact_map st' 13%nat = [("cars", 0%nat)]
    /\ exact_map st' example_self = [("cars", 0%nat)]
    /\ exists st2,
         add 13%nat "boats" 0%nat false st' = (Ret tt, st2)
         /\ exact_map st2 13%nat = [("cars", 0%nat); ("boats", 0%nat)]
         /\ exact_map st2 example_self = [("cars", 0%nat)].
Proof.
  destruct (shallow_copy_new_map example_store example_self example_fields
              _ _ _ _ example_registry)
    as (st' & E1 & _ & R1 & R2 & _ & _ & _ & _ & Hadd).
  exists st'. split; [exact E1|].
  split; [apply (registry_at_readers _ _ _ _ _ _ _ R1)|].
  split; [apply (registry_at_readers _ _ _ _ _ _ _ R2)|].
  destruct (Hadd "boats" 0%nat false eq_refl) as [(st2 & A1 & A2 & A3) _].
  exists st2. split; [exact A1|]. split; [exact A2|exact A3].
Defined.

(** C3, as the specification states it, fails: a dataset added to the
    copy is not in the exact-name map of the original, and the two
    catalogs hold two map objects. *)
Lemma shallow_copy_map_not_shared :
  let st' := after (shallow_copy example_self) example_store in
  let st2 := after (add 13%nat "boats" 0%nat false) st' in
  shallow_copy example_self example_store = (Ret 13%nat, st')
  /\ add 13%nat "boats" 0%nat false st' = (Ret tt, st2)
  /\ dict_mem "boats" (exact_map st2 13%nat) = true
  /\ dict_mem "boats" (exact_map st2 example_self) = false
  /\ (exists c c', heap st' !! example_self = Some (OCatalog c)
                   /\ heap st' !! 13%nat = Some (OCatalog c')
                   /\ _data_sets c <> _data_sets c').
Proof.
  cbv zeta. repeat split; try reflexivity.
  eexists _, _. split; [reflexivity|]. split; [reflexivity|].
  vm_compute. discriminate.
Defined.

(** C4: the entries of the example configuration. *)
Lemma from_config_witness :
  from_config "2023-07-01T00.00.00.000Z" (Some example_catalog)
    (Some example_credentials) None None empty_store
  = (Ret example_self, example_store)
  /\ dict_mem "{namespace}.companies" (exact_map example_store example_self) = false
  /\ exists l ds cfg',
       dict_get "cars" (exact_map example_store example_self) = Some l
       /\ heap example_store !! l = Some (OInstance ds)
       /\ _resolve_credentials
            [("type", VStr "pandas.CSVDataSet"); ("filepath", VStr "cars.csv");
             ("credentials", VStr "dev_s3")] example_credentials = Ret cfg'
       /\ AbstractDataSet_from_config "cars" cfg' None
            (Some "2023-07-01T00.00.00.000Z") = inr ds.
Proof.
  assert (Hrun : from_config "2023-07-01T00.00.00.000Z" (Some example_catalog)
                   (Some example_credentials) None None empty_store
                 = (Ret example_self, example_store)) by reflexivity.
  assert (Hnd : NoDup (dict_keys (or_empty (Some example_catalog)))).
  { apply (bool_decide_unpack _). vm_compute. exact I. }
  pose proof (from_config_entries _ _ _ _ _ _ _ _ Hnd Hrun) as Hent.
  split; [exact Hrun|]. split.
  - destruct (Hent "{namespace}.companies" _ (or_intror (or_introl eq_refl)))
      as [_ H]. exact (proj2 H).
  - destruct (Hent "cars" _ (or_introl eq_refl)) as [_ H].
    destruct H as [_ (l & ds & cfg' & G1 & G2 & _ & G4 & G5)].
    exists l, ds, cfg'. repeat split; assumption.
Defined.

(** C4, as the specification states it, fails: the name "x}" holds no
    pair of placeholder delimiters, and yet its entry is not built: it
    is kept as a pattern. *)
Lemma name_without_pair_not_built :
  let st' := after (from_config "t" (Some odd_catalog) None None None) empty_store in
  has_placeholder_pair "x}" = false
  /\ from_config "t" (Some odd_catalog) None None None empty_store = (Ret 6%nat, st')
  /\ exact_map st' 6%nat = []
  /\ pattern_table st' 6%nat = odd_catalog.
Proof. cbv zeta. repeat split; vm_compute; reflexivity. Defined.



(** C5: a template field that refers to a key with no capture. *)
Example template_key_absent :
  resolve_template "{namespace}.companies" (Some [("namespace", "uk")])
    [("type", VStr "pandas.CSVDataSet"); ("filepath", VStr "data/{layer}/x.csv")]
  = Raise (DatasetError
             "Unable to resolve 'filepath' for the pattern '{namespace}.companies'").
Proof. reflexivity. Qed.

(** C5: the fields of a nested mapping are left as they are. *)
Example template_nested_untouched :
  resolve_template "{namespace}.{dataset}"
    (Some [("namespace", "uk"); ("dataset", "cars")])
    [("filepath", VStr "data/{namespace}/{dataset}.pq");
     ("load_args", VDict [("columns", VList [VStr "{dataset}"])])]
  = Ret [("filepath", VStr "data/uk/cars.pq");
         ("load_args", VDict [("columns", VList [VStr "{dataset}"])])].
Proof. reflexivity. Qed.

(** C6: the configuration of the specification's example. *)
Lemma credentials_witness :
  exists cfg',
    _resolve_credentials
      [("credentials", VStr "secretA");
       ("nested", VDict [("credentials", VStr "secretB"); ("sep", VStr ",")])]
      [("secretA", VDict [("key", VStr "a")]); ("secretB", VStr "b")]
    = Ret cfg'
    /\ get_path ["nested"; "credentials"] (VDict cfg') = Some (VStr "b")
    /\ get_path ["nested"; "sep"] (VDict cfg') = Some (VStr ",").
Proof.
  destruct (proj1 (proj2 (credentials_resolved_at_every_depth
              [("credentials", VStr "secretA");
               ("nested", VDict [("credentials", VStr "secretB"); ("sep", VStr ",")])]
              [("secretA", VDict [("key", VStr "a")]); ("secretB", VStr "b")])))
    as (cfg' & Hr & _ & Hpaths).
  { intros s [<-|[<-|[]]]; reflexivity. }
  exists cfg'. split; [exact Hr|]. split.
  - pose proof (Hpaths ["nested"] "credentials" (VStr "secretB") eq_refl) as H.
    cbn in H. exact (proj1 H).
  - exact (Hpaths ["nested"] "sep" (VStr ",") eq_refl).
Defined.

(** C7: a load version for a name that the configuration does not hold. *)
Lemma missing_load_version_witness :
  from_config "t" (Some example_catalog) (Some example_credentials)
    (Some [("missing_name", "v1")]) None empty_store
  = (Raise (DatasetNotFoundError
              "'load_versions' keys [missing_name] are not found in the catalog."),
     empty_store).
Proof.
  exact (proj2 (from_config_missing_load_version "t" (Some example_catalog)
                  (Some example_credentials) (Some [("missing_name", "v1")]) None
                  empty_store "missing_name" (or_introl eq_refl) eq_refl)).
Defined.

(** C8: setting an attribute of the view of the example. *)
Lemma frozen_setattr_witness :
  FrozenDatasets_setattr 5%nat "cars" 0%nat example_store
  = (Raise (AttributeError
              "Operation not allowed! Please change datasets through configuration."),
     example_store)
  /\ FrozenDatasets_setattr 5%nat "boats" 0%nat example_store
     = (Raise (AttributeError
                 "Operation not allowed! Please use DataCatalog.add() instead."),
        example_store).
Proof.
  split.
  - exact (proj1 (frozen_setattr_refused example_store 5%nat [("cars", 0%nat)]
                    "cars" 0%nat eq_refl)).
  - exact (proj1 (frozen_setattr_refused example_store 5%nat [("cars", 0%nat)]
                    "boats" 0%nat eq_refl)).
Defined.

(** C8, as the specification states it, fails: deleting an attribute
    that the view holds raises nothing and removes it from the view. *)
Lemma frozen_delattr_succeeds :
  let st' := after (FrozenDatasets_delattr 5%nat "cars") example_store in
  heap example_store !! 5%nat = Some (OFrozen [("cars", 0%nat)])
  /\ FrozenDatasets_delattr 5%nat "cars" example_store = (Ret tt, st')
  /\ heap st' !! 5%nat = Some (OFrozen [])
  /\ frozen_view st' example_self <> frozen_view example_store example_self.
Proof.
  cbv zeta. repeat split; try reflexivity. vm_compute. discriminate.
Defined.

(** C9: the configuration and the table of [example_heap]. *)
Lemma resolve_credentials_pure_witness :
  exists r h',
    ObjectGraph.resolve_credentials_ref 3 0%nat 3%nat example_heap = Some (r, h')
    /\ (forall l o, example_heap !! l = Some o -> h' !! l = Some o)
    /\ ObjectGraph.represents h' (VDict example_config_tree) (ObjectGraph.RRef 0%nat)
    /\ ObjectGraph.represents h' (VDict example_table_tree) (ObjectGraph.RRef 3%nat).
Proof.
  assert (H1 : ObjectGraph.represents example_heap (VDict example_config_tree)
                 (ObjectGraph.RRef 0%nat)).
  { cbn. eexists _, _. split; [reflexivity|]. split; [reflexivity|].
    repeat split.
    eexists _, _. split; [reflexivity|]. split; [reflexivity|].
    repeat split.
    eexists _, _. split; [reflexivity|]. split; [reflexivity|].
    repeat split. }
  assert (H2 : ObjectGraph.represents example_heap (VDict example_table_tree)
                 (ObjectGraph.RRef 3%nat)).
  { cbn. eexists _, _. split; [reflexivity|]. split; [reflexivity|].
    repeat split.
    eexists _, _. split; [reflexivity|]. split; [reflexivity|].
    repeat split. }
  assert (H3 : (ObjectGraph.depth (VDict example_config_tree) <= 3)%nat)
    by (vm_compute; lia).
  destruct (ObjectGraphFacts.resolve_credentials_pure example_heap 0%nat 3%nat
              example_config_tree example_table_tree 3%nat H1 H2 H3)
    as (r & h' & E & F1 & F2 & F3 & _).
  exists r, h'. split; [exact E|]. split; [exact F1|]. split; [exact F2|exact F3].
Defined.

(** C10: [exists("uk.companies")] on the example. *)
Lemma exists_witness :
  exists st',
    DataCatalog_exists example_self "uk.companies" example_store = (Ret false, st')
    /\ exact_map st' example_self = [("cars", 0%nat); ("uk.companies", 9%nat)]
    /\ frozen_view st' example_self = [("cars", 0%nat); ("uk__companies", 9%nat)]
    /\ heap st' !! 5%nat = Some (OFrozen [("cars", 0%nat)]).
Proof.
  destruct (proj1 (exists_materializes example_store example_self example_fields
                     _ _ _ _ "uk.companies" example_registry eq_refl)
              "{namespace}.companies" 1%nat
              [("uk.companies", "{namespace}.companies")]
              [("type", VStr "pandas.CSVDataSet");
               ("filepath", VStr "data/{namespace}/companies.csv")]
              [("type", VStr "pandas.CSVDataSet");
               ("filepath", VStr "data/uk/companies.csv")]
              {| i_name := "uk.companies";
                 i_config := [("type", VStr "pandas.CSVDataSet");
                              ("filepath", VStr "data/uk/companies.csv")];
                 i_version := (None, None); i_data := None |}
              eq_refl eq_refl eq_refl eq_refl)
    as (st' & E & M & _ & _ & _ & _ & V & O).
  exists st'. split; [exact E|]. split; [exact M|]. split; [exact V|exact O].
Defined.
End Examples.

(** ** The further properties at work on examples *)

Module MoreExamples.
Import Demo Trips.

Ltac distinct_names :=
  repeat (apply NoDup_cons; split;
          [rewrite list_elem_of_In; cbn [In map fst dict_keys]; intuition discriminate|]);
  apply NoDup_nil_2.

Lemma trips_registry :
  registry_at trips_store trips_self trips_fields
    [("trips", 0%nat)] [("trips", 0%nat)] trips_patterns [].
Proof.
  unfold registry_at. repeat split; try reflexivity. distinct_names.
Defined.

(** A configuration with no reference, and a table. *)
Lemma resolve_credentials_without_references_witness :
  _resolve_credentials
    [("type", VStr "pandas.CSVDataSet");
     ("load_args", VDict [("sep", VStr ","); ("columns", VList [VStr "credentials"])])]
    example_credentials
  = Ret [("type", VStr "pandas.CSVDataSet");
         ("load_args", VDict [("sep", VStr ",");
                              ("columns", VList [VStr "credentials"])])].
Proof.
  apply resolve_credentials_without_references. reflexivity.
Defined.

(** The configuration of "cars" refers to "dev_s3" only: another
    entry of the table changes nothing. *)
Lemma resolve_credentials_reads_references_only_witness :
  config_refs [("type", VStr "pandas.CSVDataSet"); ("credentials", VStr "dev_s3")]
  = ["dev_s3"]
  /\ _resolve_credentials
       [("type", VStr "pandas.CSVDataSet"); ("credentials", VStr "dev_s3")]
       (example_credentials ++ [("prod_s3", VStr "secret")])
     = _resolve_credentials
         [("type", VStr "pandas.CSVDataSet"); ("credentials", VStr "dev_s3")]
         example_credentials.
Proof.
  split; [reflexivity|].
  apply resolve_credentials_reads_references_only.
  intros s [<-|[]]. reflexivity.
Defined.

(** The template of "{name}_raw" has the value "raw/}{name}.csv". *)
Lemma template_lone_brace_witness :
  parse "{name}_raw" "cars_raw" = Some [("name", "cars")]
  /\ _resolve_dataset trips_self "cars_raw" "{name}_raw" trips_store
     = (Raise (ValueError "Single '}' encountered in format string"),
        {| heap := heap trips_store; parse_calls := 1 |}).
Proof.
  assert (Hp : parse "{name}_raw" "cars_raw" = Some [("name", "cars")])
    by reflexivity.
  split; [exact Hp|].
  apply (template_lone_brace_value_error trips_store trips_self trips_fields
           _ _ _ _ "cars_raw" "{name}_raw"
           [("type", VStr "pandas.CSVDataSet"); ("filepath", VStr "raw/}{name}.csv")]
           [("type", VStr "pandas.CSVDataSet")]
           [("type", VStr "pandas.CSVDataSet")] []
           [("name", "cars")] "filepath" "raw/" "{name}.csv" trips_registry).
  - reflexivity.
  - exact Hp.
  - reflexivity.
  - reflexivity.
  - reflexivity.
  - intros r H. discriminate H.
Defined.

(** "cars" is registered in the example. *)
Lemma add_registered_name_witness :
  add example_self "cars" 1%nat false example_store
  = (Raise (DatasetAlreadyExistsError "Dataset 'cars' has already been registered"),
     example_store)
  /\ exists st2,
       add example_self "cars" 1%nat true example_store = (Ret tt, st2)
       /\ dict_keys (exact_map st2 example_self) = ["cars"]
       /\ dict_get "cars" (exact_map st2 example_self) = Some 1%nat.
Proof.
  destruct (add_registered_name example_store example_self example_fields
              _ _ _ _ "cars" 0%nat 1%nat Examples.example_registry eq_refl)
    as ((Hno & _) & st2 & Hadd & Hkeys & Hget & _).
  split; [exact Hno|]. exists st2. repeat split; assumption.
Defined.

(** "boats" is not registered in the example. *)
Lemma add_then_resolve_witness :
  exists st2,
    add example_self "boats" 0%nat false example_store = (Ret tt, st2)
    /\ dict_get "boats" (exact_map st2 example_self) = Some 0%nat
    /\ dict_get "cars" (exact_map st2 example_self) = Some 0%nat
    /\ dict_get "boats" (frozen_view st2 example_self) = Some 0%nat
    /\ _get_dataset example_self "boats" None true st2 = (Ret 0%nat, st2).
Proof.
  destruct (add_then_resolve example_store example_self example_fields
              _ _ _ _ "boats" 0%nat false Examples.example_registry
              (or_introl eq_refl))
    as (st2 & Hadd & Hget & Hother & Hview & _ & _ & _ & _ & _ & _ & Hres).
  exists st2. split; [exact Hadd|]. split; [exact Hget|].
  split; [rewrite Hother; [reflexivity|discriminate]|].
  split; [exact Hview|apply Hres].
Defined.

Lemma add_all_registers_witness :
  exists st2,
    add_all example_self [("boats", 0%nat); ("planes", 0%nat)] false example_store
    = (Ret tt, st2)
    /\ exact_map st2 example_self
       = [("cars", 0%nat); ("boats", 0%nat); ("planes", 0%nat)].
Proof.
  assert (Hfresh : forall n, In n (dict_keys [("boats", 0%nat); ("planes", 0%nat)]) ->
                             dict_mem n [("cars", 0%nat)] = false).
  { intros n [<-|[<-|[]]]; reflexivity. }
  destruct (add_all_registers example_store example_self example_fields
              _ _ _ _ [("boats", 0%nat); ("planes", 0%nat)] false
              Examples.example_registry
              ltac:(distinct_names) ltac:(distinct_names) (or_intror Hfresh))
    as (st2 & Hall & _ & _ & _ & Hmap & _).
  exists st2. split; [exact Hall|]. apply Hmap. exact Hfresh.
Defined.

(** "boats" is registered, and stays registered, before [add_all]
    stops at "cars". *)
Lemma add_all_stops_witness :
  exists st2,
    add_all example_self [("boats", 0%nat); ("cars", 0%nat); ("planes", 0%nat)]
      false example_store
    = (Raise (DatasetAlreadyExistsError (already_registered "cars")), st2)
    /\ exact_map st2 example_self = [("cars", 0%nat); ("boats", 0%nat)]
    /\ dict_mem "planes" (exact_map st2 example_self) = false.
Proof.
  assert (Hfresh : forall n, In n (dict_keys [("boats", 0%nat)]) ->
                             dict_mem n [("cars", 0%nat)] = false).
  { intros n [<-|[]]; reflexivity. }
  destruct (add_all_stops_at_registered_name example_store example_self
              example_fields _ _ _ _ [("boats", 0%nat)] [("planes", 0%nat)]
              "cars" 0%nat Examples.example_registry
              ltac:(distinct_names) ltac:(distinct_names) Hfresh eq_refl)
    as (st2 & Hall & Hmap & Hpost).
  exists st2. split; [exact Hall|]. split; [exact Hmap|].
  apply Hpost; [left; reflexivity|reflexivity].
Defined.

Lemma add_feed_dict_wraps_data_witness :
  exists st2 l,
    add_feed_dict example_self
      [("params", @FeedData demo (VInt 3)); ("alias", @FeedDataset demo 0%nat)] false
      example_store = (Ret tt, st2)
    /\ dict_keys (exact_map st2 example_self) = ["cars"; "params"; "alias"]
    /\ dict_get "params" (exact_map st2 example_self) = Some l
    /\ heap st2 !! l = Some (OInstance (MemoryDataset (VInt 3)))
    /\ dict_get "alias" (exact_map st2 example_self) = Some 0%nat.
Proof.
  assert (Hfresh : forall n,
             In n (map fst [("params", @FeedData demo (VInt 3));
                            ("alias", @FeedDataset demo 0%nat)]) ->
             dict_mem n [("cars", 0%nat)] = false).
  { intros n [<-|[<-|[]]]; reflexivity. }
  destruct (add_feed_dict_wraps_data (C := demo) example_store example_self example_fields
              _ _ _ _ [("params", @FeedData demo (VInt 3)); ("alias", @FeedDataset demo 0%nat)]
              false Examples.example_registry ltac:(distinct_names) Hfresh)
    as (st2 & Hrun & Hkeys & _ & Hin & _).
  destruct (Hin "params" (@FeedData demo (VInt 3)) (or_introl eq_refl))
    as (l & Hl & Hobj & _).
  destruct (Hin "alias" (@FeedDataset demo 0%nat) (or_intror (or_introl eq_refl)))
    as (l' & Hl' & ->).
  exists st2, l. repeat split; assumption.
Defined.

(** [DataCatalog(data_sets=..., feed_dict={"cars": 3})] on the dict of
    the example, which holds "cars". *)
Lemma constructor_with_feed_dict_witness :
  exists st2,
    DataCatalog_init (Some 4%nat) (Some [("cars", @FeedData demo (VInt 3))]) None
      (Some 6%nat) example_store
    = (Raise (DatasetAlreadyExistsError (already_registered "cars")), st2).
Proof.
  apply (proj2 (constructor_with_feed_dict (C := demo) example_store 4%nat 6%nat None
                  [("cars", 0%nat)] example_patterns
                  [("cars", @FeedData demo (VInt 3))]
                  eq_refl eq_refl ltac:(distinct_names))
           [] "cars" (@FeedData demo (VInt 3)) [] eq_refl).
  - intros n [].
  - reflexivity.
Defined.

Lemma match_name_witness :
  exists m n,
    match_name_against_patterns example_self "uk.companies" example_store
    = (Ret m, {| heap := heap example_store; parse_calls := n |})
    /\ (n <= 2)%nat.
Proof.
  destruct (match_name_reads_patterns_only example_store example_self
              example_fields "uk.companies" eq_refl)
    as (m & n & Hrun & Hn & _).
  exists m, n. split; [exact Hrun|exact Hn].
Defined.

Lemma exists_in_catalog_config_witness :
  exists st',
    exists_in_catalog_config example_self "uk.companies" example_store
    = (Ret true, st')
    /\ exact_map st' example_self = [("cars", 0%nat)]
    /\ exists_in_catalog_config example_self "uk.companies" st' = (Ret true, st').
Proof.
  destruct (exists_in_catalog_config_remembers_matches example_store example_self
              example_fields _ _ _ _ "uk.companies" Examples.example_registry)
    as (b & st' & Hrun & Hmap & _ & _ & Hb & Hagain & _).
  assert (Eb : b = true).
  { apply Hb. right. vm_compute. discriminate. }
  subst b. exists st'. split; [exact Hrun|]. split; [exact Hmap|].
  apply Hagain. reflexivity.
Defined.

(** No pattern of the example parses "boats". *)
Lemma unknown_name_not_found_witness :
  load example_self "boats" None example_store
  = (Raise (DatasetNotFoundError "DataSet 'boats' not found in the catalog"),
     {| heap := heap example_store; parse_calls := 2 |})
  /\ release example_self "boats" example_store
     = (Raise (DatasetNotFoundError "DataSet 'boats' not found in the catalog"),
        {| heap := heap example_store; parse_calls := 2 |}).
Proof.
  assert (Hnone : forall p, In p (_sorted_dataset_patterns example_fields) ->
                            parse p "boats" = None).
  { intros p [<-|[<-|[]]]; reflexivity. }
  destruct (unknown_name_not_found example_store example_self example_fields
              _ _ _ _ "boats" Examples.example_registry eq_refl eq_refl Hnone)
    as (Hload & _ & Hrel & _).
  split; [exact (Hload None)|exact Hrel].
Defined.

Lemma registered_name_relays_witness :
  save example_self "cars" (VInt 7) example_store
  = (Ret tt,
     {| heap := <[0%nat := OInstance (with_data cars_instance (Some (VInt 7)))]>
                  (heap example_store);
        parse_calls := 0 |})
  /\ DataCatalog_exists example_self "cars" example_store
     = (Ret false, example_store).
Proof.
  destruct (registered_name_relays example_store example_self example_fields
              [("cars", 0%nat)] "cars" 0%nat cars_instance
              eq_refl eq_refl eq_refl eq_refl)
    as (_ & Hsave & Hexists & _).
  split; [exact (Hsave (VInt 7))|exact Hexists].
Defined.

(** "trips" is versioned. *)
Lemma load_version_witness :
  exists st',
    load trips_self "trips" (Some "2023-01-01") trips_store
    = (Raise (DatasetError "Data for MemoryDataset has not been saved yet."), st')
    /\ heap st' !! 0%nat = Some (OInstance trips_instance)
    /\ exact_map st' trips_self = [("trips", 0%nat)]
    /\ length (heap st') = 9%nat.
Proof.
  destruct (proj1 (load_version_uses_a_copy trips_store trips_self trips_fields
                     [("trips", 0%nat)] "trips" 0%nat trips_instance
                     "2"%char "023-01-01" eq_refl eq_refl eq_refl eq_refl)
              eq_refl)
    as (st' & Hload & Hheap & Hinst & Hmap).
  exists st'. split; [exact Hload|]. split; [exact Hinst|]. split; [exact Hmap|].
  rewrite Hheap. reflexivity.
Defined.

Lemma confirm_registered_witness :
  confirm example_self "cars" example_store
  = (Raise (DatasetError "Dataset 'cars' does not have 'confirm' method"),
     example_store).
Proof.
  apply (confirm_registered example_store example_self example_fields
           [("cars", 0%nat)] "cars" 0%nat cars_instance
           eq_refl eq_refl eq_refl eq_refl).
Defined.

(** "cars_raw" matches "{name}_raw", whose template does not resolve. *)
Lemma failed_build_witness :
  exists st',
    load trips_self "cars_raw" None trips_store
    = (Raise (ValueError "Single '}' encountered in format string"), st')
    /\ DataCatalog_exists trips_self "cars_raw" trips_store
       = (Raise (ValueError "Single '}' encountered in format string"), st')
    /\ exact_map st' trips_self = [("trips", 0%nat)]
    /\ exists_in_catalog_config trips_self "cars_raw" st' = (Ret true, st').
Proof.
  destruct (failed_build_stays_cached trips_store trips_self trips_fields
              _ _ _ _ "cars_raw" "{name}_raw" 1%nat [("cars_raw", "{name}_raw")]
              [("type", VStr "pandas.CSVDataSet"); ("filepath", VStr "raw/}{name}.csv")]
              (ValueError "Single '}' encountered in format string")
              trips_registry eq_refl eq_refl eq_refl eq_refl
              ltac:(intros what H; discriminate H))
    as (st' & Hget & Hexists & Hmap & _ & _ & Hcfg).
  exists st'. split.
  { unfold load. apply bind_raise. apply Hget. }
  split; [exact Hexists|]. split; [exact Hmap|exact Hcfg].
Defined.

Lemma nothing_is_unregistered_witness :
  dict_mem "cars"
    (exact_map
       (exec_all [CallDelattr 5%nat "cars"; CallAdd example_self "boats" 0%nat false;
                  CallLoad example_self "uk.companies" None]
          example_store) example_self) = true.
Proof.
  apply (proj1 (nothing_is_unregistered example_store example_self example_fields
                  _ _ _ _
                  [CallDelattr 5%nat "cars"; CallAdd example_self "boats" 0%nat false;
                   CallLoad example_self "uk.companies" None]
                  Examples.example_registry) "cars").
  reflexivity.
Defined.

(** The names of the example, with a search string of blanks and with
    a search string that does not compile. *)
Lemma list_registered_names_witness :
  DataCatalog_list (fun _ => None) example_self None example_store
  = (Ret (Listing ["cars"]), example_store)
  /\ DataCatalog_list (fun _ => None) example_self (Some "  ") example_store
     = (Ret (Listing []), example_store)
  /\ DataCatalog_list (fun _ => None) example_self (Some "(") example_store
     = (Ret (ListingSyntaxError "Invalid regular expression provided: '('"),
        example_store).
Proof.
  destruct (list_registered_names (fun _ => None) example_store example_self
              example_fields _ _ _ _ Examples.example_registry)
    as (Hall & Hblank & Hbad & _).
  split; [exact Hall|]. split; [apply Hblank; reflexivity|].
  apply Hbad; reflexivity.
Defined.

(** The example has "cars" in the layer "raw". *)
Lemma from_config_layers_witness :
  exists c' recorded,
    heap example_store !! example_self = Some (OCatalog c')
    /\ layers c' <> None
    /\ in_layer "raw" "cars" recorded.
Proof.
  assert (Hrun : from_config "2023-07-01T00.00.00.000Z" (Some example_catalog)
                   (Some example_credentials) None None empty_store
                 = (Ret example_self, example_store))
    by (vm_compute; reflexivity).
  destruct (from_config_layers _ _ _ _ _ _ _ _ Hrun)
    as (c' & recorded & Hc & _ & Hnone & Hin).
  exists c', recorded. split; [exact Hc|]. split.
  - intros H. pose proof (proj1 Hnone H) as Hall.
    destruct (Hall "cars" _ (or_introl eq_refl) eq_refl) as [E|E]; discriminate E.
  - apply Hin. eexists. split; [left; reflexivity|]. split; reflexivity.
Defined.

(** The two patterns of the example, with no credentials table, though
    a template could refer to one. *)
Lemma from_config_patterns_only_witness :
  exists st',
    from_config "t" (Some example_patterns) None None None empty_store
    = (Ret 6%nat, st')
    /\ exact_map st' 6%nat = []
    /\ pattern_table st' 6%nat = example_patterns.
Proof.
  assert (Hall : forall name, In name (dict_keys example_patterns) ->
                              str_contains ch_rbrace name = true).
  { intros name [<-|[<-|[]]]; reflexivity. }
  destruct (from_config_patterns_only "t" example_patterns None None empty_store
              ltac:(distinct_names) Hall)
    as (st' & Hrun & _ & Hmap & Hpat & _).
  exists st'. repeat split; assumption.
Defined.

End MoreExamples.
